(** * Email clustering pipeline: preprocessor, vectorizer, clusterer

    A shallow embedding of [backend/clustering/preprocessor.py],
    [backend/clustering/vectorizer.py] and [backend/clustering/clusterer.py],
    followed by the properties of the pipeline that the specification states.

    Conventions of the embedding.
    - Python [str] is [string]; the text functions ([lower], [title],
      [split], the regular expressions) are modelled on ASCII text.
    - A Python exception is a value of [exn]; a computation that may raise
      has type [Exc A]; [try ... except Exception] is [try_except].
    - Calls into third-party libraries (BeautifulSoup, NLTK, scikit-learn)
      are parameters of the sections that use them; each may raise.
    - [a / b > 0.6] on Python numbers is read in exact rational arithmetic;
      [float_ratio_agrees] checks on machine floats that both readings
      coincide for every batch that the application can fetch. *)

From Stdlib Require Import List Bool Arith ZArith QArith Lia Permutation.
From Stdlib Require Import Ascii String Sorted.
From Stdlib Require Import Numbers.DecimalString.
From Stdlib Require Import Floats.
Import ListNotations.

Open Scope list_scope.
Open Scope nat_scope.
Open Scope string_scope.

(* ================================================================== *)
(** * Python values, exceptions and text primitives *)

Module Py.

(** ** Exceptions *)

Inductive exn : Type :=
| ValueError (msg : string)
| TypeError
| IndexError
| ZeroDivisionError
| LibraryError (msg : string).

Inductive Exc (A : Type) : Type :=
| Ok (a : A)
| Raise (e : exn).

Arguments Ok {A} a.
Arguments Raise {A} e.

Definition bind {A B : Type} (m : Exc A) (f : A -> Exc B) : Exc B :=
  match m with
  | Ok a => f a
  | Raise e => Raise e
  end.

(** [try: body  except Exception: handler] *)
Definition try_except {A : Type} (body : Exc A) (handler : exn -> Exc A) : Exc A :=
  match body with
  | Ok a => Ok a
  | Raise e => handler e
  end.

(** ** Dynamically typed field values *)

Inductive PyVal : Type :=
| VNone
| VBool (b : bool)
| VInt (z : Z)
| VStr (s : string).

(** Python truthiness, as used by [if not text]. *)
Definition truthy (v : PyVal) : bool :=
  match v with
  | VNone => false
  | VBool b => b
  | VInt z => negb (z =? 0)%Z
  | VStr s => negb (String.eqb s "")
  end.

Definition str_of_nat (n : nat) : string :=
  NilEmpty.string_of_uint (Nat.to_uint n).

Definition str_of_Z (z : Z) : string :=
  NilEmpty.string_of_int (Z.to_int z).

(** [str(v)], the conversion an f-string applies. *)
Definition py_str (v : PyVal) : string :=
  match v with
  | VNone => "None"
  | VBool true => "True"
  | VBool false => "False"
  | VInt z => str_of_Z z
  | VStr s => s
  end.

(** ** Characters *)

Definition code (c : ascii) : nat := nat_of_ascii c.

Definition in_range (lo hi : nat) (c : ascii) : bool :=
  ((lo <=? code c) && (code c <=? hi))%nat.

Definition is_upper (c : ascii) : bool := in_range 65 90 c.
Definition is_lower (c : ascii) : bool := in_range 97 122 c.
Definition is_alpha (c : ascii) : bool := is_upper c || is_lower c.
Definition is_digit (c : ascii) : bool := in_range 48 57 c.

(** [\w] on ASCII text. *)
Definition is_word (c : ascii) : bool :=
  is_alpha c || is_digit c || (code c =? 95)%nat.

(** [str.isspace] and [\s] on ASCII text. *)
Definition is_space (c : ascii) : bool :=
  in_range 9 13 c || in_range 28 32 c.

Definition is_char (a : ascii) (c : ascii) : bool := Ascii.eqb a c.

Definition one_of (s : string) (c : ascii) : bool :=
  existsb (Ascii.eqb c) (list_ascii_of_string s).

Definition lower_char (c : ascii) : ascii :=
  if is_upper c then ascii_of_nat (code c + 32) else c.

Definition upper_char (c : ascii) : ascii :=
  if is_lower c then ascii_of_nat (code c - 32) else c.

(** ** Strings *)

Fixpoint lower (s : string) : string :=
  match s with
  | EmptyString => EmptyString
  | String c s' => String (lower_char c) (lower s')
  end.

(** [s.startswith(pre)] *)
Fixpoint startswith (s pre : string) {struct pre} : bool :=
  match pre with
  | EmptyString => true
  | String a pre' =>
      match s with
      | EmptyString => false
      | String b s' => Ascii.eqb a b && startswith s' pre'
      end
  end.

(** [sub in s] *)
Fixpoint str_in (sub s : string) : bool :=
  if startswith s sub then true
  else match s with
       | EmptyString => false
       | String _ s' => str_in sub s'
       end.

(** [any(k in s for k in keys)] *)
Definition any_in (keys : list string) (s : string) : bool :=
  existsb (fun k => str_in k s) keys.

Fixpoint drop (n : nat) (s : string) : string :=
  match n, s with
  | O, _ => s
  | S n', String _ s' => drop n' s'
  | S _, EmptyString => EmptyString
  end.

Definition take (n : nat) (s : string) : string := substring 0 n s.

(** [s.endswith(suffix)] *)
Definition endswith (s suffix : string) : bool :=
  (String.length suffix <=? String.length s)%nat &&
  String.eqb (drop (String.length s - String.length suffix) s) suffix.

(** [s.replace(old, new)] for a non-empty [old]: the occurrences are
    replaced from left to right without overlap; [skip] counts the
    characters of the occurrence being replaced that are still to pass. *)
Fixpoint replace_aux (old new : string) (skip : nat) (s : string) : string :=
  match s with
  | EmptyString => EmptyString
  | String c s' =>
      match skip with
      | S n => replace_aux old new n s'
      | O => if startswith s old
             then new ++ replace_aux old new (String.length old - 1) s'
             else String c (replace_aux old new 0 s')
      end
  end.

Definition replace (old new s : string) : string := replace_aux old new 0 s.

(** [s.title()]: a letter that follows a letter is lowered, any other
    letter is raised. *)
Fixpoint title_aux (prev_cased : bool) (s : string) : string :=
  match s with
  | EmptyString => EmptyString
  | String c s' =>
      if is_alpha c
      then String (if prev_cased then lower_char c else upper_char c) (title_aux true s')
      else String c (title_aux false s')
  end.

Definition title (s : string) : string := title_aux false s.

(** [sep.join(parts)] *)
Fixpoint join (sep : string) (parts : list string) : string :=
  match parts with
  | [] => ""
  | [p] => p
  | (p :: rest)%list => p ++ sep ++ join sep rest
  end.

(** [s.split()]: the maximal runs of non-space characters; [cur] is the
    run being read, reversed. *)
Definition rev_string (cs : list ascii) : string := string_of_list_ascii (rev cs).

Fixpoint split_aux (cur : list ascii) (s : string) : list string :=
  match s with
  | EmptyString => match cur with [] => [] | _ => [rev_string cur] end
  | String c s' =>
      if is_space c
      then match cur with
           | [] => split_aux [] s'
           | _ => rev_string cur :: split_aux [] s'
           end
      else split_aux (c :: cur) s'
  end.

Definition split (s : string) : list string := split_aux [] s.

(** [s.strip()] *)
Fixpoint lstrip (s : string) : string :=
  match s with
  | EmptyString => EmptyString
  | String c s' => if is_space c then lstrip s' else s
  end.

Definition rstrip (s : string) : string :=
  rev_string (list_ascii_of_string (lstrip (rev_string (list_ascii_of_string s)))).

Definition strip (s : string) : string := rstrip (lstrip s).

(** ** Regular expressions

    The fragment of [re] that the pipeline uses, with the matching order of
    a backtracking engine: alternatives are tried from left to right,
    repetition is greedy, and the first way to match is the match. *)

Inductive regex : Type :=
| Eps
| Chr (p : ascii -> bool)
| Seq (r1 r2 : regex)
| Alt (r1 r2 : regex)
| Star (r : regex)
| WordB
| Bol.

Definition Plus (r : regex) : regex := Seq r (Star r).
Definition Opt (r : regex) : regex := Alt r Eps.

Fixpoint Rep (n : nat) (r : regex) : regex :=
  match n with
  | O => Eps
  | S n' => Seq r (Rep n' r)
  end.

(** [r{n,}] *)
Definition AtLeast (n : nat) (r : regex) : regex := Seq (Rep n r) (Star r).

Fixpoint Lit (s : string) : regex :=
  match s with
  | EmptyString => Eps
  | String c s' => Seq (Chr (is_char c)) (Lit s')
  end.

Definition word_before (prev : option ascii) : bool :=
  match prev with
  | Some c => is_word c
  | None => false
  end.

Definition word_after (s : string) : bool :=
  match s with
  | String c _ => is_word c
  | EmptyString => false
  end.

(** [rmatch r prev s k]: match [r] at the head of [s], where [prev] is the
    character before it, then continue with [k] on what is left; [None]
    when every way to match fails.  The result is the text after the match. *)
Fixpoint rmatch (r : regex) (prev : option ascii) (s : string)
    (k : option ascii -> string -> option string) {struct r} : option string :=
  match r with
  | Eps => k prev s
  | Chr p =>
      match s with
      | String c s' => if p c then k (Some c) s' else None
      | EmptyString => None
      end
  | Seq r1 r2 => rmatch r1 prev s (fun prev' s' => rmatch r2 prev' s' k)
  | Alt r1 r2 =>
      match rmatch r1 prev s k with
      | Some rest => Some rest
      | None => rmatch r2 prev s k
      end
  | Star r1 =>
      (fix loop (fuel : nat) (prev : option ascii) (s : string) {struct fuel}
         : option string :=
         match fuel with
         | O => k prev s
         | S fuel' =>
             match rmatch r1 prev s
                     (fun prev' s' =>
                        if (String.length s' <? String.length s)%nat
                        then loop fuel' prev' s' else None) with
             | Some rest => Some rest
             | None => k prev s
             end
         end) (String.length s) prev s
  | WordB => if xorb (word_before prev) (word_after s) then k prev s else None
  | Bol => match prev with
           | None => k prev s
           | Some _ => None
           end
  end.

(** Length of the match of [r] at the head of [s], if there is one. *)
Definition match_len (r : regex) (prev : option ascii) (s : string) : option nat :=
  match rmatch r prev s (fun _ rest => Some rest) with
  | Some rest => Some (String.length s - String.length rest)
  | None => None
  end.

(** [re.search(r, s)]: the text before the leftmost match, and the match. *)
Fixpoint re_search_from (r : regex) (prev : option ascii) (s : string)
    : option (string * string) :=
  match match_len r prev s with
  | Some n => Some ("", take n s)
  | None =>
      match s with
      | EmptyString => None
      | String c s' =>
          match re_search_from r (Some c) s' with
          | Some (pre, m) => Some (String c pre, m)
          | None => None
          end
      end
  end.

Definition re_search (r : regex) (s : string) : option (string * string) :=
  re_search_from r None s.

(** [re.sub(r, repl, s)] for a pattern that matches no empty text: the
    matches are found from left to right without overlap; [skip] counts
    the characters of the current match that are still to pass. *)
Fixpoint re_sub_aux (r : regex) (repl : string) (prev : option ascii)
    (skip : nat) (s : string) : string :=
  match s with
  | EmptyString => EmptyString
  | String c s' =>
      match skip with
      | S n => re_sub_aux r repl (Some c) n s'
      | O =>
          match match_len r prev s with
          | Some (S n) => repl ++ re_sub_aux r repl (Some c) n s'
          | _ => String c (re_sub_aux r repl (Some c) 0 s')
          end
      end
  end.

Definition re_sub (r : regex) (repl : string) (s : string) : string :=
  re_sub_aux r repl None 0 s.

(** [re.findall(r, s)], under the same condition. *)
Fixpoint re_findall_aux (r : regex) (prev : option ascii) (skip : nat)
    (s : string) : list string :=
  match s with
  | EmptyString => []
  | String c s' =>
      match skip with
      | S n => re_findall_aux r (Some c) n s'
      | O =>
          match match_len r prev s with
          | Some (S n) => take (S n) s :: re_findall_aux r (Some c) n s'
          | _ => re_findall_aux r (Some c) 0 s'
          end
      end
  end.

Definition re_findall (r : regex) (s : string) : list string :=
  re_findall_aux r None 0 s.

End Py.

Import Py.

(* ================================================================== *)
(** * The data model *)

(** A raw email is a Python dict; [dict_get] is [d.get(key, default)]. *)
Definition Dict : Type := list (string * PyVal).

Fixpoint dict_get (d : Dict) (key : string) (default : PyVal) : PyVal :=
  match d with
  | [] => default
  | (k, v) :: d' => if String.eqb k key then v else dict_get d' key default
  end.

(** The dict that [extract_features] builds: it always holds these
    fifteen keys, so that [email.get(key, default)] in the vectorizer and
    in the clusterer reads the field. *)
Record ProcessedEmail : Type := mkProcessed {
  pe_id : PyVal;
  gmail_id : PyVal;
  subject : string;
  body : string;
  sender : PyVal;
  sender_domain : string;
  combined_text : string;
  tokens : list string;
  token_count : nat;
  subject_length : nat;
  body_length : nat;
  has_attachments : bool;
  is_newsletter : bool;
  is_notification : bool;
  is_promotional : bool
}.

(* ================================================================== *)
(** * preprocessor.py *)

Module Preprocessor.

(** ** The patterns of [clean_text] and [_extract_domain] *)

(** [http[s]?://(?:[a-zA-Z]|[0-9]|[$-_@.&+]|[!*\\(\\),]|(?:%[0-9a-fA-F][0-9a-fA-F]))+] *)
Definition hex_digit (c : ascii) : bool :=
  is_digit c || in_range 97 102 c || in_range 65 70 c.

Definition url_char : regex :=
  Alt (Chr is_alpha)
 (Alt (Chr is_digit)
 (Alt (Chr (fun c => in_range 36 95 c || one_of "@.&+" c))
 (Alt (Chr (one_of "!*\(),"))
      (Seq (Chr (is_char "%")) (Seq (Chr hex_digit) (Chr hex_digit)))))).

Definition url_pattern : regex :=
  Seq (Lit "http")
 (Seq (Opt (Chr (is_char "s")))
 (Seq (Lit "://")
      (Plus url_char))).

(** [\b[A-Za-z0-9._%+-]+@[A-Za-z0-9.-]+\.[A-Z|a-z]{2,}\b] *)
Definition address_pattern : regex :=
  Seq WordB
 (Seq (Plus (Chr (fun c => is_alpha c || is_digit c || one_of "._%+-" c)))
 (Seq (Chr (is_char "@"))
 (Seq (Plus (Chr (fun c => is_alpha c || is_digit c || one_of ".-" c)))
 (Seq (Chr (is_char "."))
 (Seq (AtLeast 2 (Chr (fun c => is_alpha c || is_char "|" c)))
      WordB))))).

(** [\b\d{3}[-.]?\d{3}[-.]?\d{4}\b] *)
Definition phone_pattern : regex :=
  Seq WordB
 (Seq (Rep 3 (Chr is_digit))
 (Seq (Opt (Chr (one_of "-.")))
 (Seq (Rep 3 (Chr is_digit))
 (Seq (Opt (Chr (one_of "-.")))
 (Seq (Rep 4 (Chr is_digit))
      WordB))))).

(** [\s+] *)
Definition spaces_pattern : regex := Plus (Chr is_space).

(** [[^\w\s\-\.]] *)
Definition punctuation_pattern : regex :=
  Chr (fun c => negb (is_word c || is_space c || one_of "-." c)).

(** [\b\d+\b] *)
Definition number_pattern : regex := Seq WordB (Seq (Plus (Chr is_digit)) WordB).

(** [<[^>]+>] *)
Definition tag_pattern : regex :=
  Seq (Chr (is_char "<")) (Seq (Plus (Chr (fun c => negb (is_char ">" c))))
      (Chr (is_char ">"))).

(** [@([^@]+)] *)
Definition at_pattern : regex :=
  Seq (Chr (is_char "@")) (Plus (Chr (fun c => negb (is_char "@" c)))).

(** [^(mail|smtp|pop|imap)\.] *)
Definition subdomain_pattern : regex :=
  Seq Bol (Seq (Alt (Lit "mail") (Alt (Lit "smtp") (Alt (Lit "pop") (Lit "imap"))))
               (Chr (is_char "."))).

(** ** Keyword lists *)

Definition newsletter_indicators : list string :=
  ["newsletter"; "digest"; "weekly"; "monthly"; "daily";
   "unsubscribe"; "subscription"; "mailing list";
   "noreply"; "no-reply"; "donotreply"].

Definition notification_indicators : list string :=
  ["notification"; "alert"; "reminder"; "confirmation";
   "receipt"; "invoice"; "statement"; "report";
   "update"; "status"; "activity"; "security"].

Definition promo_indicators : list string :=
  ["sale"; "discount"; "offer"; "deal"; "promotion";
   "coupon"; "save"; "free"; "limited time";
   "special"; "exclusive"; "buy now"; "shop"].

Definition email_stop_words : list string :=
  ["email"; "mail"; "message"; "sent"; "received"; "reply"; "forward";
   "subject"; "from"; "to"; "cc"; "bcc"; "date"; "time";
   "gmail"; "outlook"; "yahoo"; "hotmail";
   "http"; "https"; "www"; "com"; "org"; "net";
   "unsubscribe"; "click"; "here"; "link";
   "best"; "regards"; "sincerely"; "thanks"; "thank"; "you";
   "please"; "let"; "know"; "get"; "back"; "contact";
   "would"; "could"; "should"; "will"; "can"; "may";
   "one"; "two"; "three"; "first"; "second"; "last";
   "also"; "just"; "now"; "then"; "well"; "good"; "great"].

Definition fallback_stop_words : list string :=
  ["the"; "a"; "an"; "and"; "or"; "but"; "in"; "on"; "at"; "to"; "for";
   "of"; "with"; "by"; "is"; "are"; "was"; "were"; "be"; "been"; "being";
   "have"; "has"; "had"; "do"; "does"; "did"; "will"; "would"; "could";
   "should"; "may"; "might"; "must"; "can"; "this"; "that"; "these";
   "those"; "i"; "you"; "he"; "she"; "it"; "we"; "they"; "me"; "him";
   "her"; "us"; "them"; "my"; "your"; "his"; "her"; "its"; "our"; "their"].

(** [c in string.punctuation] *)
Definition is_punctuation (c : ascii) : bool :=
  in_range 33 47 c || in_range 58 64 c || in_range 91 96 c || in_range 123 126 c.

Definition mem (w : string) (ws : list string) : bool :=
  existsb (String.eqb w) ws.

(** ** The signal predicates *)

Definition _is_newsletter (sender : PyVal) (subject body : string) : bool :=
  let text := lower (py_str sender ++ " " ++ subject ++ " " ++ body) in
  any_in newsletter_indicators text.

Definition _is_notification (subject body : string) : bool :=
  let text := lower (subject ++ " " ++ body) in
  any_in notification_indicators text.

Definition _is_promotional (subject body : string) : bool :=
  let text := lower (subject ++ " " ++ body) in
  any_in promo_indicators text.

Section WithLibraries.

(** [BeautifulSoup(text, 'html.parser').get_text()] *)
Variable html_get_text : PyVal -> Exc string.
(** [nltk.tokenize.word_tokenize] *)
Variable word_tokenize : string -> Exc (list string).
(** [PorterStemmer().stem] *)
Variable stem : string -> Exc string.
(** [stopwords.words('english')] *)
Variable nltk_stopwords : Exc (list string).

Definition _load_stop_words : list string :=
  match nltk_stopwords with
  | Ok english => english ++ email_stop_words
  | Raise _ => fallback_stop_words
  end%list.

Definition stop_words : list string := _load_stop_words.

(** [re.sub(pattern, repl, text)] raises [TypeError] unless [text] is a
    string. *)
Definition _remove_html (text : PyVal) : Exc string :=
  try_except (html_get_text text)
    (fun _ => match text with
              | VStr s => Ok (re_sub tag_pattern "" s)
              | _ => Raise TypeError
              end).

Definition clean_text (text : PyVal) : Exc string :=
  if negb (truthy text) then Ok ""
  else
    bind (_remove_html text) (fun text =>
    let text := re_sub url_pattern "" text in
    let text := re_sub address_pattern "" text in
    let text := re_sub phone_pattern "" text in
    let text := re_sub spaces_pattern " " text in
    let text := lower text in
    let text := re_sub punctuation_pattern " " text in
    let text := re_sub number_pattern "" text in
    let text := join " " (split text) in
    Ok (strip text)).

Definition _extract_domain (sender : PyVal) : string :=
  match sender with
  | VStr sender =>
      let email_addr :=
        match re_search tag_pattern sender with
        | Some (_, m) => take (String.length m - 2) (drop 1 m)
        | None => sender
        end in
      match re_search at_pattern email_addr with
      | Some (_, m) => re_sub subdomain_pattern "" (lower (drop 1 m))
      | None => "unknown"
      end
  | _ => "unknown"
  end.

(** The loop of [_tokenize_and_filter]; an error of the stemmer leaves it. *)
Fixpoint filter_tokens (toks : list string) : Exc (list string) :=
  match toks with
  | [] => Ok []
  | token :: rest =>
      if (String.length token <? 3)%nat
         || mem (lower token) stop_words
         || forallb is_punctuation (list_ascii_of_string token)
      then filter_tokens rest
      else bind (stem (lower token)) (fun stemmed =>
           bind (filter_tokens rest) (fun filtered =>
           Ok (stemmed :: filtered)))
  end%list.

Definition _tokenize_and_filter (text : string) : list string :=
  if String.eqb text "" then []
  else
    match bind (word_tokenize text) filter_tokens with
    | Ok filtered => filtered
    | Raise _ =>
        filter (fun word => (3 <=? String.length word)%nat
                            && negb (mem (lower word) stop_words))
               (split text)
    end.

Definition extract_features (email : Dict) : Exc ProcessedEmail :=
  bind (clean_text (dict_get email "subject" (VStr ""))) (fun subject =>
  bind (clean_text (dict_get email "body" (VStr ""))) (fun body =>
  let sender := dict_get email "sender" (VStr "") in
  let sender_domain := _extract_domain sender in
  let combined_text := subject ++ " " ++ body in
  let tokens := _tokenize_and_filter combined_text in
  Ok {| pe_id := dict_get email "id" VNone;
        gmail_id := dict_get email "gmail_id" VNone;
        subject := subject;
        body := body;
        sender := sender;
        sender_domain := sender_domain;
        combined_text := join " " tokens;
        tokens := tokens;
        token_count := List.length tokens;
        subject_length := List.length (split subject);
        body_length := List.length (split body);
        has_attachments := str_in "attachment" (lower body);
        is_newsletter := _is_newsletter sender subject body;
        is_notification := _is_notification subject body;
        is_promotional := _is_promotional subject body |})).

(** The body of the loop of [preprocess_emails]: the handler prints and
    continues, and [email.get] on a dict does not raise. *)
Definition preprocess_one (processed_emails : list ProcessedEmail) (email : Dict)
    : Exc (list ProcessedEmail) :=
  try_except
    (bind (extract_features email) (fun features =>
     Ok (processed_emails ++ [features])%list))
    (fun _ =>
       let _shown := py_str (dict_get email "gmail_id" (VStr "unknown")) in
       Ok processed_emails).

Fixpoint preprocess_loop (processed_emails : list ProcessedEmail) (emails : list Dict)
    : Exc (list ProcessedEmail) :=
  match emails with
  | [] => Ok processed_emails
  | email :: rest =>
      bind (preprocess_one processed_emails email) (fun processed_emails' =>
      preprocess_loop processed_emails' rest)
  end.

Definition preprocess_emails (emails : list Dict) : Exc (list ProcessedEmail) :=
  preprocess_loop [] emails.

End WithLibraries.

End Preprocessor.

(* ================================================================== *)
(** * Arrays *)

(** A two-dimensional array is the list of its rows; [np.array([])] is the
    array without rows.  Entries are rationals. *)
Definition Matrix : Type := list (list Q).

Definition np_empty : Matrix := [].

(** [a.size] *)
Definition size (a : Matrix) : nat := list_sum (map (@List.length Q) a).

(** [a.shape[0]] *)
Definition shape0 (a : Matrix) : nat := List.length a.

(** [np.hstack([a, b])] of two-dimensional arrays. *)
Fixpoint hstack (a b : Matrix) : Exc Matrix :=
  match a, b with
  | [], [] => Ok []
  | ra :: a', rb :: b' => bind (hstack a' b') (fun rest => Ok ((ra ++ rb)%list :: rest))
  | _, _ => Raise (ValueError "all the input array dimensions must match")
  end.

(* ================================================================== *)
(** * vectorizer.py *)

Module Vectorizer.

(** [_encode_sender_domain] *)
Definition _encode_sender_domain (domain : string) : Q :=
  if String.eqb domain "" || String.eqb domain "unknown" then 0
  else if any_in ["facebook"; "twitter"; "linkedin"; "instagram"; "whatsapp"; "telegram"] domain then 1
  else if any_in ["amazon"; "ebay"; "shopify"; "etsy"; "alibaba"; "walmart"] domain then 2
  else if any_in ["bank"; "paypal"; "stripe"; "visa"; "mastercard"; "finance"] domain then 3
  else if any_in ["news"; "media"; "times"; "post"; "reuters"; "cnn"; "bbc"] domain then 4
  else if any_in ["google"; "microsoft"; "apple"; "github"; "stackoverflow"; "tech"] domain then 5
  else if endswith domain ".gov" || endswith domain ".org" then 6
  else if endswith domain ".edu" then 7
  else 8.

Definition int_of_bool (b : bool) : Q := if b then 1 else 0.

Definition Q_of_nat (n : nat) : Q := inject_Z (Z.of_nat n).

Definition _extract_additional_features (processed_emails : list ProcessedEmail) : Matrix :=
  map (fun email =>
         [ Q_of_nat (subject_length email);
           Q_of_nat (body_length email);
           Q_of_nat (token_count email);
           int_of_bool (has_attachments email);
           int_of_bool (is_newsletter email);
           int_of_bool (is_notification email);
           int_of_bool (is_promotional email);
           _encode_sender_domain (sender_domain email) ])
      processed_emails.

Definition _combine_text_features (email : ProcessedEmail) : string :=
  let subject := subject email in
  let body := if String.eqb (combined_text email) "" then body email
              else combined_text email in
  let sender_domain := sender_domain email in
  let combined_text :=
    subject ++ " " ++ subject ++ " " ++ subject ++ " " ++
    sender_domain ++ " " ++ sender_domain ++ " " ++ body in
  let combined_text :=
    if is_newsletter email then combined_text ++ " newsletter_type" else combined_text in
  let combined_text :=
    if is_notification email then combined_text ++ " notification_type" else combined_text in
  let combined_text :=
    if is_promotional email then combined_text ++ " promotional_type" else combined_text in
  strip combined_text.

Section WithSklearn.

(** The state of a [TfidfVectorizer] and of a [StandardScaler]. *)
Variable Tfidf : Type.
Variable Scaler : Type.

(** [TfidfVectorizer.fit_transform(texts).toarray()], with the fitted
    object; the object may have changed even when the call raises. *)
Variable tfidf_fit_transform : Tfidf -> list string -> Exc Matrix * Tfidf.
(** [TfidfVectorizer.get_feature_names_out()] *)
Variable tfidf_feature_names : Tfidf -> Exc (list string).
(** [TfidfVectorizer.transform(texts).toarray()] *)
Variable tfidf_transform : Tfidf -> list string -> Exc Matrix.
(** [StandardScaler.fit_transform] and [StandardScaler.transform] *)
Variable scaler_fit_transform : Scaler -> Matrix -> Exc Matrix * Scaler.
Variable scaler_transform : Scaler -> Matrix -> Exc Matrix.

Record EmailVectorizer : Type := mkVectorizer {
  tfidf_vectorizer : Tfidf;
  scaler : Scaler;
  feature_names : list string;
  is_fitted : bool
}.

(** [__init__], given the two fresh library objects. *)
Definition init (tfidf : Tfidf) (sc : Scaler) : EmailVectorizer :=
  {| tfidf_vectorizer := tfidf; scaler := sc; feature_names := []; is_fitted := false |}.

(** A method body: it reads and updates the object and may raise; the
    updates made before an exception stay. *)
Definition Method (A : Type) : Type := EmailVectorizer -> Exc A * EmailVectorizer.

Definition ret {A : Type} (a : A) : Method A := fun self => (Ok a, self).

Definition raise {A : Type} (e : exn) : Method A := fun self => (Raise e, self).

Definition mbind {A B : Type} (m : Method A) (f : A -> Method B) : Method B :=
  fun self =>
    match m self with
    | (Ok a, self') => f a self'
    | (Raise e, self') => (Raise e, self')
    end.

Definition lift {A : Type} (m : Exc A) : Method A := fun self => (m, self).

Definition try_method {A : Type} (body : Method A) (handler : exn -> Method A) : Method A :=
  fun self =>
    match body self with
    | (Ok a, self') => (Ok a, self')
    | (Raise e, self') => handler e self'
    end.

Notation "x <- m ;; k" := (mbind m (fun x => k))
  (at level 61, m at next level, right associativity).

(** The texts and the ids that both methods collect before the [try]. *)
Definition collect_texts (processed_emails : list ProcessedEmail) : list string :=
  map _combine_text_features processed_emails.

Definition collect_ids (processed_emails : list ProcessedEmail) : list PyVal :=
  map gmail_id processed_emails.

(** The [try] block of [fit_transform]. *)
Definition fit_body (processed_emails : list ProcessedEmail) (texts : list string)
    : Method Matrix :=
  tfidf_dense <- (fun self =>
      let '(r, t) := tfidf_fit_transform (tfidf_vectorizer self) texts in
      (r, {| tfidf_vectorizer := t; scaler := scaler self;
             feature_names := feature_names self; is_fitted := is_fitted self |})) ;;
  names <- (fun self => (tfidf_feature_names (tfidf_vectorizer self), self)) ;;
  _ <- (fun self =>
      (Ok tt, {| tfidf_vectorizer := tfidf_vectorizer self; scaler := scaler self;
                 feature_names := names; is_fitted := is_fitted self |})) ;;
  let additional_features := _extract_additional_features processed_emails in
  combined_features <-
    (if (0 <? size additional_features)%nat
     then
       additional_features_scaled <- (fun self =>
           let '(r, sc) := scaler_fit_transform (scaler self) additional_features in
           (r, {| tfidf_vectorizer := tfidf_vectorizer self; scaler := sc;
                  feature_names := feature_names self; is_fitted := is_fitted self |})) ;;
       lift (hstack tfidf_dense additional_features_scaled)
     else ret tfidf_dense) ;;
  _ <- (fun self =>
      (Ok tt, {| tfidf_vectorizer := tfidf_vectorizer self; scaler := scaler self;
                 feature_names := feature_names self; is_fitted := true |})) ;;
  ret combined_features.

Definition fit_transform (processed_emails : list ProcessedEmail)
    : Method (Matrix * list PyVal) :=
  match processed_emails with
  | [] => ret (np_empty, [])
  | _ =>
      let texts := collect_texts processed_emails in
      let email_ids := collect_ids processed_emails in
      try_method
        (combined_features <- fit_body processed_emails texts ;;
         ret (combined_features, email_ids))
        (fun _ => ret (np_empty, email_ids))
  end.

(** The [try] block of [transform]. *)
Definition transform_body (processed_emails : list ProcessedEmail) (texts : list string)
    : Method Matrix :=
  tfidf_dense <- (fun self => (tfidf_transform (tfidf_vectorizer self) texts, self)) ;;
  let additional_features := _extract_additional_features processed_emails in
  if (0 <? size additional_features)%nat
  then
    additional_features_scaled <-
      (fun self => (scaler_transform (scaler self) additional_features, self)) ;;
    lift (hstack tfidf_dense additional_features_scaled)
  else ret tfidf_dense.

Definition not_fitted : exn := ValueError "Vectorizer must be fitted before transform".

Definition transform (processed_emails : list ProcessedEmail)
    : Method (Matrix * list PyVal) :=
  fun self =>
    if negb (is_fitted self) then raise not_fitted self
    else
      match processed_emails with
      | [] => ret (np_empty, []) self
      | _ =>
          let texts := collect_texts processed_emails in
          let email_ids := collect_ids processed_emails in
          try_method
            (combined_features <- transform_body processed_emails texts ;;
             ret (combined_features, email_ids))
            (fun _ => ret (np_empty, email_ids)) self
      end.

(** [get_feature_names] *)
Definition additional_names : list string :=
  ["subject_length"; "body_length"; "token_count"; "has_attachments";
   "is_newsletter"; "is_notification"; "is_promotional"; "sender_domain_category"].

Definition get_feature_names (self : EmailVectorizer) : list string :=
  (feature_names self ++ additional_names)%list.

(** [np.mean(a, axis=0)] and [np.argsort]: the indices that sort a vector
    in increasing order; how equal entries are ordered is left open. *)
Variable np_mean : Matrix -> Exc (list Q).
Variable np_argsort : list Q -> Exc (list nat).

(** [l[-n:]]: the last [n] items, and the whole list for [n = 0]. *)
Definition last_items {A : Type} (n : nat) (l : list A) : list A :=
  match n with
  | O => l
  | S _ => skipn (List.length l - n) l
  end.

(** [v[idx]] *)
Definition item (v : list Q) (idx : nat) : Exc Q :=
  match nth_error v idx with
  | Some x => Ok x
  | None => Raise IndexError
  end.

(** The loop of [get_top_features_for_cluster] over [top_indices]. *)
Fixpoint top_features_loop (all_feature_names : list string) (mean_features : list Q)
    (top_indices : list nat) : Exc (list string) :=
  match top_indices with
  | [] => Ok []
  | idx :: rest =>
      match nth_error all_feature_names idx with
      | Some feature_name =>
          bind (item mean_features idx) (fun feature_value =>
          bind (top_features_loop all_feature_names mean_features rest) (fun top_features =>
          Ok (if negb (Qle_bool feature_value 0.01)
              then feature_name :: top_features else top_features)))
      | None => top_features_loop all_feature_names mean_features rest
      end
  end.

Definition get_top_features_for_cluster (self : EmailVectorizer)
    (cluster_vectors : Matrix) (top_n : nat) : list string :=
  if negb (is_fitted self) || (size cluster_vectors =? 0)%nat then []
  else
    match
      bind (np_mean cluster_vectors) (fun mean_features =>
      bind (np_argsort mean_features) (fun sorted_indices =>
      let top_indices := rev (last_items top_n sorted_indices) in
      let all_feature_names := get_feature_names self in
      top_features_loop all_feature_names mean_features top_indices))
    with
    | Ok top_features => top_features
    | Raise _ => []
    end.

End WithSklearn.

End Vectorizer.

(* ================================================================== *)
(** * config.py *)

Module Config.

Definition MAX_EMAILS : nat := 200.
Definition DEFAULT_CLUSTERS : Z := 3.

End Config.

(* ================================================================== *)
(** * Sorting and counting *)

Section StableSort.

Context {A : Type}.
Variable key : A -> nat.

(** [l.sort(key=key, reverse=True)]: Python's sort is stable, also with
    [reverse=True], which fixes its result; it is computed here by
    insertion from the right. *)
Fixpoint insert_desc (x : A) (l : list A) : list A :=
  match l with
  | [] => [x]
  | y :: l' => if (key x <? key y)%nat then y :: insert_desc x l' else x :: l
  end.

Fixpoint sort_desc (l : list A) : list A :=
  match l with
  | [] => []
  | x :: l' => insert_desc x (sort_desc l')
  end.

End StableSort.

(** [collections.Counter(items)]: the distinct items in the order of their
    first occurrence, each with its number of occurrences. *)
Fixpoint counter_add (w : string) (c : list (string * nat)) : list (string * nat) :=
  match c with
  | [] => [(w, 1)]
  | (w', n) :: c' => if String.eqb w' w then (w', S n) :: c' else (w', n) :: counter_add w c'
  end.

Definition Counter (items : list string) : list (string * nat) :=
  fold_left (fun c w => counter_add w c) items [].

(** [counter.most_common(n)] *)
Definition most_common (n : nat) (c : list (string * nat)) : list (string * nat) :=
  firstn n (sort_desc snd c).

(** [a / b > threshold] on Python numbers, in exact arithmetic. *)
Definition ratio_gt (a b : nat) (threshold : Q) : Exc bool :=
  match b with
  | O => Raise ZeroDivisionError
  | S _ => Ok (negb (Qle_bool (Z.of_nat a # Pos.of_nat b) threshold))
  end.

(** The same test on IEEE 754 double precision numbers. *)
Definition float_of_nat (n : nat) : float :=
  PrimFloat.of_uint63 (Uint63.of_Z (Z.of_nat n)).

Definition float_ratio_gt (a b : nat) (threshold : float) : bool :=
  PrimFloat.ltb threshold (PrimFloat.div (float_of_nat a) (float_of_nat b)).

(* ================================================================== *)
(** * clusterer.py *)

Module Clusterer.

Record Cluster : Type := mkCluster {
  id : nat;
  label : string;
  description : string;
  email_count : nat;
  emails : list ProcessedEmail;
  email_ids : list PyVal
}.

(** The [vectorizer] argument: [None] when the object has no attribute
    [get_top_features_for_cluster], else that method. *)
Definition VectorizerHandle : Type := option (Matrix -> nat -> Exc (list string)).

Record EmailClusterer : Type := mkClusterer {
  n_clusters : option Z;
  cluster_labels : option (list nat);
  cluster_centers : option Matrix;
  silhouette_score : option Q;
  is_fitted : bool
}.

(** [__init__]: [n_clusters or Config.DEFAULT_CLUSTERS] *)
Definition init (n_clusters : option Z) : EmailClusterer :=
  {| n_clusters :=
       match n_clusters with
       | None => Some Config.DEFAULT_CLUSTERS
       | Some k => if (k =? 0)%Z then Some Config.DEFAULT_CLUSTERS else Some k
       end;
     cluster_labels := None;
     cluster_centers := None;
     silhouette_score := None;
     is_fitted := false |}.

Definition _determine_optimal_clusters (feature_vectors : Matrix) : Z :=
  let n_emails := Z.of_nat (shape0 feature_vectors) in
  if (n_emails <? 10)%Z then 2
  else if (n_emails <? 30)%Z then 3
  else if (n_emails <? 100)%Z then Z.min 4 (n_emails / 10)
  else Z.min 5 (n_emails / 20).

Definition _create_single_cluster (processed_emails : list ProcessedEmail)
    (email_ids : list PyVal) : list Cluster :=
  [ {| id := 1;
       label := "All Emails";
       description := "All your recent emails";
       email_count := List.length processed_emails;
       emails := processed_emails;
       email_ids := email_ids |} ].

(** ** Labels *)

Definition _domain_to_label (domain : string) : string :=
  let domain := lower domain in
  if any_in ["facebook"; "twitter"; "linkedin"; "instagram"] domain then "Social Media"
  else if any_in ["amazon"; "ebay"; "shopify"; "etsy"; "shop"] domain then "Shopping & E-commerce"
  else if any_in ["bank"; "paypal"; "stripe"; "finance"; "credit"] domain then "Financial Services"
  else if any_in ["news"; "times"; "post"; "reuters"; "cnn"; "bbc"] domain then "News & Media"
  else if any_in ["github"; "stackoverflow"; "google"; "microsoft"] domain then "Technology & Development"
  else if any_in ["slack"; "teams"; "zoom"; "office"; "business"] domain then "Work & Business"
  else
    let clean_domain := replace ".net" "" (replace ".org" "" (replace ".com" "" domain)) in
    title clean_domain ++ " Emails".

Definition feature_categories : list (string * string) :=
  [ ("work", "Work & Business");
    ("business", "Work & Business");
    ("meeting", "Work & Business");
    ("project", "Work & Business");
    ("team", "Work & Business");
    ("newsletter", "Newsletters");
    ("news", "News & Updates");
    ("update", "News & Updates");
    ("notification", "Notifications");
    ("alert", "Notifications");
    ("sale", "Shopping & Deals");
    ("deal", "Shopping & Deals");
    ("offer", "Shopping & Deals");
    ("discount", "Shopping & Deals");
    ("order", "Shopping & Orders");
    ("receipt", "Receipts & Invoices");
    ("invoice", "Receipts & Invoices");
    ("payment", "Financial");
    ("account", "Account Management");
    ("security", "Security & Privacy");
    ("social", "Social Media");
    ("event", "Events & Calendar") ].

(** The first entry of a table whose key satisfies [test]. *)
Fixpoint first_category (test : string -> bool) (table : list (string * string))
    : option string :=
  match table with
  | [] => None
  | (keyword, category) :: table' =>
      if test keyword then Some category else first_category test table'
  end.

Fixpoint _features_to_label_loop (features : list string) : option string :=
  match features with
  | [] => None
  | feature :: rest =>
      match first_category (fun keyword => str_in keyword (lower feature)) feature_categories with
      | Some category => Some category
      | None => _features_to_label_loop rest
      end
  end.

Definition _features_to_label (features : list string) : string :=
  match _features_to_label_loop features with
  | Some category => category
  | None =>
      match features with
      | f :: _ => title f ++ " Related"
      | [] => "Mixed Content"
      end
  end.

Definition word_categories : list (string * string) :=
  [ ("order", "Orders & Shopping");
    ("receipt", "Receipts");
    ("invoice", "Invoices");
    ("payment", "Payments");
    ("account", "Account Updates");
    ("security", "Security Alerts");
    ("newsletter", "Newsletters");
    ("update", "Updates");
    ("notification", "Notifications");
    ("meeting", "Meetings");
    ("event", "Events");
    ("reminder", "Reminders");
    ("confirmation", "Confirmations") ].

Fixpoint _words_to_label_loop (words : list string) : option string :=
  match words with
  | [] => None
  | word :: rest =>
      match first_category (String.eqb (lower word)) word_categories with
      | Some category => Some category
      | None => _words_to_label_loop rest
      end
  end.

Definition _words_to_label (words : list string) : string :=
  match _words_to_label_loop words with
  | Some category => category
  | None => join " & " (map title (firstn 2 words))
  end.

(** [\b[a-zA-Z]{3,}\b] *)
Definition word_pattern : regex := Seq WordB (Seq (AtLeast 3 (Chr is_alpha)) WordB).

Definition count_suffix (total_emails : nat) : string :=
  " (" ++ str_of_nat total_emails ++ " emails)".

Definition _generate_content_based_label (cluster_emails : list ProcessedEmail)
    (sender_domains subjects : list string) (vectorizer : VectorizerHandle)
    (cluster_vectors : Matrix) : Exc (string * string) :=
  let total_emails := List.length cluster_emails in
  let domain_counts := Counter sender_domains in
  let most_common_domains := most_common 3 domain_counts in
  let by_words :=
    let subject_words := flat_map (fun subject => re_findall word_pattern (lower subject)) subjects in
    let common_words :=
      map fst (filter (fun wc => (1 <? snd wc)%nat
                                 && negb (Preprocessor.mem (fst wc) ["the"; "and"; "for"; "you"; "your"]))
                      (most_common 3 (Counter subject_words))) in
    match common_words with
    | _ :: _ =>
        (_words_to_label common_words,
         "Emails containing " ++ join ", " (firstn 2 common_words) ++ count_suffix total_emails)
    | [] =>
        if (20 <? total_emails)%nat
        then ("Large Email Group", "Large group of related emails" ++ count_suffix total_emails)
        else if (10 <? total_emails)%nat
        then ("Medium Email Group", "Medium group of related emails" ++ count_suffix total_emails)
        else ("Small Email Group", "Small group of related emails" ++ count_suffix total_emails)
    end in
  let by_features :=
    match vectorizer with
    | Some get_top_features_for_cluster =>
        bind (get_top_features_for_cluster cluster_vectors 5) (fun top_features =>
        match top_features with
        | _ :: _ =>
            Ok (_features_to_label top_features,
                "Emails about " ++ join ", " (firstn 3 top_features) ++ count_suffix total_emails)
        | [] => Ok by_words
        end)
    | None => Ok by_words
    end in
  match most_common_domains with
  | (dominant_domain, n) :: _ =>
      bind (ratio_gt n total_emails 0.5) (fun dominated =>
      if dominated && negb (String.eqb dominant_domain "unknown")
      then Ok (_domain_to_label dominant_domain,
               "Emails from " ++ dominant_domain ++ " and related services" ++ count_suffix total_emails)
      else by_features)
  | [] => by_features
  end.

Definition count_flag (flag : ProcessedEmail -> bool) (cluster_emails : list ProcessedEmail) : nat :=
  List.length (filter flag cluster_emails).

Definition _generate_cluster_label_and_description (cluster_emails : list ProcessedEmail)
    (vectorizer : VectorizerHandle) (cluster_vectors : Matrix) : Exc (string * string) :=
  let subjects := map subject cluster_emails in
  let sender_domains := map sender_domain cluster_emails in
  let newsletter_count := count_flag is_newsletter cluster_emails in
  let notification_count := count_flag is_notification cluster_emails in
  let promotional_count := count_flag is_promotional cluster_emails in
  let total_emails := List.length cluster_emails in
  bind (ratio_gt newsletter_count total_emails 0.6) (fun newsletters =>
  if newsletters
  then Ok ("Newsletters & Subscriptions",
           "Newsletter and subscription emails" ++ count_suffix total_emails)
  else
  bind (ratio_gt notification_count total_emails 0.6) (fun notifications =>
  if notifications
  then Ok ("Notifications & Alerts",
           "System notifications and alerts" ++ count_suffix total_emails)
  else
  bind (ratio_gt promotional_count total_emails 0.6) (fun promotions =>
  if promotions
  then Ok ("Promotions & Marketing",
           "Promotional and marketing emails" ++ count_suffix total_emails)
  else _generate_content_based_label cluster_emails sender_domains subjects
         vectorizer cluster_vectors))).

(** ** Grouping *)

(** [[items[i] for i in range(len(items)) if mask[i]]]: indexing the
    mask past its end raises. *)
Fixpoint select {A : Type} (mask : list bool) (items : list A) {struct items}
    : Exc (list A) :=
  match items with
  | [] => Ok []
  | x :: items' =>
      match mask with
      | [] => Raise IndexError
      | b :: mask' =>
          bind (select mask' items') (fun rest => Ok (if b then x :: rest else rest))
      end
  end.

(** [feature_vectors[mask]]: the mask must be as long as the array. *)
Definition mask_rows (mask : list bool) (feature_vectors : Matrix) : Exc Matrix :=
  if (List.length mask =? shape0 feature_vectors)%nat
  then select mask feature_vectors
  else Raise IndexError.

(** One turn of the loop over [range(self.n_clusters)]: the cluster
    is appended unless it is empty. *)
Definition cluster_of_label (labels : list nat) (processed_emails : list ProcessedEmail)
    (email_ids : list PyVal) (vectorizer : VectorizerHandle) (feature_vectors : Matrix)
    (clusters : list Cluster) (cluster_id : nat) : Exc (list Cluster) :=
  let cluster_mask := map (fun l => (l =? cluster_id)%nat) labels in
  bind (select cluster_mask processed_emails) (fun cluster_emails =>
  bind (select cluster_mask email_ids) (fun cluster_email_ids =>
  bind (mask_rows cluster_mask feature_vectors) (fun cluster_vectors =>
  match cluster_emails with
  | [] => Ok clusters
  | _ :: _ =>
      bind (_generate_cluster_label_and_description cluster_emails vectorizer cluster_vectors)
        (fun '(label, description) =>
      Ok (clusters ++
          [ {| id := cluster_id + 1;
               label := label;
               description := description;
               email_count := List.length cluster_emails;
               emails := cluster_emails;
               email_ids := cluster_email_ids |} ])%list)
  end))).

Fixpoint cluster_loop (labels : list nat) (processed_emails : list ProcessedEmail)
    (email_ids : list PyVal) (vectorizer : VectorizerHandle) (feature_vectors : Matrix)
    (clusters : list Cluster) (cluster_ids : list nat) : Exc (list Cluster) :=
  match cluster_ids with
  | [] => Ok clusters
  | cluster_id :: rest =>
      bind (cluster_of_label labels processed_emails email_ids vectorizer
              feature_vectors clusters cluster_id) (fun clusters' =>
      cluster_loop labels processed_emails email_ids vectorizer feature_vectors
        clusters' rest)
  end.

(** [for i, cluster in enumerate(clusters): cluster['id'] = i + 1] *)
Fixpoint reassign_ids (i : nat) (clusters : list Cluster) : list Cluster :=
  match clusters with
  | [] => []
  | c :: rest =>
      {| id := i + 1; label := label c; description := description c;
         email_count := email_count c; emails := emails c;
         email_ids := email_ids c |} :: reassign_ids (S i) rest
  end.

(** [_generate_cluster_info], reading [self.n_clusters] and
    [self.cluster_labels]. *)
Definition _generate_cluster_info (self : EmailClusterer)
    (processed_emails : list ProcessedEmail) (email_ids : list PyVal)
    (vectorizer : VectorizerHandle) (feature_vectors : Matrix) : Exc (list Cluster) :=
  match n_clusters self, cluster_labels self with
  | Some k, Some labels =>
      bind (cluster_loop labels processed_emails email_ids vectorizer feature_vectors
              [] (seq 0 (Z.to_nat k))) (fun clusters =>
      let clusters := sort_desc email_count clusters in
      Ok (reassign_ids 0 clusters))
  | _, _ => Raise TypeError
  end.

Section WithSklearn.

(** [KMeans(n_clusters=k, random_state=42, n_init=10, max_iter=300)]:
    [fit_predict] with the labels and [cluster_centers_]. *)
Variable kmeans_fit_predict : Z -> Matrix -> Exc (list nat * Matrix).
(** [sklearn.metrics.silhouette_score] *)
Variable sklearn_silhouette_score : Matrix -> list nat -> Exc Q.

Definition cluster_emails (feature_vectors : Matrix) (email_ids : list PyVal)
    (processed_emails : list ProcessedEmail) (vectorizer : VectorizerHandle)
    (self : EmailClusterer) : list Cluster * EmailClusterer :=
  if (size feature_vectors =? 0)%nat || (List.length email_ids =? 0)%nat
  then ([], self)
  else
    let k := match n_clusters self with
             | None => _determine_optimal_clusters feature_vectors
             | Some k => k
             end in
    let n_emails := Z.of_nat (shape0 feature_vectors) in
    let k := Z.min k n_emails in
    let self := {| n_clusters := Some k; cluster_labels := cluster_labels self;
                   cluster_centers := cluster_centers self;
                   silhouette_score := silhouette_score self;
                   is_fitted := is_fitted self |} in
    if (k <? 2)%Z
    then (_create_single_cluster processed_emails email_ids, self)
    else
      match kmeans_fit_predict k feature_vectors with
      | Raise _ => (_create_single_cluster processed_emails email_ids, self)
      | Ok (labels, centers) =>
          let score :=
            if (1 <? n_emails)%Z
            then match sklearn_silhouette_score feature_vectors labels with
                 | Ok sc => sc
                 | Raise _ => 0%Q
                 end
            else 0%Q in
          let self := {| n_clusters := Some k; cluster_labels := Some labels;
                         cluster_centers := Some centers;
                         silhouette_score := Some score;
                         is_fitted := true |} in
          match _generate_cluster_info self processed_emails email_ids vectorizer
                  feature_vectors with
          | Ok clusters => (clusters, self)
          | Raise _ => (_create_single_cluster processed_emails email_ids, self)
          end
      end.

End WithSklearn.

(** ** Statistics *)

Record ClusterStats : Type := mkStats {
  stats_n_clusters : option Z;
  stats_silhouette_score : option Q;
  cluster_sizes : list nat
}.

(** [np.sum(self.cluster_labels == i)] *)
Definition label_count (labels : list nat) (i : nat) : nat :=
  List.length (filter (fun l => (l =? i)%nat) labels).

(** [get_cluster_stats]: [None] is the empty dict of a clusterer that is
    not fitted. *)
Definition get_cluster_stats (self : EmailClusterer) : Exc (option ClusterStats) :=
  if negb (is_fitted self) then Ok None
  else
    match n_clusters self, cluster_labels self with
    | Some k, Some labels =>
        Ok (Some {| stats_n_clusters := n_clusters self;
                    stats_silhouette_score := silhouette_score self;
                    cluster_sizes := map (label_count labels) (seq 0 (Z.to_nat k)) |})
    | _, _ => Raise TypeError
    end.

End Clusterer.

(* ================================================================== *)
(** * api/routes.py: the pipeline *)

Module Routes.

(** A row of the table of emails, as [get_emails] returns it. *)
Record DbEmail : Type := mkDbEmail {
  db_id : PyVal;
  db_gmail_id : PyVal
}.

(** [a == b] on field values; [True == 1] and [False == 0] hold. *)
Definition py_eq (a b : PyVal) : bool :=
  match a, b with
  | VNone, VNone => true
  | VStr x, VStr y => String.eqb x y
  | VInt x, VInt y => (x =? y)%Z
  | VBool x, VBool y => Bool.eqb x y
  | VBool x, VInt y | VInt y, VBool x => ((if x then 1 else 0) =? y)%Z
  | _, _ => false
  end.

Section WithCollaborators.

(** The libraries of the preprocessor; [nltk_download] is the download
    that [EmailPreprocessor()] starts. *)
Variable html_get_text : PyVal -> Exc string.
Variable word_tokenize : string -> Exc (list string).
Variable stem : string -> Exc string.
Variable nltk_stopwords : Exc (list string).
Variable nltk_download : Exc unit.

(** The libraries of the vectorizer, with the objects that
    [EmailVectorizer()] creates. *)
Variable Tfidf : Type.
Variable Scaler : Type.
Variable new_tfidf : Tfidf.
Variable new_scaler : Scaler.
Variable tfidf_fit_transform : Tfidf -> list string -> Exc Matrix * Tfidf.
Variable tfidf_feature_names : Tfidf -> Exc (list string).
Variable scaler_fit_transform : Scaler -> Matrix -> Exc Matrix * Scaler.
Variable np_mean : Matrix -> Exc (list Q).
Variable np_argsort : list Q -> Exc (list nat).

(** The libraries of the clusterer. *)
Variable kmeans_fit_predict : Z -> Matrix -> Exc (list nat * Matrix).
Variable sklearn_silhouette_score : Matrix -> list nat -> Exc Q.

(** The database behind [db_manager]: its state and the three methods
    that the pipeline calls; each may raise and may change the state. *)
Variable Db : Type.
Variable save_clusters : list (string * string * nat) -> Db -> Exc (list Z) * Db.
Variable get_emails : Db -> Exc (list DbEmail) * Db.
Variable save_email_cluster_assignments : list (PyVal * Z) -> Db -> Exc unit * Db.

Definition Stored (A : Type) : Type := Db -> Exc A * Db.

Definition stored_ret {A : Type} (a : A) : Stored A := fun db => (Ok a, db).

Definition stored_bind {A B : Type} (m : Stored A) (f : A -> Stored B) : Stored B :=
  fun db =>
    match m db with
    | (Ok a, db') => f a db'
    | (Raise e, db') => (Raise e, db')
    end.

Definition stored_lift {A : Type} (m : Exc A) : Stored A := fun db => (m, db).

(** [for db_email in db_emails: if db_email['gmail_id'] == ...: ...; break] *)
Fixpoint find_db_email (gid : PyVal) (db_emails : list DbEmail) : option DbEmail :=
  match db_emails with
  | [] => None
  | db_email :: rest =>
      if py_eq (db_gmail_id db_email) gid then Some db_email
      else find_db_email gid rest
  end.

(** [for email in cluster['emails']] *)
Fixpoint assign_emails (cluster_id : Z) (cluster_emails : list ProcessedEmail)
    (assignments : list (PyVal * Z)) : Stored (list (PyVal * Z)) :=
  match cluster_emails with
  | [] => stored_ret assignments
  | email :: rest =>
      stored_bind get_emails (fun db_emails =>
      assign_emails cluster_id rest
        match find_db_email (gmail_id email) db_emails with
        | Some db_email => (assignments ++ [(db_id db_email, cluster_id)])%list
        | None => assignments
        end)
  end.

(** [for i, cluster in enumerate(clusters)] *)
Fixpoint assign_clusters (cluster_ids : list Z) (i : nat)
    (clusters : list Clusterer.Cluster) (assignments : list (PyVal * Z))
    : Stored (list (PyVal * Z)) :=
  match clusters with
  | [] => stored_ret assignments
  | cluster :: rest =>
      match nth_error cluster_ids i with
      | None => stored_lift (Raise IndexError)
      | Some cluster_id =>
          stored_bind (assign_emails cluster_id (Clusterer.emails cluster) assignments)
            (fun assignments' => assign_clusters cluster_ids (S i) rest assignments')
      end
  end.

(** The part of [process_and_cluster_emails] under [if clusters:]. *)
Definition store_clusters (clusters : list Clusterer.Cluster) : Stored unit :=
  match clusters with
  | [] => stored_ret tt
  | _ :: _ =>
      let cluster_data :=
        map (fun c => (Clusterer.label c, Clusterer.description c,
                       Clusterer.email_count c)) clusters in
      stored_bind (save_clusters cluster_data) (fun cluster_ids =>
      stored_bind (assign_clusters cluster_ids 0 clusters []) (fun assignments =>
      match assignments with
      | [] => stored_ret tt
      | _ :: _ => save_email_cluster_assignments assignments
      end))
  end.

(** The [try] block of [process_and_cluster_emails]. *)
Definition pipeline (emails : list Dict) : Stored (list Clusterer.Cluster) :=
  stored_bind (stored_lift nltk_download) (fun _ =>
  stored_bind (stored_lift
    (Preprocessor.preprocess_emails html_get_text word_tokenize stem nltk_stopwords
       emails)) (fun processed_emails =>
  match processed_emails with
  | [] => stored_ret []
  | _ :: _ =>
      let '(vectorized, vectorizer) :=
        Vectorizer.fit_transform Tfidf Scaler tfidf_fit_transform tfidf_feature_names
          scaler_fit_transform processed_emails
          (Vectorizer.init Tfidf Scaler new_tfidf new_scaler) in
      stored_bind (stored_lift vectorized) (fun '(feature_vectors, email_ids) =>
      if (size feature_vectors =? 0)%nat then stored_ret []
      else
        let handle : Clusterer.VectorizerHandle :=
          Some (fun cluster_vectors top_n =>
                  Ok (Vectorizer.get_top_features_for_cluster Tfidf Scaler
                        np_mean np_argsort vectorizer cluster_vectors top_n)) in
        let clusters :=
          fst (Clusterer.cluster_emails kmeans_fit_predict sklearn_silhouette_score
                 feature_vectors email_ids processed_emails handle
                 (Clusterer.init None)) in
        stored_bind (store_clusters clusters) (fun _ => stored_ret clusters))
  end)).

Definition process_and_cluster_emails (emails : list Dict) (db : Db)
    : list Clusterer.Cluster * Db :=
  match pipeline emails db with
  | (Ok clusters, db') => (clusters, db')
  | (Raise _, db') => ([], db')
  end.

End WithCollaborators.

End Routes.

(* ================================================================== *)
(** * Inputs used to run the pipeline *)

Module Demo.

Import Preprocessor.

(** BeautifulSoup leaves a string without markup as it is, and rejects
    what is not text. *)
Definition html_get_text (text : PyVal) : Exc string :=
  match text with
  | VStr s => Ok s
  | _ => Raise TypeError
  end.

Definition word_tokenize (text : string) : Exc (list string) := Ok (split text).

Definition stem (token : string) : Exc string := Ok token.

Definition nltk_stopwords : Exc (list string) :=
  Raise (LibraryError "Resource stopwords not found").

Definition offer_body : string := "50% off unsubscribe security alert".

Definition offer_email : Dict :=
  [ ("gmail_id", VStr "m1");
    ("sender", VStr "Jane <jane@example.com>");
    ("subject", VStr "Hello");
    ("body", VStr offer_body) ].

(** Here "unsubscribe" stands in a link only. *)
Definition link_body : string :=
  "50% off, security alert: http://example.com/unsubscribe".

Definition link_email : Dict :=
  [ ("gmail_id", VStr "m4");
    ("sender", VStr "Jane <jane@example.com>");
    ("subject", VStr "Hello");
    ("body", VStr link_body) ].

Definition sale_email : Dict :=
  [ ("gmail_id", VStr "m5");
    ("sender", VStr "Jane <jane@example.com>");
    ("subject", VStr "Hello");
    ("body", VStr "Big SALE! Security alert: unsubscribe at any time.") ].

Definition numeric_email : Dict :=
  [ ("gmail_id", VStr "m2"); ("subject", VInt 5); ("body", VStr "text") ].

Definition plain_email : Dict :=
  [ ("gmail_id", VStr "m3"); ("subject", VStr "Lunch"); ("body", VStr "see you at noon") ].

Definition processed (gid domain subj : string) (newsletter : bool) : ProcessedEmail :=
  {| pe_id := VNone; gmail_id := VStr gid; subject := subj; body := "";
     sender := VStr ""; sender_domain := domain; combined_text := subj;
     tokens := []; token_count := 0; subject_length := 1; body_length := 0;
     has_attachments := false; is_newsletter := newsletter;
     is_notification := false; is_promotional := false |}.

Definition one_email : list ProcessedEmail := [processed "m1" "example.com" "hello" false].

Definition five_emails : list ProcessedEmail :=
  [ processed "m1" "amazon.com" "digest" true;
    processed "m2" "bank.com" "invoice" false;
    processed "m3" "amazon.com" "weekly" true;
    processed "m4" "amazon.com" "order" false;
    processed "m5" "bank.com" "invoice" false ].

(** One row of features for each of [n] emails. *)
Definition rows (n : nat) : Matrix := repeat [1%Q; 0%Q] n.

(** A clustering that puts the emails in turn into cluster 1, 0, 1, 0, ... *)
Fixpoint alternate (n : nat) : list nat :=
  match n with
  | O => []
  | S n' => (S n' mod 2)%nat :: alternate n'
  end.

Definition kmeans_fit_predict (k : Z) (m : Matrix) : Exc (list nat * Matrix) :=
  if (2 <=? k)%Z then Ok (alternate (List.length m), [])
  else Raise (ValueError "n_clusters must be at least 2").

Definition failing_kmeans (k : Z) (m : Matrix) : Exc (list nat * Matrix) :=
  Raise (ValueError "Input contains NaN").

Definition silhouette_score (m : Matrix) (labels : list nat) : Exc Q := Ok 0%Q.

(** Library objects of a vectorizer whose [transform] fails. *)
Definition tfidf_fit_transform (t : unit) (texts : list string) : Exc Matrix * unit :=
  (Raise (ValueError "max_df corresponds to < documents than min_df"), t).

Definition tfidf_feature_names (t : unit) : Exc (list string) := Ok [].

Definition tfidf_transform (t : unit) (texts : list string) : Exc Matrix :=
  Raise (LibraryError "vocabulary not fitted").

Definition scaler_fit_transform (s : unit) (m : Matrix) : Exc Matrix * unit := (Ok m, s).

Definition scaler_transform (s : unit) (m : Matrix) : Exc Matrix := Ok m.

(** A vectorizer after a [fit_transform] that failed, and a fitted one. *)
Definition failed_fit : Vectorizer.EmailVectorizer unit unit :=
  snd (Vectorizer.fit_transform unit unit tfidf_fit_transform
         tfidf_feature_names scaler_fit_transform five_emails
         (Vectorizer.init unit unit tt tt)).

Definition fitted : Vectorizer.EmailVectorizer unit unit :=
  Vectorizer.mkVectorizer unit unit tt tt ["invoice"; "order"] true.

(** The preprocessor with the libraries above. *)
Definition extract_features : Dict -> Exc ProcessedEmail :=
  Preprocessor.extract_features html_get_text word_tokenize stem nltk_stopwords.

Definition preprocess_emails : list Dict -> Exc (list ProcessedEmail) :=
  Preprocessor.preprocess_emails html_get_text word_tokenize stem nltk_stopwords.

End Demo.

(* ================================================================== *)
(** * Vocabulary of the properties *)

Section Order.

Context {A : Type}.
Variable key : A -> nat.

(** [desc a b]: [a] may stand before [b] in a list sorted by decreasing key. *)
Definition desc (a b : A) : Prop := key b <= key a.

Definition has_key (n : nat) (a : A) : bool := (key a =? n)%nat.

End Order.

(** The items whose label is [c]. *)
Fixpoint pick {A : Type} (c : nat) (labels : list nat) (items : list A) {struct items}
    : list A :=
  match items with
  | [] => []
  | x :: items' =>
      match labels with
      | [] => []
      | l :: labels' =>
          if (l =? c)%nat then x :: pick c labels' items' else pick c labels' items'
      end
  end.

(** What a cluster holds besides its rank. *)
Definition content (c : Clusterer.Cluster) :=
  (Clusterer.label c, Clusterer.description c, Clusterer.email_count c,
   Clusterer.emails c, Clusterer.email_ids c).

(** Every email is in the [emails] of one cluster, once. *)
Definition partitions (clusters : list Clusterer.Cluster)
    (processed_emails : list ProcessedEmail) : Prop :=
  Permutation (List.concat (map Clusterer.emails clusters)) processed_emails.

(** The contract of [KMeans.fit_predict]: a label is below the number of
    clusters asked for. *)
Definition labels_in_range (kmeans : Z -> Matrix -> Exc (list nat * Matrix)) : Prop :=
  forall k m labels centers,
    kmeans k m = Ok (labels, centers) ->
    Forall (fun l => (Z.of_nat l < k)%Z) labels.

(** The clusters that [cluster_emails] returns. *)
Definition clusters_returned (kmeans : Z -> Matrix -> Exc (list nat * Matrix))
    (silhouette : Matrix -> list nat -> Exc Q) (feature_vectors : Matrix)
    (email_ids : list PyVal) (processed_emails : list ProcessedEmail)
    (vectorizer : Clusterer.VectorizerHandle) (self : Clusterer.EmailClusterer)
    : list Clusterer.Cluster :=
  fst (Clusterer.cluster_emails kmeans silhouette feature_vectors email_ids
         processed_emails vectorizer self).

(** The list is sorted by decreasing [email_count] and numbered from 1. *)
Definition ranked (result : list Clusterer.Cluster) : Prop :=
  StronglySorted (desc Clusterer.email_count) result /\
  map Clusterer.id result = seq 1 (List.length result).

(** The clusters of one size come in [result] in the order of [groups]. *)
Definition keeps_ties (groups result : list Clusterer.Cluster) : Prop :=
  forall n,
    map content (filter (has_key Clusterer.email_count n) result) =
    map content (filter (has_key Clusterer.email_count n) groups).

Definition nonempty {A : Type} (l : list A) : bool :=
  match l with
  | [] => false
  | _ :: _ => true
  end.

(** The description ends with the number of emails, as [" (n emails)"]. *)
Definition ends_with_count (n : nat) (d : string) : Prop :=
  exists pre, d = pre ++ Clusterer.count_suffix n.

(** More than 60% of the emails carry the flag. *)
Definition mostly (flag : ProcessedEmail -> bool) (cluster_emails : list ProcessedEmail) : Prop :=
  3 * List.length cluster_emails < 5 * Clusterer.count_flag flag cluster_emails.

(** The features of the emails whose extraction returns, in order. *)
Definition extracted (extract : Dict -> Exc ProcessedEmail) (emails : list Dict)
    : list ProcessedEmail :=
  flat_map (fun email => match extract email with
                         | Ok features => [features]
                         | Raise _ => []
                         end) emails.

(** A field value that is text, or that [clean_text] takes for empty. *)
Definition text_valued (v : PyVal) : Prop :=
  match v with
  | VStr _ => True
  | _ => truthy v = false
  end.

Definition text_fields (email : Dict) : Prop :=
  text_valued (dict_get email "subject" (VStr "")) /\
  text_valued (dict_get email "body" (VStr "")).

(** A field value that is not text, not empty, and that the HTML parser
    refuses. *)
Definition rejected (html_get_text : PyVal -> Exc string) (v : PyVal) : Prop :=
  ~ text_valued v /\ exists e, html_get_text v = Raise e.

(** Every character of the text satisfies [p]. *)
Fixpoint chars_all (p : ascii -> bool) (s : string) : bool :=
  match s with
  | EmptyString => true
  | String c s' => p c && chars_all p s'
  end.

Definition not_space (c : ascii) : bool := negb (is_space c).

(** A word: a text that is not empty and holds no white space. *)
Definition is_a_word (w : string) : Prop := w <> "" /\ chars_all not_space w = true.

(** The characters of cleaned text: small letters, digits, underscore,
    hyphen, full stop and the space. *)
Definition cleaned_char (c : ascii) : bool :=
  is_lower c || is_digit c || one_of "_-. " c.

Definition ascii_only (s : string) : bool := chars_all (fun c => (code c <? 128)%nat) s.

(** The characters that the punctuation step of [clean_text] leaves or
    writes, when it reads text without capital letters. *)
Definition kept_char (c : ascii) : bool :=
  is_char " " c ||
  (negb (is_upper c) && (is_word c || is_space c || one_of "-." c)).

(** The same characters, where white space is the single space. *)
Definition spaced_char (c : ascii) : bool :=
  is_char " " c || (kept_char c && not_space c).

Definition not_at (c : ascii) : bool := negb (is_char "@" c).

(** The characters of a sender domain: no capital letter and no [@]. *)
Definition domain_char (c : ascii) : bool := negb (is_upper c) && not_at c.

(** A database that counts its writes and holds three emails, and a
    TF-IDF object that gives every text one feature. *)
Definition demo_save_clusters (data : list (string * string * nat)) (db : nat)
    : Exc (list Z) * nat :=
  (Ok (map Z.of_nat (seq 1 (List.length data))), S db).

Definition demo_get_emails (db : nat) : Exc (list Routes.DbEmail) * nat :=
  (Ok [ Routes.mkDbEmail (VInt 11) (VStr "m1");
        Routes.mkDbEmail (VInt 13) (VStr "m3");
        Routes.mkDbEmail (VInt 15) (VStr "m5") ], db).

Definition demo_save_assignments (assignments : list (PyVal * Z)) (db : nat)
    : Exc unit * nat :=
  (Ok tt, S db).

Definition demo_tfidf_fit (t : unit) (texts : list string) : Exc Matrix * unit :=
  (Ok (map (fun _ => [1%Q]) texts), t).

Definition demo_np_mean (m : Matrix) : Exc (list Q) := Ok (hd [] m).

Definition demo_np_argsort (v : list Q) : Exc (list nat) := Ok (seq 0 (List.length v)).

Definition demo_batch : list Dict := [Demo.offer_email; Demo.plain_email; Demo.sale_email].

(** The pipeline on the three emails, with a TF-IDF step that works and
    with one that fails. *)
Definition demo_pipeline (emails : list Dict) (db : nat) : list Clusterer.Cluster * nat :=
  Routes.process_and_cluster_emails Demo.html_get_text Demo.word_tokenize Demo.stem
    Demo.nltk_stopwords (Ok tt) unit unit tt tt demo_tfidf_fit Demo.tfidf_feature_names
    Demo.scaler_fit_transform demo_np_mean demo_np_argsort Demo.kmeans_fit_predict
    Demo.silhouette_score nat demo_save_clusters demo_get_emails demo_save_assignments
    emails db.

Definition demo_failing_pipeline (emails : list Dict) (db : nat)
    : list Clusterer.Cluster * nat :=
  Routes.process_and_cluster_emails Demo.html_get_text Demo.word_tokenize Demo.stem
    Demo.nltk_stopwords (Ok tt) unit unit tt tt Demo.tfidf_fit_transform
    Demo.tfidf_feature_names Demo.scaler_fit_transform demo_np_mean demo_np_argsort
    Demo.kmeans_fit_predict Demo.silhouette_score nat demo_save_clusters demo_get_emails
    demo_save_assignments emails db.

(** The count that a counter holds for an item; 0 when it holds none. *)
Fixpoint counted (w : string) (c : list (string * nat)) : nat :=
  match c with
  | [] => 0
  | (w', n) :: c' => if String.eqb w' w then n else counted w c'
  end.

(** The number of occurrences of [w] in [l]. *)
Definition occurrences (w : string) (l : list string) : nat :=
  List.length (filter (String.eqb w) l).

(** More than half of the emails come from the domain. *)
Definition dominates (domain : string) (cluster_emails : list ProcessedEmail) : Prop :=
  List.length cluster_emails < 2 * occurrences domain (map sender_domain cluster_emails).

(** The assignment of a clustered email: the id of the first row of the
    table of emails that has its gmail_id, with the id of its cluster;
    none when no row has it. *)
Definition assignment_of (rows : list Routes.DbEmail) (cluster_id : Z)
    (email : ProcessedEmail) : list (PyVal * Z) :=
  match Routes.find_db_email (gmail_id email) rows with
  | Some row => [(Routes.db_id row, cluster_id)]
  | None => []
  end.

(** The assignments of the clusters, each paired with the stored id at
    its position. *)
Definition assignments_of (rows : list Routes.DbEmail) (cluster_ids : list Z)
    (clusters : list Clusterer.Cluster) : list (PyVal * Z) :=
  flat_map (fun p => flat_map (assignment_of rows (fst p)) (Clusterer.emails (snd p)))
           (combine cluster_ids clusters).

(** The features of the email of [Demo] that announces a sale. *)
Definition sale_features : ProcessedEmail :=
  match Demo.extract_features Demo.sale_email with
  | Ok f => f
  | Raise _ => Demo.processed "" "" "" false
  end.

(** Clusters of notifications and of promotions. *)
Definition flagged (notification promotional : bool) : ProcessedEmail :=
  {| pe_id := VNone; gmail_id := VStr "m"; subject := "status"; body := "";
     sender := VStr ""; sender_domain := "example.com"; combined_text := "status";
     tokens := []; token_count := 0; subject_length := 1; body_length := 0;
     has_attachments := false; is_newsletter := false;
     is_notification := notification; is_promotional := promotional |}.

Definition notification_emails : list ProcessedEmail :=
  [flagged true false; flagged true true; flagged true false].

Definition promotional_emails : list ProcessedEmail :=
  [flagged false true; flagged true true; flagged false true].

(** The largest cluster of the five emails of [Demo]. *)
Definition newsletter_cluster : Clusterer.Cluster :=
  nth 0 (clusters_returned Demo.kmeans_fit_predict Demo.silhouette_score (Demo.rows 5)
           (map gmail_id Demo.five_emails) Demo.five_emails None (Clusterer.init None))
      (Clusterer.mkCluster 0 "" "" 0 [] []).

(** [a / b > threshold] in exact arithmetic agrees with the test on
    floats for all counts up to [n]. *)
Definition exact_ratio_gt (a b : nat) (threshold : Q) : bool :=
  match ratio_gt a b threshold with
  | Ok r => r
  | Raise _ => false
  end.

Definition ratios_agree (n : nat) (exact : Q) (float : float) : bool :=
  forallb (fun b =>
    forallb (fun a => Bool.eqb (float_ratio_gt a b float) (exact_ratio_gt a b exact))
            (seq 0 (S b)))
    (seq 1 n).

Section VectorizerVocabulary.

Import Vectorizer.

Context {Tfidf Scaler : Type}.
Variable tfidf_fit_transform : Tfidf -> list string -> Exc Matrix * Tfidf.
Variable tfidf_feature_names : Tfidf -> Exc (list string).
Variable tfidf_transform : Tfidf -> list string -> Exc Matrix.
Variable scaler_fit_transform : Scaler -> Matrix -> Exc Matrix * Scaler.
Variable scaler_transform : Scaler -> Matrix -> Exc Matrix.

(** [fit_transform] reached the end of its [try] block. *)
Definition fit_succeeds (processed_emails : list ProcessedEmail)
    (self : EmailVectorizer Tfidf Scaler) : Prop :=
  processed_emails <> [] /\
  exists m,
    fst (fit_body Tfidf Scaler tfidf_fit_transform tfidf_feature_names
           scaler_fit_transform processed_emails (collect_texts processed_emails) self)
    = Ok m.

(** The vectorizers on which no [fit_transform] has succeeded yet. *)
Inductive never_fitted : EmailVectorizer Tfidf Scaler -> Prop :=
| never_fitted_init (tfidf : Tfidf) (sc : Scaler) :
    never_fitted (init Tfidf Scaler tfidf sc)
| never_fitted_fit (self : EmailVectorizer Tfidf Scaler) (processed_emails : list ProcessedEmail) :
    never_fitted self ->
    ~ fit_succeeds processed_emails self ->
    never_fitted
      (snd (fit_transform Tfidf Scaler tfidf_fit_transform tfidf_feature_names
              scaler_fit_transform processed_emails self))
| never_fitted_transform (self : EmailVectorizer Tfidf Scaler)
    (processed_emails : list ProcessedEmail) :
    never_fitted self ->
    never_fitted
      (snd (transform Tfidf Scaler tfidf_transform scaler_transform
              processed_emails self)).

End VectorizerVocabulary.

(* ================================================================== *)
(** * Facts about the text primitives *)

Lemma startswith_app (a post : string) : startswith (a ++ post) a = true.
Proof.
  induction a as [|c a IH]; simpl.
  - reflexivity.
  - now rewrite Ascii.eqb_refl.
Qed.

Lemma startswith_split (a s : string) :
  startswith s a = true -> exists post, s = a ++ post.
Proof.
  revert s; induction a as [|c a IH]; intros s H.
  - now exists s.
  - destruct s as [|d s]; simpl in H; [discriminate|].
    apply andb_prop in H. destruct H as [E H].
    apply Ascii.eqb_eq in E; subst d.
    destruct (IH _ H) as [post ->].
    now exists post.
Qed.

Lemma str_in_head (sub s : string) : startswith s sub = true -> str_in sub s = true.
Proof. intros H. destruct s; simpl; now rewrite H. Qed.

(** [sub in s] holds as soon as [s] is some text, [sub], some text. *)
Lemma str_in_app (sub pre post : string) : str_in sub (pre ++ sub ++ post) = true.
Proof.
  induction pre as [|c pre IH]; simpl.
  - rewrite str_in_head; [reflexivity | apply startswith_app].
  - rewrite IH. now destruct (startswith _ sub).
Qed.

Lemma str_in_split (sub s : string) :
  str_in sub s = true -> exists pre post, s = pre ++ sub ++ post.
Proof.
  induction s as [|c s IH]; simpl; intros H.
  - destruct (startswith "" sub) eqn:E; [|discriminate].
    destruct (startswith_split _ _ E) as [post' ->]. now exists "", post'.
  - destruct (startswith (String c s) sub) eqn:E.
    + destruct (startswith_split _ _ E) as [post' ->]. now exists "", post'.
    + destruct (IH H) as (pre & post & ->). now exists (String c pre), post.
Qed.

Lemma append_assoc (a b c : string) : (a ++ b) ++ c = a ++ b ++ c.
Proof. induction a; simpl; congruence. Qed.

(** A text that contains [a ++ b] contains [b]. *)
Lemma str_in_part (a b s : string) : str_in (a ++ b) s = true -> str_in b s = true.
Proof.
  intros H. destruct (str_in_split _ _ H) as (pre & post & ->).
  rewrite (append_assoc a b post), <- (append_assoc pre a). apply str_in_app.
Qed.

Lemma lower_app (a b : string) : lower (a ++ b) = lower a ++ lower b.
Proof. induction a; simpl; congruence. Qed.

(** A keyword found in a text is found, lowered, in the lowered text that
    follows any other text. *)
Lemma str_in_lower_after (k pre s : string) :
  str_in k s = true -> str_in (lower k) (lower (pre ++ s)) = true.
Proof.
  intros H. destruct (str_in_split _ _ H) as (a & b & ->).
  rewrite !lower_app, <- append_assoc. apply str_in_app.
Qed.

Lemma any_in_intro (keys : list string) (k s : string) :
  In k keys -> str_in k s = true -> any_in keys s = true.
Proof.
  intros Hin Hk. apply existsb_exists. now exists k.
Qed.

(* ================================================================== *)
(** * Facts about the stable sort *)

Section SortFacts.

Context {A : Type}.
Variable key : A -> nat.


Lemma insert_desc_perm (x : A) (l : list A) : Permutation (insert_desc key x l) (x :: l).
Proof.
  induction l as [|y l IH]; simpl; [reflexivity|].
  destruct (key x <? key y)%nat; [|reflexivity].
  rewrite IH. apply perm_swap.
Qed.

Lemma sort_desc_perm (l : list A) : Permutation (sort_desc key l) l.
Proof.
  induction l as [|x l IH]; simpl; [reflexivity|].
  rewrite insert_desc_perm. now apply perm_skip.
Qed.

Lemma insert_desc_sorted (x : A) (l : list A) :
  StronglySorted (desc key) l -> StronglySorted (desc key) (insert_desc key x l).
Proof.
  induction 1 as [|y l Hl IH Hy]; simpl.
  - repeat constructor.
  - destruct (key x <? key y)%nat eqn:E.
    + apply Nat.ltb_lt in E. constructor; [exact IH|].
      eapply Permutation_Forall.
      * symmetry. apply insert_desc_perm.
      * constructor; [unfold desc; lia | exact Hy].
    + apply Nat.ltb_ge in E. constructor.
      * now constructor.
      * constructor; [exact E|].
        eapply Forall_impl; [|exact Hy]. unfold desc. intros z Hz. lia.
Qed.

Lemma sort_desc_sorted (l : list A) : StronglySorted (desc key) (sort_desc key l).
Proof.
  induction l as [|x l IH]; simpl; [constructor|].
  now apply insert_desc_sorted.
Qed.

(** Insertion passes only elements of a larger key, so that the elements
    of one key keep their order. *)
Lemma insert_desc_filter (n : nat) (x : A) (l : list A) :
  filter (has_key key n) (insert_desc key x l) = filter (has_key key n) (x :: l).
Proof.
  induction l as [|y l IH]; [reflexivity|].
  simpl insert_desc. destruct (key x <? key y)%nat eqn:E; [|reflexivity].
  apply Nat.ltb_lt in E.
  change (filter (has_key key n) (y :: insert_desc key x l))
    with (if has_key key n y then y :: filter (has_key key n) (insert_desc key x l)
          else filter (has_key key n) (insert_desc key x l)).
  rewrite IH. simpl. unfold has_key.
  destruct (key x =? n)%nat eqn:Ex, (key y =? n)%nat eqn:Ey; try reflexivity.
  apply Nat.eqb_eq in Ex, Ey. lia.
Qed.

Lemma sort_desc_stable (n : nat) (l : list A) :
  filter (has_key key n) (sort_desc key l) = filter (has_key key n) l.
Proof.
  induction l as [|x l IH]; [reflexivity|].
  simpl sort_desc. rewrite insert_desc_filter. simpl. now rewrite IH.
Qed.

End SortFacts.

(* ================================================================== *)
(** * Facts about the clusterer *)

Section ClustererFacts.

Import Clusterer.

Lemma select_pick {A : Type} (c : nat) (labels : list nat) (items r : list A) :
  select (map (fun l => (l =? c)%nat) labels) items = Ok r ->
  r = pick c labels items /\ List.length items <= List.length labels.
Proof.
  revert labels r. induction items as [|x items IH]; intros labels r H.
  - simpl in H. injection H as <-. split; [reflexivity | simpl; lia].
  - destruct labels as [|l labels]; simpl in H; [discriminate|].
    destruct (select _ items) as [rest|] eqn:E; simpl in H; [|discriminate].
    injection H as <-. destruct (IH _ _ E) as [-> Hlen].
    split; [simpl; now destruct (l =? c)%nat | simpl; lia].
Qed.

(** What one turn of the loop adds. *)
Lemma cluster_of_label_inv labels pes ids v fv acc c acc' :
  cluster_of_label labels pes ids v fv acc c = Ok acc' ->
  List.length pes <= List.length labels /\
  ((pick c labels pes = [] /\ acc' = acc) \/
   (exists lbl dsc rids vecs,
      pick c labels pes <> [] /\
      _generate_cluster_label_and_description (pick c labels pes) v vecs = Ok (lbl, dsc) /\
      acc' = (acc ++ [mkCluster (c + 1) lbl dsc (List.length (pick c labels pes))
                        (pick c labels pes) rids])%list)).
Proof.
  unfold cluster_of_label. intros H.
  destruct (select _ pes) as [r|] eqn:Er; simpl in H; [|discriminate].
  destruct (select_pick _ _ _ _ Er) as [-> Hlen]. split; [exact Hlen|].
  destruct (select _ ids) as [rids|]; simpl in H; [|discriminate].
  destruct (mask_rows _ fv) as [vecs|]; simpl in H; [|discriminate].
  destruct (pick c labels pes) as [|e es] eqn:Ep.
  - left. injection H as <-. now split.
  - right.
    destruct (_generate_cluster_label_and_description (e :: es) v vecs)
      as [[lbl dsc]|] eqn:Eg; simpl in H; [|discriminate].
    injection H as <-. exists lbl, dsc, rids, vecs. repeat split; [discriminate | exact Eg].
Qed.

(** A property of every cluster that a turn can add holds of all clusters. *)
Lemma cluster_loop_Forall (P : Cluster -> Prop) labels pes ids v fv :
  (forall c lbl dsc rids vecs,
      pick c labels pes <> [] ->
      _generate_cluster_label_and_description (pick c labels pes) v vecs = Ok (lbl, dsc) ->
      P (mkCluster (c + 1) lbl dsc (List.length (pick c labels pes)) (pick c labels pes) rids)) ->
  forall cids acc res,
    Forall P acc ->
    cluster_loop labels pes ids v fv acc cids = Ok res ->
    Forall P res.
Proof.
  intros HP. induction cids as [|c cids IH]; intros acc res Hacc H; simpl in H.
  - now injection H as <-.
  - destruct (cluster_of_label labels pes ids v fv acc c) as [acc'|] eqn:E;
      simpl in H; [|discriminate].
    apply (IH acc' res); [|exact H].
    destruct (cluster_of_label_inv _ _ _ _ _ _ _ _ E) as [_ [[_ ->]|Hadd]]; [exact Hacc|].
    destruct Hadd as (lbl & dsc & rids & vecs & Hne & Hg & ->).
    apply Forall_app. split; [exact Hacc|]. constructor; [|constructor].
    now apply (HP c lbl dsc rids vecs).
Qed.

Lemma sorted_snoc (l : list nat) (x : nat) :
  StronglySorted lt l -> Forall (fun i => i < x) l -> StronglySorted lt (l ++ [x]).
Proof.
  induction 1 as [|y l Hl IH Hy]; intros Hx; simpl.
  - repeat constructor.
  - inversion Hx as [|? ? Hyx Hlx]; subst. constructor; [now apply IH|].
    apply Forall_app. split; [exact Hy | now constructor].
Qed.

(** The clusters are built in the order of their k-means label. *)
Lemma cluster_loop_ids labels pes ids v fv :
  forall n a acc res,
    StronglySorted lt (map id acc) ->
    Forall (fun i => i <= a) (map id acc) ->
    cluster_loop labels pes ids v fv acc (seq a n) = Ok res ->
    StronglySorted lt (map id res).
Proof.
  induction n as [|n IH]; intros a acc res Hs Hb H; simpl in H.
  - now injection H as <-.
  - destruct (cluster_of_label labels pes ids v fv acc a) as [acc'|] eqn:E;
      simpl in H; [|discriminate].
    destruct (cluster_of_label_inv _ _ _ _ _ _ _ _ E) as [_ [[_ ->]|Hadd]].
    + apply (IH (S a) acc res); [exact Hs | | exact H].
      eapply Forall_impl; [|exact Hb]. simpl. intros; lia.
    + destruct Hadd as (lbl & dsc & rids & vecs & _ & _ & ->).
      eapply (IH (S a)); [ | | exact H]; rewrite map_app; simpl.
      * apply sorted_snoc; [exact Hs|].
        eapply Forall_impl; [|exact Hb]. simpl. intros; lia.
      * apply Forall_app. split.
        -- eapply Forall_impl; [|exact Hb]. simpl. intros; lia.
        -- constructor; [lia | constructor].
Qed.

(** The emails of the clusters are the groups of the labels, in order. *)
Lemma cluster_loop_emails labels pes ids v fv :
  forall cids acc res,
    cluster_loop labels pes ids v fv acc cids = Ok res ->
    map emails res =
    (map emails acc ++ filter nonempty (map (fun c => pick c labels pes) cids))%list
    /\ (cids <> [] -> List.length pes <= List.length labels).
Proof.
  induction cids as [|c cids IH]; intros acc res H; simpl in H.
  - injection H as <-. split; [now rewrite app_nil_r | congruence].
  - destruct (cluster_of_label labels pes ids v fv acc c) as [acc'|] eqn:E;
      simpl in H; [|discriminate].
    destruct (IH _ _ H) as [-> _].
    destruct (cluster_of_label_inv _ _ _ _ _ _ _ _ E) as [Hlen [[Hp ->]|Hadd]].
    + split; [|intros _; exact Hlen]. simpl. now rewrite Hp.
    + destruct Hadd as (lbl & dsc & rids & vecs & Hne & _ & ->).
      split; [|intros _; exact Hlen].
      rewrite map_app, <- app_assoc. simpl.
      destruct (pick c labels pes); [congruence | reflexivity].
Qed.

Lemma reassign_ids_ids (i : nat) (l : list Cluster) :
  map id (reassign_ids i l) = seq (i + 1) (List.length l).
Proof.
  revert i. induction l as [|c l IH]; intros i; simpl; [reflexivity|].
  f_equal. rewrite IH. f_equal.
Qed.

Lemma reassign_ids_content (i : nat) (l : list Cluster) :
  map content (reassign_ids i l) = map content l.
Proof.
  revert i. induction l as [|c l IH]; intros i; simpl; [reflexivity|].
  now rewrite IH.
Qed.

Lemma reassign_ids_emails (i : nat) (l : list Cluster) :
  map emails (reassign_ids i l) = map emails l.
Proof.
  revert i. induction l as [|c l IH]; intros i; simpl; [reflexivity|].
  now rewrite IH.
Qed.

Lemma reassign_ids_length (i : nat) (l : list Cluster) :
  List.length (reassign_ids i l) = List.length l.
Proof.
  revert i. induction l as [|c l IH]; intros i; simpl; [reflexivity|].
  now rewrite IH.
Qed.

(** Renumbering keeps every property that does not read the [id]. *)
Lemma reassign_ids_Forall (P : Cluster -> Prop) (i : nat) (l : list Cluster) :
  (forall c j, P c ->
     P (mkCluster j (label c) (description c) (email_count c) (emails c) (email_ids c))) ->
  Forall P l -> Forall P (reassign_ids i l).
Proof.
  intros HP H. revert i. induction H as [|c l Hc Hl IH]; intros i; simpl; constructor.
  - now apply HP.
  - apply IH.
Qed.

Lemma reassign_ids_sorted (i : nat) (l : list Cluster) :
  StronglySorted (desc email_count) l ->
  StronglySorted (desc email_count) (reassign_ids i l).
Proof.
  intros H. revert i. induction H as [|c l Hl IH Hc]; intros i; simpl; constructor.
  - apply IH.
  - apply reassign_ids_Forall; [|exact Hc]. intros c' j Hc'. exact Hc'.
Qed.

Lemma reassign_ids_filter (n i : nat) (l : list Cluster) :
  map content (filter (has_key email_count n) (reassign_ids i l)) =
  map content (filter (has_key email_count n) l).
Proof.
  revert i. induction l as [|c l IH]; intros i; [reflexivity|].
  cbn [reassign_ids filter].
  change (has_key email_count n
            (mkCluster (i + 1) (label c) (description c) (email_count c)
               (emails c) (email_ids c)))
    with (has_key email_count n c).
  destruct (has_key email_count n c); cbn [map]; rewrite IH; reflexivity.
Qed.

(** Adding an item to the group of its label adds it to the whole. *)
Lemma concat_groups_insert {A : Type} (g : nat -> list A) (x : A) (l : nat) :
  forall n a,
    (a <= l < a + n ->
     Permutation
       (List.concat (map (fun c => if (l =? c)%nat then x :: g c else g c) (seq a n)))
       (x :: List.concat (map g (seq a n)))) /\
    (l < a ->
     List.concat (map (fun c => if (l =? c)%nat then x :: g c else g c) (seq a n)) =
     List.concat (map g (seq a n))).
Proof.
  induction n as [|n IH]; intros a; simpl.
  - split; [lia | reflexivity].
  - destruct (IH (S a)) as [IH1 IH2]. split; intros Hl.
    + destruct (l =? a)%nat eqn:E.
      * apply Nat.eqb_eq in E. subst a. rewrite IH2 by lia. reflexivity.
      * apply Nat.eqb_neq in E. rewrite IH1 by lia. symmetry. apply Permutation_middle.
    + destruct (l =? a)%nat eqn:E; [apply Nat.eqb_eq in E; lia|].
      now rewrite IH2 by lia.
Qed.

(** The groups of the labels [0 .. k-1] hold every item once. *)
Lemma pick_partition {A : Type} (k : nat) (labels : list nat) (items : list A) :
  List.length items <= List.length labels ->
  Forall (fun l => l < k) labels ->
  Permutation (List.concat (map (fun c => pick c labels items) (seq 0 k))) items.
Proof.
  revert labels. induction items as [|x items IH]; intros labels Hlen Hk.
  - simpl. induction (seq 0 k); simpl; [reflexivity | assumption].
  - destruct labels as [|l labels]; simpl in Hlen; [lia|].
    inversion Hk as [|? ? Hl Hk']; subst.
    rewrite (map_ext _ (fun c => if (l =? c)%nat then x :: pick c labels items
                                 else pick c labels items)) by reflexivity.
    destruct (concat_groups_insert (fun c => pick c labels items) x l k 0) as [Hins _].
    etransitivity; [apply Hins; lia|].
    apply perm_skip. apply IH; [lia | exact Hk'].
Qed.

Lemma concat_filter_nonempty {A : Type} (ls : list (list A)) :
  List.concat (filter nonempty ls) = List.concat ls.
Proof.
  induction ls as [|l ls IH]; simpl; [reflexivity|].
  destruct l; simpl; now rewrite IH.
Qed.

Section Cases.

Variable kmeans_fit_predict : Z -> Matrix -> Exc (list nat * Matrix).
Variable sklearn_silhouette_score : Matrix -> list nat -> Exc Q.

(** The three ways in which [cluster_emails] returns. *)
Lemma cluster_emails_cases fv ids pes v self :
  let result := fst (cluster_emails kmeans_fit_predict sklearn_silhouette_score
                       fv ids pes v self) in
  (result = [] /\ (size fv = 0 \/ ids = [])) \/
  (size fv <> 0 /\ ids <> [] /\
   (result = _create_single_cluster pes ids \/
    exists k labels centers groups,
      (2 <= k <= Z.of_nat (shape0 fv))%Z /\
      kmeans_fit_predict k fv = Ok (labels, centers) /\
      cluster_loop labels pes ids v fv [] (seq 0 (Z.to_nat k)) = Ok groups /\
      result = reassign_ids 0 (sort_desc email_count groups))).
Proof.
  unfold cluster_emails.
  destruct (size fv =? 0)%nat eqn:Es; simpl.
  { left. apply Nat.eqb_eq in Es. auto. }
  destruct (List.length ids =? 0)%nat eqn:Ei; simpl.
  { left. apply Nat.eqb_eq in Ei. split; [reflexivity|]. right. now destruct ids. }
  right. apply Nat.eqb_neq in Es, Ei.
  split; [exact Es|]. split; [now intros ->|].
  set (k := Z.min _ _).
  destruct (k <? 2)%Z eqn:Ek; simpl; [now left|].
  apply Z.ltb_ge in Ek.
  destruct (kmeans_fit_predict k fv) as [[labels centers]|] eqn:Em; simpl; [|now left].
  unfold _generate_cluster_info. simpl.
  destruct (cluster_loop labels pes ids v fv [] (seq 0 (Z.to_nat k))) as [groups|] eqn:El;
    simpl; [|now left].
  right. exists k, labels, centers, groups.
  repeat split; try assumption. subst k. apply Z.le_min_r.
Qed.

End Cases.

(** ** Labels and descriptions *)

(** [a / b > 0.6] says that [a] is more than three fifths of [b]. *)
Lemma ratio_gt_three_fifths (a b : nat) :
  b <> 0 -> ratio_gt a b 0.6 = Ok (3 * b <? 5 * a)%nat.
Proof.
  intros Hb. destruct b as [|b]; [congruence|].
  unfold ratio_gt, Qle_bool. cbn [Qnum Qden]. f_equal.
  replace (Z.pos (Pos.of_nat (S b))) with (Z.of_nat (S b))
    by (rewrite <- Pos.of_nat_succ, Zpos_P_of_succ_nat; lia).
  destruct (Z.leb_spec (Z.of_nat a * 10) (6 * Z.of_nat (S b)));
    destruct (Nat.ltb_spec (3 * S b) (5 * a)); simpl; try reflexivity; lia.
Qed.

Lemma count_flag_le (flag : ProcessedEmail -> bool) (es : list ProcessedEmail) :
  count_flag flag es <= List.length es.
Proof. unfold count_flag. apply filter_length_le. Qed.

(** The first rule of the cascade: a cluster of which more than 60% are
    newsletters is labelled so, whatever its domains, its features and its
    subjects are. *)
Lemma newsletter_rule_first (es : list ProcessedEmail) (v : VectorizerHandle)
    (vecs : Matrix) :
  mostly is_newsletter es ->
  _generate_cluster_label_and_description es v vecs =
  Ok ("Newsletters & Subscriptions",
      "Newsletter and subscription emails" ++ count_suffix (List.length es)).
Proof.
  unfold mostly. intros H.
  pose proof (count_flag_le is_newsletter es) as Hle.
  unfold _generate_cluster_label_and_description.
  rewrite ratio_gt_three_fifths by lia.
  destruct (Nat.ltb_spec (3 * List.length es) (5 * count_flag is_newsletter es));
    [reflexivity | lia].
Qed.

Lemma ends_with_count_intro (n : nat) (pre : string) :
  ends_with_count n (pre ++ count_suffix n).
Proof. now exists pre. Qed.

Lemma ends_with_count_intro2 (n : nat) (a b : string) :
  ends_with_count n (a ++ b ++ count_suffix n).
Proof. exists (a ++ b). now rewrite append_assoc. Qed.

Lemma ends_with_count_intro3 (n : nat) (a b c : string) :
  ends_with_count n (a ++ b ++ c ++ count_suffix n).
Proof. exists (a ++ b ++ c). now rewrite !append_assoc. Qed.

Lemma ok_inj {A : Type} (a b : A) : Ok a = Ok b -> a = b.
Proof. congruence. Qed.

Lemma pair_snd {A B : Type} (a l : A) (b d : B) : (a, b) = (l, d) -> b = d.
Proof. congruence. Qed.

Lemma ok_snd {A B : Type} (a l : A) (b d : B) : Ok (a, b) = Ok (l, d) -> b = d.
Proof. congruence. Qed.

Lemma content_based_description es domains subjects v vecs lbl dsc :
  _generate_content_based_label es domains subjects v vecs = Ok (lbl, dsc) ->
  ends_with_count (List.length es) dsc.
Proof.
  unfold _generate_content_based_label.
  set (words := map fst (filter _ (most_common 3 (Counter (flat_map _ subjects))))).
  set (n := List.length es).
  assert (Hwords : forall l d,
    match words with
    | _ :: _ => (_words_to_label words,
                 "Emails containing " ++ join ", " (firstn 2 words) ++ count_suffix n)
    | [] =>
        if (20 <? n)%nat
        then ("Large Email Group", "Large group of related emails" ++ count_suffix n)
        else if (10 <? n)%nat
        then ("Medium Email Group", "Medium group of related emails" ++ count_suffix n)
        else ("Small Email Group", "Small group of related emails" ++ count_suffix n)
    end = (l, d) -> ends_with_count n d).
  { intros l d. destruct words.
    - destruct (20 <? n)%nat; [|destruct (10 <? n)%nat];
        intros E; apply pair_snd in E; subst; apply ends_with_count_intro.
    - intros E. apply pair_snd in E. subst. apply ends_with_count_intro2. }
  assert (Hfeatures : forall l d,
    match v with
    | Some get_top_features_for_cluster =>
        bind (get_top_features_for_cluster vecs 5) (fun top_features =>
        match top_features with
        | _ :: _ =>
            Ok (_features_to_label top_features,
                "Emails about " ++ join ", " (firstn 3 top_features) ++ count_suffix n)
        | [] => Ok
            match words with
            | _ :: _ => (_words_to_label words,
                         "Emails containing " ++ join ", " (firstn 2 words) ++ count_suffix n)
            | [] =>
                if (20 <? n)%nat
                then ("Large Email Group", "Large group of related emails" ++ count_suffix n)
                else if (10 <? n)%nat
                then ("Medium Email Group", "Medium group of related emails" ++ count_suffix n)
                else ("Small Email Group", "Small group of related emails" ++ count_suffix n)
            end
        end)
    | None => Ok
        match words with
        | _ :: _ => (_words_to_label words,
                     "Emails containing " ++ join ", " (firstn 2 words) ++ count_suffix n)
        | [] =>
            if (20 <? n)%nat
            then ("Large Email Group", "Large group of related emails" ++ count_suffix n)
            else if (10 <? n)%nat
            then ("Medium Email Group", "Medium group of related emails" ++ count_suffix n)
            else ("Small Email Group", "Small group of related emails" ++ count_suffix n)
        end
    end = Ok (l, d) -> ends_with_count n d).
  { intros l d. destruct v as [top|].
    - destruct (top vecs 5) as [[|f fs]|]; unfold bind.
      + intros E. apply ok_inj in E. now apply (Hwords l d).
      + intros E. apply ok_snd in E. subst. apply ends_with_count_intro2.
      + discriminate.
    - intros E. apply ok_inj in E. now apply (Hwords l d). }
  destruct (most_common 3 (Counter domains)) as [|[dom k] rest].
  - apply Hfeatures.
  - destruct (ratio_gt k n 0.5) as [dominated|]; unfold bind; [|discriminate].
    destruct (dominated && negb (String.eqb dom "unknown")).
    + intros E. apply ok_snd in E. subst. apply ends_with_count_intro3.
    + apply Hfeatures.
Qed.

(** Every description that the cascade writes ends with the number of
    emails of the cluster. *)
Lemma description_ends_with_count es v vecs lbl dsc :
  _generate_cluster_label_and_description es v vecs = Ok (lbl, dsc) ->
  ends_with_count (List.length es) dsc.
Proof.
  unfold _generate_cluster_label_and_description.
  destruct (ratio_gt (count_flag is_newsletter es) _ 0.6) as [[|]|]; unfold bind;
    [intros E; apply ok_snd in E; subst; apply ends_with_count_intro | | discriminate].
  destruct (ratio_gt (count_flag is_notification es) _ 0.6) as [[|]|];
    [intros E; apply ok_snd in E; subst; apply ends_with_count_intro | | discriminate].
  destruct (ratio_gt (count_flag is_promotional es) _ 0.6) as [[|]|];
    [intros E; apply ok_snd in E; subst; apply ends_with_count_intro | | discriminate].
  apply content_based_description.
Qed.

Lemma ends_with_count_str_in (n : nat) (d : string) :
  ends_with_count n d -> str_in (str_of_nat n) d = true.
Proof.
  intros [pre ->]. unfold count_suffix.
  rewrite <- (append_assoc pre " (" _). apply str_in_app.
Qed.

End ClustererFacts.

(* ================================================================== *)
(** * Properties of the clusterer *)

Section ClustererProperties.

Import Clusterer.

Variable kmeans_fit_predict : Z -> Matrix -> Exc (list nat * Matrix).
Variable sklearn_silhouette_score : Matrix -> list nat -> Exc Q.

Local Abbreviation run :=
  (clusters_returned kmeans_fit_predict sklearn_silhouette_score).

(** C1. Partition: when the feature array and the ids are not empty, the
    [emails] of the returned clusters hold every input email once, none
    twice and none left out; when the feature array or the ids are empty,
    no cluster is returned.  The labels that k-means returns are taken to
    lie below the number of clusters, as scikit-learn documents. *)
Theorem cluster_emails_partition fv ids pes v self :
  labels_in_range kmeans_fit_predict ->
  (size fv <> 0 -> ids <> [] -> partitions (run fv ids pes v self) pes) /\
  (size fv = 0 \/ ids = [] -> run fv ids pes v self = []).
Proof.
  intros Hrange. unfold clusters_returned.
  destruct (cluster_emails_cases kmeans_fit_predict sklearn_silhouette_score
              fv ids pes v self) as [[Hres Hempty]|(Hs & Hi & Hres)].
  - split; [|intros _; exact Hres]. intros Hs Hi. destruct Hempty; contradiction.
  - split; [|intros [Hz|Hz]; contradiction]. intros _ _. unfold partitions.
    destruct Hres as [->|(k & labels & centers & groups & Hk & Hm & Hl & ->)].
    + simpl. rewrite app_nil_r. reflexivity.
    + rewrite reassign_ids_emails, <- flat_map_concat_map.
      rewrite (sort_desc_perm email_count groups), flat_map_concat_map.
      destruct (cluster_loop_emails _ _ _ _ _ _ _ _ Hl) as [-> Hlen]. simpl.
      rewrite concat_filter_nonempty.
      apply pick_partition.
      * apply Hlen. destruct (Z.to_nat k) eqn:E; [lia | discriminate].
      * eapply Forall_impl; [|exact (Hrange _ _ _ _ Hm)]. simpl. intros l Hl'. lia.
Qed.

(** C3. Ranking: the returned list is sorted by decreasing [email_count]
    and its [id]s are 1, 2, 3, ... in that order; when the list comes from
    k-means, the clusters of one size stand in the order of the groups that
    the labels 0, 1, 2, ... of k-means define. *)
Theorem cluster_emails_ranked fv ids pes v self :
  ranked (run fv ids pes v self) /\
  (run fv ids pes v self = [] \/
   run fv ids pes v self = _create_single_cluster pes ids \/
   exists k labels centers groups,
     kmeans_fit_predict k fv = Ok (labels, centers) /\
     map emails groups =
       filter nonempty (map (fun c => pick c labels pes) (seq 0 (Z.to_nat k))) /\
     StronglySorted lt (map id groups) /\
     keeps_ties groups (run fv ids pes v self)).
Proof.
  unfold clusters_returned.
  destruct (cluster_emails_cases kmeans_fit_predict sklearn_silhouette_score
              fv ids pes v self) as [[Hres _]|(_ & _ & [Hres|Hres])].
  - rewrite Hres. split; [|now left]. split; [constructor | reflexivity].
  - rewrite Hres. split; [|now right; left].
    split; [repeat constructor | reflexivity].
  - destruct Hres as (k & labels & centers & groups & Hk & Hm & Hl & ->). split.
    + split.
      * apply reassign_ids_sorted, sort_desc_sorted.
      * rewrite reassign_ids_ids, reassign_ids_length. reflexivity.
    + right; right. exists k, labels, centers, groups.
      split; [exact Hm|]. split; [|split].
      * now destruct (cluster_loop_emails _ _ _ _ _ _ _ _ Hl) as [-> _].
      * eapply cluster_loop_ids; [| |exact Hl]; constructor.
      * intros n. rewrite reassign_ids_filter. f_equal. apply sort_desc_stable.
Qed.


(** [__init__] never leaves [n_clusters] unset, so the adaptive rule of
    [_determine_optimal_clusters] is not reached from a new clusterer. *)
Lemma init_sets_count (requested : option Z) : n_clusters (init requested) <> None.
Proof.
  destruct requested as [k|]; simpl; [destruct (k =? 0)%Z|]; discriminate.
Qed.

(** The count that [cluster_emails] stores on a non-empty batch: the
    smaller of the count it finds, or of the adaptive one when it finds
    none, and the number of emails. *)
Lemma count_used fv ids pes v self :
  size fv <> 0 -> ids <> [] ->
  n_clusters (snd (cluster_emails kmeans_fit_predict sklearn_silhouette_score
                     fv ids pes v self))
  = Some (Z.min (match n_clusters self with
                 | None => _determine_optimal_clusters fv
                 | Some k => k
                 end) (Z.of_nat (shape0 fv))).
Proof.
  intros Hs Hi. unfold cluster_emails.
  apply Nat.eqb_neq in Hs. rewrite Hs.
  destruct ids as [|i ids]; [congruence|]. simpl.
  destruct (Z.min _ _ <? 2)%Z; [reflexivity|].
  destruct (kmeans_fit_predict _ fv) as [[labels centers]|]; [|reflexivity].
  destruct (_generate_cluster_info _ _ _ _ _); reflexivity.
Qed.

(** C2. The cluster count of a clusterer built without one: [__init__]
    stores [Config.DEFAULT_CLUSTERS], so that [cluster_emails] finds a
    count and uses the smaller of 3 and the number of emails.  For five
    emails it uses 3 clusters, where [_determine_optimal_clusters] says 2. *)
Theorem unpinned_count_is_default v :
  n_clusters (snd (cluster_emails kmeans_fit_predict sklearn_silhouette_score
                     (Demo.rows 5) (map gmail_id Demo.five_emails) Demo.five_emails
                     v (init None))) = Some 3%Z
  /\ _determine_optimal_clusters (Demo.rows 5) = 2%Z.
Proof.
  split; [|reflexivity].
  unfold cluster_emails, init, Config.DEFAULT_CLUSTERS. simpl.
  change (Z.min 3 5) with 3%Z.
  destruct (kmeans_fit_predict 3%Z (Demo.rows 5)) as [[labels centers]|]; [|reflexivity].
  destruct (_generate_cluster_info _ _ _ _ _); reflexivity.
Qed.

(** C6. Descriptions: when the result is not the single fallback cluster,
    the description of every returned cluster contains the decimal number
    of its emails.  (The fallback cluster has the fixed description
    "All your recent emails".) *)
Theorem description_has_count fv ids pes v self :
  run fv ids pes v self = _create_single_cluster pes ids \/
  Forall (fun c => str_in (str_of_nat (email_count c)) (description c) = true)
         (run fv ids pes v self).
Proof.
  unfold clusters_returned.
  destruct (cluster_emails_cases kmeans_fit_predict sklearn_silhouette_score
              fv ids pes v self) as [[Hres _]|(_ & _ & [Hres|Hres])].
  - right. rewrite Hres. constructor.
  - now left.
  - right. destruct Hres as (k & labels & centers & groups & _ & _ & Hl & ->).
    apply Forall_impl with (P := fun c => ends_with_count (email_count c) (description c)).
    { intros c. apply ends_with_count_str_in. }
    apply reassign_ids_Forall; [auto|].
    eapply Permutation_Forall; [symmetry; apply sort_desc_perm|].
    eapply cluster_loop_Forall; [|constructor|exact Hl].
    intros c lbl dsc rids vecs _ Hg. simpl.
    exact (description_ends_with_count _ _ _ _ _ Hg).
Qed.

(** C7. The first rule of the label cascade: in a result that is not the
    single fallback cluster, a cluster of which more than 60% of the
    emails are flagged as newsletters is labelled
    "Newsletters & Subscriptions". *)
Theorem newsletter_cluster_label fv ids pes v self c :
  In c (run fv ids pes v self) ->
  run fv ids pes v self <> _create_single_cluster pes ids ->
  mostly is_newsletter (emails c) ->
  label c = "Newsletters & Subscriptions".
Proof.
  unfold clusters_returned.
  destruct (cluster_emails_cases kmeans_fit_predict sklearn_silhouette_score
              fv ids pes v self) as [[Hres _]|(_ & _ & [Hres|Hres])].
  - rewrite Hres. intros [].
  - intros _ Hne. contradiction.
  - destruct Hres as (k & labels & centers & groups & _ & _ & Hl & ->).
    intros Hin _. revert c Hin.
    apply (proj1 (Forall_forall
             (fun c => mostly is_newsletter (emails c) ->
                       label c = "Newsletters & Subscriptions") _)).
    apply reassign_ids_Forall; [auto|].
    eapply Permutation_Forall; [symmetry; apply sort_desc_perm|].
    eapply cluster_loop_Forall; [|constructor|exact Hl].
    intros c lbl dsc rids vecs _ Hg Hmost. simpl in *.
    rewrite (newsletter_rule_first _ v vecs Hmost) in Hg. congruence.
Qed.

End ClustererProperties.

(** ** The clusterer on concrete batches *)

Lemma alternate_below_two (n : nat) : Forall (fun l => l < 2) (Demo.alternate n).
Proof.
  induction n as [|n IH]; cbn [Demo.alternate]; constructor; [|exact IH].
  apply Nat.mod_upper_bound. discriminate.
Qed.

Lemma demo_kmeans_in_range : labels_in_range Demo.kmeans_fit_predict.
Proof.
  intros k m labels centers. unfold Demo.kmeans_fit_predict.
  destruct (2 <=? k)%Z eqn:E; [|discriminate].
  apply Z.leb_le in E. intros [= <- _].
  eapply Forall_impl; [|apply alternate_below_two]. simpl. intros l Hl. lia.
Qed.

(** When k-means fails, all emails are returned in the fallback cluster. *)
Example kmeans_failure_falls_back :
  clusters_returned Demo.failing_kmeans Demo.silhouette_score (Demo.rows 5)
    (map gmail_id Demo.five_emails) Demo.five_emails None (Clusterer.init None)
  = Clusterer._create_single_cluster Demo.five_emails (map gmail_id Demo.five_emails).
Proof. reflexivity. Qed.

(** The five emails, clustered in turn into two groups, are partitioned. *)
Lemma cluster_emails_partition_witness :
  partitions
    (clusters_returned Demo.kmeans_fit_predict Demo.silhouette_score (Demo.rows 5)
       (map gmail_id Demo.five_emails) Demo.five_emails None (Clusterer.init None))
    Demo.five_emails.
Proof.
  apply (cluster_emails_partition Demo.kmeans_fit_predict Demo.silhouette_score
           (Demo.rows 5) (map gmail_id Demo.five_emails) Demo.five_emails None
           (Clusterer.init None) demo_kmeans_in_range).
  - vm_compute. discriminate.
  - discriminate.
Defined.



(** The fallback cluster of one email is described without its count. *)
Lemma fallback_description_lacks_count :
  exists c,
    In c (clusters_returned Demo.kmeans_fit_predict Demo.silhouette_score (Demo.rows 1)
            [VStr "m1"] Demo.one_email None (Clusterer.init None)) /\
    str_in (str_of_nat (Clusterer.email_count c)) (Clusterer.description c) = false.
Proof.
  eexists. split; [left; reflexivity | reflexivity].
Qed.

(** Two of the three emails of the largest cluster are newsletters. *)
Lemma newsletter_cluster_label_witness :
  Clusterer.label newsletter_cluster = "Newsletters & Subscriptions".
Proof.
  apply (newsletter_cluster_label Demo.kmeans_fit_predict Demo.silhouette_score
           (Demo.rows 5) (map gmail_id Demo.five_emails) Demo.five_emails None
           (Clusterer.init None)).
  - left. reflexivity.
  - vm_compute. discriminate.
  - unfold mostly. vm_compute. lia.
Defined.

(* ================================================================== *)
(** * Properties of the vectorizer *)

Section VectorizerProperties.

Import Vectorizer.

Context {Tfidf Scaler : Type}.
Variable tfidf_fit_transform : Tfidf -> list string -> Exc Matrix * Tfidf.
Variable tfidf_feature_names : Tfidf -> Exc (list string).
Variable tfidf_transform : Tfidf -> list string -> Exc Matrix.
Variable scaler_fit_transform : Scaler -> Matrix -> Exc Matrix * Scaler.
Variable scaler_transform : Scaler -> Matrix -> Exc Matrix.

Local Abbreviation fit_body :=
  (fit_body Tfidf Scaler tfidf_fit_transform tfidf_feature_names scaler_fit_transform).
Local Abbreviation fit_transform :=
  (fit_transform Tfidf Scaler tfidf_fit_transform tfidf_feature_names scaler_fit_transform).
Local Abbreviation transform_body :=
  (transform_body Tfidf Scaler tfidf_transform scaler_transform).
Local Abbreviation transform :=
  (transform Tfidf Scaler tfidf_transform scaler_transform).
Local Abbreviation never_fitted :=
  (never_fitted tfidf_fit_transform tfidf_feature_names tfidf_transform
     scaler_fit_transform scaler_transform).
Local Abbreviation fit_succeeds :=
  (fit_succeeds tfidf_fit_transform tfidf_feature_names scaler_fit_transform).

(** The [try] block of [fit_transform] sets [is_fitted] as its last step. *)
Lemma fit_body_raise pes texts self e self' :
  fit_body pes texts self = (Raise e, self') ->
  is_fitted Tfidf Scaler self' = is_fitted Tfidf Scaler self.
Proof.
  unfold Vectorizer.fit_body, mbind, ret, lift.
  destruct (tfidf_fit_transform _ texts) as [[dense|e1] t]; simpl;
    [|now intros [= _ <-]].
  destruct (tfidf_feature_names t) as [names|e2]; simpl; [|now intros [= _ <-]].
  destruct (0 <? size (_extract_additional_features pes))%nat; simpl.
  - destruct (scaler_fit_transform _ _) as [[scaled|e3] sc]; simpl;
      [|now intros [= _ <-]].
    destruct (hstack dense scaled); simpl; [discriminate | now intros [= _ <-]].
  - discriminate.
Qed.

Lemma fit_transform_keeps_unfitted pes self :
  is_fitted Tfidf Scaler self = false ->
  ~ fit_succeeds pes self ->
  is_fitted Tfidf Scaler (snd (fit_transform pes self)) = false.
Proof.
  intros Hun Hfail. unfold Vectorizer.fit_transform.
  destruct pes as [|p pes]; [exact Hun|].
  unfold try_method, mbind, ret.
  destruct (fit_body (p :: pes) (collect_texts (p :: pes)) self) as [[m|e] self'] eqn:E.
  - exfalso. apply Hfail. split; [discriminate|]. exists m. now rewrite E.
  - simpl. now rewrite (fit_body_raise _ _ _ _ _ E).
Qed.

Lemma transform_unfitted pes self :
  is_fitted Tfidf Scaler self = false ->
  transform pes self = (Raise not_fitted, self).
Proof.
  intros H. unfold Vectorizer.transform. now rewrite H.
Qed.

Lemma never_fitted_flag self :
  never_fitted self -> is_fitted Tfidf Scaler self = false.
Proof.
  induction 1 as [t sc | self pes _ IH Hfail | self pes _ IH].
  - reflexivity.
  - now apply fit_transform_keeps_unfitted.
  - now rewrite (transform_unfitted pes self IH).
Qed.

(** C8. [transform] on a vectorizer on which no [fit_transform] has
    succeeded raises [ValueError] to the caller: no result is returned, no
    handler is run and the vectorizer is left as it was. *)
Theorem transform_before_fit_raises self pes :
  never_fitted self ->
  transform pes self = (Raise not_fitted, self).
Proof.
  intros H. apply transform_unfitted. now apply never_fitted_flag.
Qed.

(** C10. Soft failure: on a fitted vectorizer [transform] returns, with
    the [gmail_id] of every input email in input order; when its [try]
    block raises, the array returned is empty.  [fit_transform] does the
    same when its [try] block raises. *)
Theorem transform_fails_soft self pes :
  is_fitted Tfidf Scaler self = true ->
  (exists m, fst (transform pes self) = Ok (m, collect_ids pes)) /\
  (forall e,
     fst (transform_body pes (collect_texts pes) self) = Raise e ->
     fst (transform pes self) = Ok (np_empty, collect_ids pes)) /\
  (forall e,
     fst (fit_body pes (collect_texts pes) self) = Raise e ->
     fst (fit_transform pes self) = Ok (np_empty, collect_ids pes)).
Proof.
  intros Hfit. unfold Vectorizer.transform, Vectorizer.fit_transform.
  rewrite Hfit. simpl. destruct pes as [|p pes].
  - split; [now exists np_empty | split; reflexivity].
  - unfold try_method, mbind, ret. split; [|split].
    + destruct (transform_body (p :: pes) _ self) as [[m|e] self'];
        [now exists m | now exists np_empty].
    + intros e. destruct (transform_body (p :: pes) _ self) as [[m|e'] self'];
        simpl; [discriminate | reflexivity].
    + intros e. destruct (fit_body (p :: pes) _ self) as [[m|e'] self'];
        simpl; [discriminate | reflexivity].
Qed.

End VectorizerProperties.

(** ** The vectorizer on concrete batches *)

(** After a [fit_transform] whose TF-IDF step raised, [transform] raises. *)
Lemma transform_before_fit_raises_witness :
  Vectorizer.transform unit unit Demo.tfidf_transform Demo.scaler_transform
    Demo.five_emails Demo.failed_fit
  = (Raise Vectorizer.not_fitted, Demo.failed_fit).
Proof.
  apply (transform_before_fit_raises Demo.tfidf_fit_transform Demo.tfidf_feature_names
           Demo.tfidf_transform Demo.scaler_fit_transform Demo.scaler_transform).
  apply never_fitted_fit.
  - apply never_fitted_init.
  - intros [_ [m H]]. vm_compute in H. discriminate.
Defined.

(** A fitted vectorizer whose TF-IDF [transform] raises returns the ids. *)
Lemma transform_fails_soft_witness :
  fst (Vectorizer.transform unit unit Demo.tfidf_transform Demo.scaler_transform
         Demo.five_emails Demo.fitted)
  = Ok (np_empty, [VStr "m1"; VStr "m2"; VStr "m3"; VStr "m4"; VStr "m5"]).
Proof.
  apply (proj1 (proj2 (transform_fails_soft Demo.tfidf_fit_transform
                         Demo.tfidf_feature_names Demo.tfidf_transform
                         Demo.scaler_fit_transform Demo.scaler_transform
                         Demo.fitted Demo.five_emails eq_refl))
           (LibraryError "vocabulary not fitted")).
  reflexivity.
Defined.

(* ================================================================== *)
(** * Properties of the preprocessor *)

Section PreprocessorProperties.

Import Preprocessor.

Variable html_get_text : PyVal -> Exc string.
Variable word_tokenize : string -> Exc (list string).
Variable stem : string -> Exc string.
Variable nltk_stopwords : Exc (list string).

Local Abbreviation extract_features :=
  (extract_features html_get_text word_tokenize stem nltk_stopwords).
Local Abbreviation preprocess_loop :=
  (preprocess_loop html_get_text word_tokenize stem nltk_stopwords).
Local Abbreviation preprocess_emails :=
  (preprocess_emails html_get_text word_tokenize stem nltk_stopwords).

Lemma preprocess_loop_extracted (emails : list Dict) :
  forall acc,
    preprocess_loop acc emails = Ok (acc ++ extracted extract_features emails)%list.
Proof.
  induction emails as [|email emails IH]; intros acc; simpl.
  - now rewrite app_nil_r.
  - unfold preprocess_one, try_except.
    destruct (extract_features email) as [features|e]; simpl.
    + rewrite IH, <- app_assoc. reflexivity.
    + apply IH.
Qed.

Lemma preprocess_emails_skips_failures_eq (emails : list Dict) :
  preprocess_emails emails = Ok (extracted extract_features emails).
Proof.
  unfold Preprocessor.preprocess_emails. now rewrite preprocess_loop_extracted.
Qed.

(** C9. [preprocess_emails] returns for every sequence of raw emails: its
    result is the features of the emails whose extraction returns, in the
    order of the input; an email whose extraction raises adds nothing and
    stops nothing. *)
Theorem preprocess_emails_skips_failures (emails : list Dict) :
  preprocess_emails emails = Ok (extracted extract_features emails).
Proof.
  unfold Preprocessor.preprocess_emails. now rewrite preprocess_loop_extracted.
Qed.

Lemma indicators_lowered :
  Forall (fun k => lower k = k)
    (newsletter_indicators ++ notification_indicators ++ promo_indicators).
Proof. repeat constructor. Qed.

Lemma any_in_lower_after (keys : list string) (pre s : string) :
  Forall (fun k => lower k = k) keys ->
  any_in keys s = true -> any_in keys (lower (pre ++ s)) = true.
Proof.
  intros Hlow H. apply existsb_exists in H. destruct H as (k & Hin & Hk).
  apply (any_in_intro keys k); [exact Hin|].
  rewrite Forall_forall in Hlow. rewrite <- (Hlow k Hin).
  now apply str_in_lower_after.
Qed.

(** C5. Independent signals: when the cleaned body of an email contains
    a promotional keyword (such as "sale"), "unsubscribe" and
    "security alert", [extract_features] sets [is_promotional],
    [is_newsletter] and [is_notification] together. *)
Theorem signals_are_independent (email : Dict) (f : ProcessedEmail) :
  extract_features email = Ok f ->
  any_in promo_indicators (body f) = true ->
  str_in "unsubscribe" (body f) = true ->
  str_in "security alert" (body f) = true ->
  is_promotional f = true /\ is_newsletter f = true /\ is_notification f = true.
Proof.
  unfold Preprocessor.extract_features, bind.
  destruct (clean_text html_get_text _) as [subj|]; [|discriminate].
  destruct (clean_text html_get_text _) as [bod|]; [|discriminate].
  intros E. apply ok_inj in E. subst f. cbn [body is_promotional is_newsletter is_notification].
  intros Hpromo Hnews Hnote.
  pose proof indicators_lowered as Hlow.
  apply Forall_app in Hlow. destruct Hlow as [Hl1 Hlow].
  apply Forall_app in Hlow. destruct Hlow as [Hl2 Hl3].
  split; [|split].
  - unfold _is_promotional. rewrite <- append_assoc.
    now apply any_in_lower_after.
  - unfold _is_newsletter. rewrite <- !append_assoc.
    apply any_in_lower_after; [exact Hl1|].
    apply (any_in_intro _ "unsubscribe"); [simpl; tauto | exact Hnews].
  - unfold _is_notification. rewrite <- append_assoc.
    apply any_in_lower_after; [exact Hl2|].
    apply (any_in_intro _ "alert"); [simpl; tauto|].
    now apply (str_in_part "security " "alert").
Qed.

End PreprocessorProperties.

(** ** The preprocessor on concrete emails *)

(** An email whose subject is a number is skipped; the emails around it
    are processed. *)
Example preprocess_skips_numeric_subject :
  Demo.extract_features Demo.numeric_email = Raise TypeError /\
  exists f1 f3,
    Demo.extract_features Demo.offer_email = Ok f1 /\
    Demo.extract_features Demo.plain_email = Ok f3 /\
    Demo.preprocess_emails [Demo.offer_email; Demo.numeric_email; Demo.plain_email]
    = Ok [f1; f3].
Proof.
  split; [reflexivity|]. eexists. eexists.
  split; [reflexivity|]. split; reflexivity.
Qed.

(** "50% off" is no promotional keyword, and a word in a link is not in
    the cleaned text: the first email is not promotional, the second is
    neither promotional nor a newsletter, though both bodies contain the
    three phrases. *)
Lemma percent_off_sets_no_signal :
  (str_in "50% off" Demo.offer_body = true /\
   str_in "unsubscribe" Demo.offer_body = true /\
   str_in "security alert" Demo.offer_body = true /\
   exists f, Demo.extract_features Demo.offer_email = Ok f /\
             is_promotional f = false /\
             is_newsletter f = true /\
             is_notification f = true) /\
  (str_in "50% off" Demo.link_body = true /\
   str_in "unsubscribe" Demo.link_body = true /\
   str_in "security alert" Demo.link_body = true /\
   exists f, Demo.extract_features Demo.link_email = Ok f /\
             is_promotional f = false /\
             is_newsletter f = false /\
             is_notification f = true).
Proof.
  split; (do 3 (split; [reflexivity|]); eexists; split; [reflexivity|]; repeat split).
Qed.

(** The email that announces a sale sets the three signals. *)
Lemma signals_are_independent_witness :
  is_promotional sale_features = true /\
  is_newsletter sale_features = true /\
  is_notification sale_features = true.
Proof.
  apply (signals_are_independent Demo.html_get_text Demo.word_tokenize Demo.stem
           Demo.nltk_stopwords Demo.sale_email sale_features);
    vm_compute; reflexivity.
Defined.

(* ================================================================== *)
(** * Exact and floating-point ratios *)

(** For clusters of up to [Config.MAX_EMAILS] emails, the tests
    [count / total > 0.6] and [count / total > 0.5] on double precision
    numbers give what exact arithmetic gives.  The double nearest to 0.6 is
    [0x1.3333333333333p-1]. *)
Lemma float_ratio_agrees :
  ratios_agree Config.MAX_EMAILS 0.6 0x1.3333333333333p-1%float = true /\
  ratios_agree Config.MAX_EMAILS 0.5 0.5%float = true.
Proof. split; vm_compute; reflexivity. Qed.

(* ================================================================== *)
(** * Further properties of the clusterer *)

Section ClustererFurther.

Import Clusterer.

Variable kmeans_fit_predict : Z -> Matrix -> Exc (list nat * Matrix).
Variable sklearn_silhouette_score : Matrix -> list nat -> Exc Q.

Local Abbreviation run :=
  (clusters_returned kmeans_fit_predict sklearn_silhouette_score).
Local Abbreviation state_after :=
  (fun fv ids pes v self =>
     snd (cluster_emails kmeans_fit_predict sklearn_silhouette_score fv ids pes v self)).

(** X1. The adaptive cluster count lies between 2 and 5 and does not
    decrease when the batch grows. *)
Theorem optimal_clusters_bounds (fv fv' : Matrix) :
  (2 <= _determine_optimal_clusters fv <= 5)%Z /\
  (shape0 fv <= shape0 fv' ->
   (_determine_optimal_clusters fv <= _determine_optimal_clusters fv')%Z).
Proof.
  unfold _determine_optimal_clusters.
  set (n := Z.of_nat (shape0 fv)). set (n' := Z.of_nat (shape0 fv')).
  split.
  - destruct (Z.ltb_spec n 10); [lia|].
    destruct (Z.ltb_spec n 30); [lia|].
    destruct (Z.ltb_spec n 100).
    + assert (3 <= n / 10)%Z by (apply Z.div_le_lower_bound; lia). lia.
    + assert (5 <= n / 20)%Z by (apply Z.div_le_lower_bound; lia). lia.
  - intros Hle. assert (n <= n')%Z by (subst n n'; lia).
    destruct (Z.ltb_spec n 10), (Z.ltb_spec n' 10); try lia;
    destruct (Z.ltb_spec n' 30); try lia;
    try (destruct (Z.ltb_spec n 30); try lia);
    destruct (Z.ltb_spec n' 100); try lia;
    try (destruct (Z.ltb_spec n 100); try lia);
    try (assert (3 <= n' / 10)%Z by (apply Z.div_le_lower_bound; lia));
    try (assert (5 <= n' / 20)%Z by (apply Z.div_le_lower_bound; lia));
    try (assert (n / 10 <= n' / 10)%Z by (apply Z.div_le_mono; lia));
    try (assert (n / 20 <= n' / 20)%Z by (apply Z.div_le_mono; lia));
    lia.
Qed.

(** X2. The cluster count that a clusterer holds never grows: a call on a
    non-empty batch replaces it by the smaller of itself and the number of
    feature rows, and the clusterer keeps this count for the calls that
    follow; a call on an empty batch (an empty feature array or no id)
    leaves the count, and the whole clusterer, as it was. *)
Theorem cluster_count_never_grows fv ids pes v self k :
  n_clusters self = Some k ->
  exists k',
    n_clusters (state_after fv ids pes v self) = Some k' /\
    (k' <= k)%Z /\
    (size fv <> 0 -> ids <> [] -> k' = Z.min k (Z.of_nat (shape0 fv))) /\
    (size fv = 0 \/ ids = [] -> k' = k /\ state_after fv ids pes v self = self).
Proof.
  intros Hk.
  destruct (Nat.eq_dec (size fv) 0) as [Hs|Hs].
  - exists k. unfold cluster_emails.
    apply Nat.eqb_eq in Hs. rewrite Hs. simpl.
    apply Nat.eqb_eq in Hs. split; [exact Hk|]. split; [lia|].
    split; [contradiction | auto].
  - destruct ids as [|i ids].
    + exists k. unfold cluster_emails. rewrite orb_true_r. simpl.
      split; [exact Hk|]. split; [lia|]. split; [congruence | auto].
    + exists (Z.min k (Z.of_nat (shape0 fv))).
      rewrite (count_used kmeans_fit_predict sklearn_silhouette_score fv (i :: ids)
                 pes v self Hs) by discriminate.
      rewrite Hk. split; [reflexivity|]. split; [lia|]. split; [reflexivity|].
      intros [Hz|Hz]; [contradiction | discriminate].
Qed.

Lemma pick_map {A B : Type} (f : A -> B) (c : nat) (labels : list nat) (items : list A) :
  pick c labels (map f items) = map f (pick c labels items).
Proof.
  revert labels. induction items as [|x items IH]; intros labels; [reflexivity|].
  destruct labels as [|l labels]; [reflexivity|].
  simpl. destruct (l =? c)%nat; simpl; now rewrite IH.
Qed.

(** What one turn of the loop adds, with the ids of the cluster. *)
Lemma cluster_of_label_ids labels pes ids v fv acc c acc' :
  cluster_of_label labels pes ids v fv acc c = Ok acc' ->
  acc' = acc \/
  exists lbl dsc,
    pick c labels pes <> [] /\
    acc' = (acc ++ [mkCluster (c + 1) lbl dsc (List.length (pick c labels pes))
                      (pick c labels pes) (pick c labels ids)])%list.
Proof.
  unfold cluster_of_label. intros H.
  destruct (select _ pes) as [r|] eqn:Er; simpl in H; [|discriminate].
  destruct (select_pick _ _ _ _ Er) as [-> _].
  destruct (select _ ids) as [rids|] eqn:Ei; simpl in H; [|discriminate].
  destruct (select_pick _ _ _ _ Ei) as [-> _].
  destruct (mask_rows _ fv) as [vecs|]; simpl in H; [|discriminate].
  destruct (pick c labels pes) as [|e es] eqn:Ep.
  - left. now injection H as <-.
  - right.
    destruct (_generate_cluster_label_and_description (e :: es) v vecs)
      as [[lbl dsc]|]; simpl in H; [|discriminate].
    injection H as <-. exists lbl, dsc. split; [discriminate | reflexivity].
Qed.

Lemma cluster_loop_Forall_ids (P : Cluster -> Prop) labels pes ids v fv :
  (forall c lbl dsc,
      pick c labels pes <> [] ->
      P (mkCluster (c + 1) lbl dsc (List.length (pick c labels pes))
           (pick c labels pes) (pick c labels ids))) ->
  forall cids acc res,
    Forall P acc ->
    cluster_loop labels pes ids v fv acc cids = Ok res ->
    Forall P res.
Proof.
  intros HP. induction cids as [|c cids IH]; intros acc res Hacc H; simpl in H.
  - now injection H as <-.
  - destruct (cluster_of_label labels pes ids v fv acc c) as [acc'|] eqn:E;
      simpl in H; [|discriminate].
    apply (IH acc' res); [|exact H].
    destruct (cluster_of_label_ids _ _ _ _ _ _ _ _ E) as [->|(lbl & dsc & Hne & ->)];
      [exact Hacc|].
    apply Forall_app. split; [exact Hacc|]. constructor; [|constructor].
    now apply HP.
Qed.

(** A property that does not read the [id] goes from the groups to the
    sorted and renumbered list. *)
Lemma ranked_Forall (P : Cluster -> Prop) (groups : list Cluster) :
  (forall c j, P c ->
     P (mkCluster j (label c) (description c) (email_count c) (emails c) (email_ids c))) ->
  Forall P groups ->
  Forall P (reassign_ids 0 (sort_desc email_count groups)).
Proof.
  intros HP H. apply reassign_ids_Forall; [exact HP|].
  eapply Permutation_Forall; [symmetry; apply sort_desc_perm | exact H].
Qed.

(** X3. Parallel ids: when the ids given to [cluster_emails] are the
    [gmail_id]s of the processed emails, as the vectorizer returns them,
    the [email_ids] of every returned cluster are the [gmail_id]s of its
    [emails], in the same order, and its [email_count] is their number. *)
Theorem email_ids_parallel fv pes v self :
  Forall (fun c => email_ids c = map gmail_id (emails c) /\
                   email_count c = List.length (emails c))
         (clusters_returned kmeans_fit_predict sklearn_silhouette_score
            fv (map gmail_id pes) pes v self).
Proof.
  unfold clusters_returned.
  destruct (cluster_emails_cases kmeans_fit_predict sklearn_silhouette_score
              fv (map gmail_id pes) pes v self) as [[Hres _]|(_ & _ & [Hres|Hres])].
  - rewrite Hres. constructor.
  - rewrite Hres. repeat constructor.
  - destruct Hres as (k & labels & centers & groups & _ & _ & Hl & ->).
    apply ranked_Forall; [auto|].
    eapply cluster_loop_Forall_ids; [|constructor|exact Hl].
    intros c lbl dsc _. simpl. split; [apply pick_map | reflexivity].
Qed.

Lemma rows_of_nonempty (fv : Matrix) : size fv <> 0 -> 1 <= shape0 fv.
Proof. unfold size, shape0. destruct fv; simpl; intros H; [congruence | lia]. Qed.

Lemma filter_nonempty_Forall {A : Type} (ls : list (list A)) :
  Forall (fun l => l <> []) (filter nonempty ls).
Proof.
  induction ls as [|l ls IH]; simpl; [constructor|].
  destruct l; simpl; [exact IH | constructor; [discriminate | exact IH]].
Qed.

(** X4. There are never more clusters than feature rows, and a cluster
    that comes from k-means is never empty. *)
Theorem cluster_count_bounded fv ids pes v self :
  List.length (run fv ids pes v self) <= shape0 fv /\
  (run fv ids pes v self = _create_single_cluster pes ids \/
   Forall (fun c => emails c <> []) (run fv ids pes v self)).
Proof.
  unfold clusters_returned.
  destruct (cluster_emails_cases kmeans_fit_predict sklearn_silhouette_score
              fv ids pes v self) as [[Hres _]|(Hs & _ & [Hres|Hres])].
  - rewrite Hres. split; [simpl; lia | right; constructor].
  - rewrite Hres. split; [simpl; now apply rows_of_nonempty | now left].
  - destruct Hres as (k & labels & centers & groups & Hk & _ & Hl & ->).
    destruct (cluster_loop_emails _ _ _ _ _ _ _ _ Hl) as [Hem _]. simpl in Hem.
    split.
    + rewrite reassign_ids_length.
      rewrite (Permutation_length (sort_desc_perm email_count groups)).
      rewrite <- (length_map emails), Hem.
      etransitivity; [apply filter_length_le|].
      rewrite length_map, length_seq. lia.
    + right. apply ranked_Forall; [auto|].
      apply Forall_map with (f := emails) (P := fun l => l <> []).
      rewrite Hem. apply filter_nonempty_Forall.
Qed.

Lemma ratio_gt_returns (a b : nat) (t : Q) :
  b <> 0 -> exists r, ratio_gt a b t = Ok r.
Proof. destruct b; [congruence|]. intros _. simpl. eauto. Qed.

Lemma not_mostly (flag : ProcessedEmail -> bool) (es : list ProcessedEmail) :
  es <> [] -> ~ mostly flag es ->
  ratio_gt (count_flag flag es) (List.length es) 0.6 = Ok false.
Proof.
  intros Hne Hnot. rewrite ratio_gt_three_fifths by (destruct es; simpl; congruence).
  unfold mostly in Hnot.
  destruct (Nat.ltb_spec (3 * List.length es) (5 * count_flag flag es));
    [contradiction | reflexivity].
Qed.

Lemma mostly_true (flag : ProcessedEmail -> bool) (es : list ProcessedEmail) :
  mostly flag es ->
  es <> [] /\ ratio_gt (count_flag flag es) (List.length es) 0.6 = Ok true.
Proof.
  unfold mostly. intros H. pose proof (count_flag_le flag es) as Hle.
  assert (Hne : es <> []) by (intros ->; simpl in *; lia).
  split; [exact Hne|].
  rewrite ratio_gt_three_fifths by (destruct es; simpl; congruence).
  destruct (Nat.ltb_spec (3 * List.length es) (5 * count_flag flag es));
    [reflexivity | lia].
Qed.

(** X6. The order of the cascade after its first rule: a cluster that is
    not mostly newsletters and of which more than 60% are notifications is
    labelled "Notifications & Alerts"; one that is neither, and of which
    more than 60% are promotional, is labelled "Promotions & Marketing". *)
Theorem cascade_order (es : list ProcessedEmail) (v : VectorizerHandle) (vecs : Matrix) :
  (~ mostly is_newsletter es -> mostly is_notification es ->
   _generate_cluster_label_and_description es v vecs =
   Ok ("Notifications & Alerts",
       "System notifications and alerts" ++ count_suffix (List.length es))) /\
  (~ mostly is_newsletter es -> ~ mostly is_notification es ->
   mostly is_promotional es ->
   _generate_cluster_label_and_description es v vecs =
   Ok ("Promotions & Marketing",
       "Promotional and marketing emails" ++ count_suffix (List.length es))).
Proof.
  unfold _generate_cluster_label_and_description. split.
  - intros Hn Hm. destruct (mostly_true _ _ Hm) as [Hne ->].
    rewrite (not_mostly _ _ Hne Hn). reflexivity.
  - intros Hn Hn' Hm. destruct (mostly_true _ _ Hm) as [Hne ->].
    rewrite (not_mostly _ _ Hne Hn), (not_mostly _ _ Hne Hn'). reflexivity.
Qed.

(** X7. Label synthesis on an empty cluster divides by zero, which is why
    [_generate_cluster_info] passes empty groups by; on a cluster that is
    not empty it returns a label and a description whenever the
    vectorizer's [get_top_features_for_cluster] returns. *)
Theorem label_synthesis_returns (es : list ProcessedEmail) (v : VectorizerHandle)
    (vecs : Matrix) :
  (es = [] ->
   _generate_cluster_label_and_description es v vecs = Raise ZeroDivisionError) /\
  (es <> [] ->
   (forall get, v = Some get -> exists fs, get vecs 5 = Ok fs) ->
   exists lbl dsc, _generate_cluster_label_and_description es v vecs = Ok (lbl, dsc)).
Proof.
  split; [now intros ->|].
  intros Hne Hv.
  assert (Hlen : List.length es <> 0) by (destruct es; simpl; congruence).
  unfold _generate_cluster_label_and_description.
  destruct (ratio_gt_returns (count_flag is_newsletter es) _ 0.6 Hlen) as [[|] ->];
    simpl; [eauto|].
  destruct (ratio_gt_returns (count_flag is_notification es) _ 0.6 Hlen) as [[|] ->];
    simpl; [eauto|].
  destruct (ratio_gt_returns (count_flag is_promotional es) _ 0.6 Hlen) as [[|] ->];
    simpl; [eauto|].
  unfold _generate_content_based_label.
  set (by_words := match map fst _ with [] => _ | _ :: _ => _ end).
  assert (Hfeatures : exists lbl dsc,
    match v with
    | Some get =>
        bind (get vecs 5) (fun top_features =>
        match top_features with
        | _ :: _ =>
            Ok (_features_to_label top_features,
                "Emails about " ++ join ", " (firstn 3 top_features)
                ++ count_suffix (List.length es))
        | [] => Ok by_words
        end)
    | None => Ok by_words
    end = Ok (lbl, dsc)).
  { destruct v as [get|].
    - destruct (Hv get eq_refl) as [[|f fs] ->]; simpl.
      + destruct by_words. eauto.
      + eauto.
    - destruct by_words. eauto. }
  destruct (most_common 3 (Counter (map sender_domain es))) as [|[dom n] rest];
    [exact Hfeatures|].
  destruct (ratio_gt_returns n _ 0.5 Hlen) as [dominated ->]. unfold bind at 1.
  destruct (dominated && negb (String.eqb dom "unknown")); [eauto | exact Hfeatures].
Qed.

Lemma list_sum_map_add {A : Type} (f g : A -> nat) (l : list A) :
  list_sum (map (fun x => f x + g x) l) = list_sum (map f l) + list_sum (map g l).
Proof. induction l as [|x l IH]; simpl; [reflexivity | rewrite IH; lia]. Qed.

Lemma list_sum_indicator (l a n : nat) :
  list_sum (map (fun i => if (l =? i)%nat then 1 else 0) (seq a n)) =
  if ((a <=? l) && (l <? a + n))%nat then 1 else 0.
Proof.
  revert a. induction n as [|n IH]; intros a; simpl.
  - destruct (Nat.leb_spec a l), (Nat.ltb_spec l (a + 0)); simpl; lia.
  - rewrite IH.
    destruct (Nat.eqb_spec l a), (Nat.leb_spec (S a) l), (Nat.ltb_spec l (S a + n)),
      (Nat.leb_spec a l), (Nat.ltb_spec l (a + S n)); simpl; lia.
Qed.

(** The sizes of the clusters [0 .. n-1] add up to the number of labels. *)
Lemma label_counts_sum (labels : list nat) (n : nat) :
  Forall (fun l => l < n) labels ->
  list_sum (map (label_count labels) (seq 0 n)) = List.length labels.
Proof.
  induction 1 as [|l labels Hl _ IH]; simpl.
  - induction (seq 0 n); simpl; [reflexivity | assumption].
  - rewrite (map_ext (label_count (l :: labels))
               (fun i => (if (l =? i)%nat then 1 else 0) + label_count labels i)).
    + rewrite list_sum_map_add, IH, list_sum_indicator.
      destruct (Nat.leb_spec 0 l), (Nat.ltb_spec l (0 + n)); simpl; lia.
    + intros i. unfold label_count. simpl. now destruct (l =? i)%nat.
Qed.

(** X5. Statistics: a new clusterer has none; after a call in which
    k-means returned labels, [get_cluster_stats] gives the count that was
    used and cluster sizes that add up to the number of labels. *)
Theorem stats_after_clustering fv ids pes v self labels centers :
  labels_in_range kmeans_fit_predict ->
  size fv <> 0 -> ids <> [] ->
  let k := Z.min (match n_clusters self with
                  | None => _determine_optimal_clusters fv
                  | Some k => k
                  end) (Z.of_nat (shape0 fv)) in
  (2 <= k)%Z ->
  kmeans_fit_predict k fv = Ok (labels, centers) ->
  get_cluster_stats (init None) = Ok None /\
  exists st,
    get_cluster_stats (state_after fv ids pes v self) = Ok (Some st) /\
    stats_n_clusters st = Some k /\
    list_sum (cluster_sizes st) = List.length labels.
Proof.
  intros Hrange Hs Hi k Hk Hm. split; [reflexivity|].
  unfold cluster_emails.
  apply Nat.eqb_neq in Hs. rewrite Hs.
  destruct ids as [|i ids]; [congruence|]. simpl.
  fold k. destruct (Z.ltb_spec k 2); [lia|]. rewrite Hm.
  assert (Hsum : list_sum (map (label_count labels) (seq 0 (Z.to_nat k)))
                 = List.length labels).
  { apply label_counts_sum.
    eapply Forall_impl; [|exact (Hrange _ _ _ _ Hm)]. simpl. intros l Hl. lia. }
  destruct (_generate_cluster_info _ _ _ _ _); simpl;
    eexists; (split; [reflexivity|]); split; [reflexivity | exact Hsum | reflexivity | exact Hsum].
Qed.

End ClustererFurther.

(** ** The further properties on concrete batches *)

(** A clusterer that was asked for four clusters holds one after a batch
    of one email, and still four after a batch whose feature array is
    empty. *)
Lemma cluster_count_never_grows_witness :
  (exists k',
     Clusterer.n_clusters
       (snd (Clusterer.cluster_emails Demo.kmeans_fit_predict Demo.silhouette_score
               (Demo.rows 1) [VStr "m1"] Demo.one_email None (Clusterer.init (Some 4%Z))))
     = Some k' /\
     (k' <= 4)%Z /\
     (size (Demo.rows 1) <> 0 -> [VStr "m1"] <> [] ->
      k' = Z.min 4 (Z.of_nat (shape0 (Demo.rows 1)))) /\
     (size (Demo.rows 1) = 0 \/ [VStr "m1"] = [] ->
      k' = 4%Z /\
      snd (Clusterer.cluster_emails Demo.kmeans_fit_predict Demo.silhouette_score
             (Demo.rows 1) [VStr "m1"] Demo.one_email None (Clusterer.init (Some 4%Z)))
      = Clusterer.init (Some 4%Z))) /\
  (exists k',
     Clusterer.n_clusters
       (snd (Clusterer.cluster_emails Demo.kmeans_fit_predict Demo.silhouette_score
               np_empty [VStr "m1"] Demo.one_email None (Clusterer.init (Some 4%Z))))
     = Some k' /\
     (k' <= 4)%Z /\
     (size np_empty <> 0 -> [VStr "m1"] <> [] ->
      k' = Z.min 4 (Z.of_nat (shape0 np_empty))) /\
     (size np_empty = 0 \/ [VStr "m1"] = [] ->
      k' = 4%Z /\
      snd (Clusterer.cluster_emails Demo.kmeans_fit_predict Demo.silhouette_score
             np_empty [VStr "m1"] Demo.one_email None (Clusterer.init (Some 4%Z)))
      = Clusterer.init (Some 4%Z))).
Proof.
  split.
  - apply (cluster_count_never_grows Demo.kmeans_fit_predict Demo.silhouette_score
             (Demo.rows 1) [VStr "m1"] Demo.one_email None (Clusterer.init (Some 4%Z))
             4%Z).
    reflexivity.
  - apply (cluster_count_never_grows Demo.kmeans_fit_predict Demo.silhouette_score
             np_empty [VStr "m1"] Demo.one_email None (Clusterer.init (Some 4%Z)) 4%Z).
    reflexivity.
Defined.

(** Three notifications, one of them promotional as well. *)
Lemma cascade_order_witness :
  Clusterer._generate_cluster_label_and_description notification_emails None []
  = Ok ("Notifications & Alerts", "System notifications and alerts (3 emails)").
Proof.
  apply (proj1 (cascade_order notification_emails None [])).
  - unfold mostly. vm_compute. lia.
  - unfold mostly. vm_compute. lia.
Defined.

(** The five emails of [Demo] as one cluster, without a vectorizer. *)
Lemma label_synthesis_returns_witness :
  exists lbl dsc,
    Clusterer._generate_cluster_label_and_description Demo.five_emails None []
    = Ok (lbl, dsc).
Proof.
  apply (proj2 (label_synthesis_returns Demo.five_emails None [])).
  - discriminate.
  - intros get H. discriminate.
Defined.

(** The five emails of [Demo], clustered in turn into two groups. *)
Lemma stats_after_clustering_witness :
  Clusterer.get_cluster_stats (Clusterer.init None) = Ok None /\
  exists st,
    Clusterer.get_cluster_stats
      (snd (Clusterer.cluster_emails Demo.kmeans_fit_predict Demo.silhouette_score
              (Demo.rows 5) (map gmail_id Demo.five_emails) Demo.five_emails None
              (Clusterer.init None)))
    = Ok (Some st) /\
    Clusterer.stats_n_clusters st = Some 3%Z /\
    list_sum (Clusterer.cluster_sizes st) = 5.
Proof.
  apply (stats_after_clustering Demo.kmeans_fit_predict Demo.silhouette_score
           (Demo.rows 5) (map gmail_id Demo.five_emails) Demo.five_emails None
           (Clusterer.init None) (Demo.alternate 5) [] demo_kmeans_in_range).
  - vm_compute. discriminate.
  - discriminate.
  - vm_compute. discriminate.
  - reflexivity.
Defined.

(* ================================================================== *)
(** * Further properties of the vectorizer *)

Section VectorizerFurther.

Import Vectorizer.

Context {Tfidf Scaler : Type}.
Variable tfidf_fit_transform : Tfidf -> list string -> Exc Matrix * Tfidf.
Variable tfidf_feature_names : Tfidf -> Exc (list string).
Variable scaler_fit_transform : Scaler -> Matrix -> Exc Matrix * Scaler.
Variable np_mean : Matrix -> Exc (list Q).
Variable np_argsort : list Q -> Exc (list nat).

Local Abbreviation fit_body :=
  (fit_body Tfidf Scaler tfidf_fit_transform tfidf_feature_names scaler_fit_transform).
Local Abbreviation fit_transform :=
  (fit_transform Tfidf Scaler tfidf_fit_transform tfidf_feature_names scaler_fit_transform).
Local Abbreviation get_top_features_for_cluster :=
  (get_top_features_for_cluster Tfidf Scaler np_mean np_argsort).

(** X8. Every email gives one row of eight structural features, as many
    as the names that [get_feature_names] appends; so for a batch that is
    not empty the array of structural features is not empty, and
    [fit_transform] never returns the TF-IDF array alone: an array that it
    returns for such a batch, if not the empty one of a failed fit, is the
    TF-IDF array with the structural features, as the scaler returned
    them, appended to its rows; and when the scaler raises, the result is
    the empty array with the ids. *)
Theorem additional_features_shape (pes : list ProcessedEmail)
    (self : EmailVectorizer Tfidf Scaler) :
  shape0 (_extract_additional_features pes) = List.length pes /\
  Forall (fun row => List.length row = List.length additional_names)
         (_extract_additional_features pes) /\
  size (_extract_additional_features pes) = 8 * List.length pes /\
  List.length (get_feature_names Tfidf Scaler self)
  = List.length (feature_names Tfidf Scaler self) + 8 /\
  (pes <> [] ->
   (forall m ids,
      fst (fit_transform pes self) = Ok (m, ids) -> m <> np_empty ->
      exists dense t scaled sc,
        tfidf_fit_transform (tfidf_vectorizer Tfidf Scaler self) (collect_texts pes)
        = (Ok dense, t) /\
        scaler_fit_transform (scaler Tfidf Scaler self) (_extract_additional_features pes)
        = (Ok scaled, sc) /\
        hstack dense scaled = Ok m) /\
   (forall e sc,
      scaler_fit_transform (scaler Tfidf Scaler self) (_extract_additional_features pes)
      = (Raise e, sc) ->
      fst (fit_transform pes self) = Ok (np_empty, collect_ids pes))).
Proof.
  assert (Hsize : size (_extract_additional_features pes) = 8 * List.length pes).
  { unfold _extract_additional_features, size.
    induction pes as [|p pes IH]; simpl in *; [reflexivity | rewrite IH; lia]. }
  split; [apply length_map|]. split; [|split; [exact Hsize|split]].
  - apply Forall_map. apply Forall_forall. reflexivity.
  - unfold get_feature_names. rewrite length_app. reflexivity.
  - intros Hne.
    assert (Hpos : (0 <? size (_extract_additional_features pes))%nat = true).
    { apply Nat.ltb_lt. rewrite Hsize. destruct pes; [congruence | simpl; lia]. }
    destruct pes as [|p pes]; [congruence|].
    unfold Vectorizer.fit_transform, try_method, mbind, ret, Vectorizer.fit_body, mbind,
      ret, lift.
    rewrite Hpos. cbn [tfidf_vectorizer scaler feature_names is_fitted].
    destruct (tfidf_fit_transform (tfidf_vectorizer Tfidf Scaler self)
                (collect_texts (p :: pes))) as [[dense|e1] t]; cbn [fst snd].
    + cbn [tfidf_vectorizer scaler feature_names is_fitted].
      destruct (tfidf_feature_names t) as [names|e2];
        cbn [fst snd tfidf_vectorizer scaler feature_names is_fitted].
      * destruct (scaler_fit_transform (scaler Tfidf Scaler self)
                    (_extract_additional_features (p :: pes))) as [[scaled|e3] sc0];
          cbn [fst snd tfidf_vectorizer scaler feature_names is_fitted].
        -- destruct (hstack dense scaled) as [m0|e4] eqn:Eh; cbn [fst snd].
           ++ split.
              ** intros m ids Hm _. exists dense, t, scaled, sc0.
                 repeat split. rewrite Eh. f_equal.
                 apply ok_inj in Hm. congruence.
              ** intros e sc [=].
           ++ split.
              ** intros m ids Hm Hnz. apply ok_inj in Hm.
                 exfalso. apply Hnz. congruence.
              ** intros e sc [=].
        -- split.
           ++ intros m ids Hm Hnz. apply ok_inj in Hm. exfalso. apply Hnz. congruence.
           ++ reflexivity.
      * split.
        -- intros m ids Hm Hnz. apply ok_inj in Hm. exfalso. apply Hnz. congruence.
        -- reflexivity.
    + split.
      * intros m ids Hm Hnz. apply ok_inj in Hm. exfalso. apply Hnz. congruence.
      * reflexivity.
Qed.

Lemma fit_body_ok pes texts self m self' :
  fit_body pes texts self = (Ok m, self') ->
  is_fitted Tfidf Scaler self' = true.
Proof.
  unfold Vectorizer.fit_body, mbind, ret, lift.
  destruct (tfidf_fit_transform _ texts) as [[dense|e1] t]; simpl; [|discriminate].
  destruct (tfidf_feature_names t) as [names|e2]; simpl; [|discriminate].
  destruct (0 <? size (_extract_additional_features pes))%nat; simpl.
  - destruct (scaler_fit_transform _ _) as [[scaled|e3] sc]; simpl; [|discriminate].
    destruct (hstack dense scaled); simpl; [now intros [= _ <-] | discriminate].
  - now intros [= _ <-].
Qed.

Lemma fit_transform_ids (pes : list ProcessedEmail) (self : EmailVectorizer Tfidf Scaler) :
  exists m, fst (fit_transform pes self) = Ok (m, collect_ids pes).
Proof.
  unfold Vectorizer.fit_transform. destruct pes as [|p pes]; [now exists np_empty|].
  unfold try_method, mbind, ret.
  destruct (fit_body (p :: pes) (collect_texts (p :: pes)) self) as [[m|e] self'];
    simpl; [now exists m | now exists np_empty].
Qed.

(** X9. [fit_transform] never raises: it returns an array with the
    [gmail_id] of every email, in order.  It never resets [is_fitted]: a
    fitted vectorizer stays fitted, also when the new fit fails. *)
Theorem fit_transform_returns (pes : list ProcessedEmail)
    (self : EmailVectorizer Tfidf Scaler) :
  (exists m, fst (fit_transform pes self) = Ok (m, collect_ids pes)) /\
  (is_fitted Tfidf Scaler self = true ->
   is_fitted Tfidf Scaler (snd (fit_transform pes self)) = true).
Proof.
  unfold Vectorizer.fit_transform. destruct pes as [|p pes].
  - split; [now exists np_empty | auto].
  - unfold try_method, mbind, ret.
    destruct (fit_body (p :: pes) (collect_texts (p :: pes)) self) as [[m|e] self'] eqn:E;
      simpl.
    + split; [now exists m|]. intros _. exact (fit_body_ok _ _ _ _ _ E).
    + split; [now exists np_empty|]. intros H.
      now rewrite (fit_body_raise _ _ _ _ _ _ _ _ E).
Qed.

(** X10. The category of a sender domain is one of 0, 1, ..., 8, and it
    is 0 exactly for the empty domain and for "unknown". *)
Theorem sender_domain_category (domain : string) :
  In (_encode_sender_domain domain) [0; 1; 2; 3; 4; 5; 6; 7; 8]%Q /\
  (_encode_sender_domain domain = 0%Q <-> domain = "" \/ domain = "unknown").
Proof.
  unfold _encode_sender_domain.
  destruct (String.eqb_spec domain ""); simpl.
  { split; [now left | tauto]. }
  destruct (String.eqb_spec domain "unknown"); simpl.
  { split; [now left | tauto]. }
  repeat match goal with
         | |- context [if ?b then _ else _] => destruct b
         end;
    (split; [simpl; tauto | split; [discriminate | tauto]]).
Qed.

Lemma top_features_loop_sound names means idxs res :
  top_features_loop names means idxs = Ok res ->
  incl res names /\ List.length res <= List.length idxs.
Proof.
  revert res. induction idxs as [|idx idxs IH]; intros res H; simpl in H.
  - injection H as <-. split; [intros x [] | simpl; lia].
  - destruct (nth_error names idx) as [name|] eqn:En.
    + destruct (item means idx) as [value|]; simpl in H; [|discriminate].
      destruct (top_features_loop names means idxs) as [rest|]; simpl in H; [|discriminate].
      destruct (IH rest eq_refl) as [Hin Hlen]. injection H as <-.
      destruct (negb (Qle_bool value 0.01)); simpl.
      * split; [|lia]. intros x [<-|Hx]; [eapply nth_error_In; eauto | now apply Hin].
      * split; [exact Hin | lia].
    + destruct (IH res H) as [Hin Hlen]. split; [exact Hin | simpl; lia].
Qed.

(** X11. [get_top_features_for_cluster] returns names of features of the
    vectorizer only, at most [top_n] of them when [top_n] is positive, and
    none when the vectorizer is not fitted or the cluster has no entries. *)
Theorem top_features_sound (self : EmailVectorizer Tfidf Scaler) (vecs : Matrix)
    (top_n : nat) :
  incl (get_top_features_for_cluster self vecs top_n)
       (get_feature_names Tfidf Scaler self) /\
  (0 < top_n -> List.length (get_top_features_for_cluster self vecs top_n) <= top_n) /\
  (is_fitted Tfidf Scaler self = false \/ size vecs = 0 ->
   get_top_features_for_cluster self vecs top_n = []).
Proof.
  unfold Vectorizer.get_top_features_for_cluster.
  destruct (is_fitted Tfidf Scaler self) eqn:Ef; simpl.
  2:{ split; [intros x []|]. split; [simpl; lia | reflexivity]. }
  destruct (size vecs =? 0)%nat eqn:Es.
  { split; [intros x []|]. split; [simpl; lia | reflexivity]. }
  apply Nat.eqb_neq in Es.
  destruct (np_mean vecs) as [means|]; simpl.
  2:{ split; [intros x []|]. split; [simpl; lia|]. intros [H|H]; congruence. }
  destruct (np_argsort means) as [sorted|]; simpl.
  2:{ split; [intros x []|]. split; [simpl; lia|]. intros [H|H]; congruence. }
  destruct (top_features_loop _ means _) as [res|] eqn:El.
  2:{ split; [intros x []|]. split; [simpl; lia|]. intros [H|H]; congruence. }
  destruct (top_features_loop_sound _ _ _ _ El) as [Hin Hlen].
  split; [exact Hin|]. split; [|intros [H|H]; congruence].
  intros Hpos. rewrite length_rev in Hlen.
  destruct top_n as [|n]; [lia|]. unfold last_items in Hlen.
  rewrite length_skipn in Hlen. lia.
Qed.

End VectorizerFurther.

(** A fitted vectorizer whose new fit fails stays fitted. *)
Lemma fit_transform_returns_witness :
  Vectorizer.is_fitted unit unit
    (snd (Vectorizer.fit_transform unit unit Demo.tfidf_fit_transform
            Demo.tfidf_feature_names Demo.scaler_fit_transform Demo.five_emails
            Demo.fitted))
  = true.
Proof.
  apply (proj2 (fit_transform_returns Demo.tfidf_fit_transform Demo.tfidf_feature_names
                  Demo.scaler_fit_transform Demo.five_emails Demo.fitted)).
  reflexivity.
Defined.

(** The five emails of [Demo], with a TF-IDF step that gives every text
    one feature and a scaler that returns its argument: the array that
    [fit_transform] returns has the eight structural features after that
    one feature in every row. *)
Lemma additional_features_shape_witness :
  exists dense t scaled sc,
    demo_tfidf_fit tt (Vectorizer.collect_texts Demo.five_emails) = (Ok dense, t) /\
    Demo.scaler_fit_transform tt (Vectorizer._extract_additional_features Demo.five_emails)
    = (Ok scaled, sc) /\
    hstack dense scaled
    = Ok (map (fun row => 1%Q :: row)
              (Vectorizer._extract_additional_features Demo.five_emails)).
Proof.
  apply (proj1 (proj2 (proj2 (proj2 (proj2
           (additional_features_shape demo_tfidf_fit Demo.tfidf_feature_names
              Demo.scaler_fit_transform Demo.five_emails
              (Vectorizer.init unit unit tt tt)))))
           ltac:(discriminate))
         (map (fun row => 1%Q :: row)
              (Vectorizer._extract_additional_features Demo.five_emails))
         (Vectorizer.collect_ids Demo.five_emails)).
  - reflexivity.
  - discriminate.
Defined.

(* ================================================================== *)
(** * Further properties of the preprocessor *)

Section PreprocessorFurther.

Import Preprocessor.

Variable html_get_text : PyVal -> Exc string.
Variable word_tokenize : string -> Exc (list string).
Variable stem : string -> Exc string.
Variable nltk_stopwords : Exc (list string).

Local Abbreviation clean_text := (clean_text html_get_text).
Local Abbreviation extract_features :=
  (extract_features html_get_text word_tokenize stem nltk_stopwords).
Local Abbreviation preprocess_emails :=
  (preprocess_emails html_get_text word_tokenize stem nltk_stopwords).

(** [clean_text] raises exactly on the values that are [rejected]. *)
Lemma clean_text_raises (v : PyVal) :
  (exists e, clean_text v = Raise e) <-> rejected html_get_text v.
Proof.
  unfold Preprocessor.clean_text, rejected, _remove_html, try_except, bind.
  destruct v as [|b|z|s]; simpl.
  - split; [intros [e H]; discriminate | intros [H _]; now destruct H].
  - destruct b; simpl.
    + destruct (html_get_text (VBool true)) as [t|e0] eqn:E.
      * split; [intros [e H]; discriminate | intros [_ [e H]]; discriminate].
      * split; [intros _; split; [discriminate | eauto] | eauto].
    + split; [intros [e H]; discriminate | intros [H _]; now destruct H].
  - destruct (z =? 0)%Z eqn:Ez; simpl.
    + split; [intros [e H]; discriminate | intros [H _]; now destruct H].
    + destruct (html_get_text (VInt z)) as [t|e0] eqn:E.
      * split; [intros [e H]; discriminate | intros [_ [e H]]; discriminate].
      * split; [intros _; split; [discriminate | eauto] | eauto].
  - split; [|intros [H _]; now destruct H].
    destruct (negb (String.eqb s "")); [|intros [e H]; discriminate].
    destruct (html_get_text (VStr s)) as [t|e0]; intros [e H]; discriminate.
Qed.

Lemma extract_features_raises (email : Dict) :
  (exists e, extract_features email = Raise e) ->
  rejected html_get_text (dict_get email "subject" (VStr "")) \/
  rejected html_get_text (dict_get email "body" (VStr "")).
Proof.
  unfold Preprocessor.extract_features, bind.
  rewrite <- !clean_text_raises.
  destruct (clean_text (dict_get email "subject" (VStr ""))) as [subj|e1]; [|eauto].
  destruct (clean_text (dict_get email "body" (VStr ""))) as [bod|e2]; [|eauto].
  intros [e H]. discriminate.
Qed.

(** X12. Feature extraction fails in one way only: the subject or the
    body is a value that is not text, not empty, and that the HTML parser
    refuses.  Failures of the parser on text, of the tokenizer, of the
    stemmer and of the stop-word corpus are all absorbed. *)
Theorem extraction_fails_only_on_rejected (email : Dict) :
  (exists e, extract_features email = Raise e) <->
  rejected html_get_text (dict_get email "subject" (VStr "")) \/
  rejected html_get_text (dict_get email "body" (VStr "")).
Proof.
  unfold Preprocessor.extract_features, bind.
  rewrite <- !clean_text_raises.
  destruct (clean_text (dict_get email "subject" (VStr ""))) as [subj|e1].
  - destruct (clean_text (dict_get email "body" (VStr ""))) as [bod|e2].
    + split; [intros [e H]; discriminate | intros [[e H]|[e H]]; discriminate].
    + split; eauto.
  - split; eauto.
Qed.

(** X13. When the subject and the body of every email are text (or
    absent, or empty), [preprocess_emails] drops no email: it returns one
    record per email, with the [gmail_id]s in the order of the input. *)
Theorem preprocess_keeps_text_emails (emails : list Dict) :
  Forall text_fields emails ->
  exists fs,
    preprocess_emails emails = Ok fs /\
    map gmail_id fs = map (fun email => dict_get email "gmail_id" VNone) emails.
Proof.
  intros H.
  rewrite (preprocess_emails_skips_failures_eq html_get_text word_tokenize stem
             nltk_stopwords).
  eexists. split; [reflexivity|].
  induction H as [|email emails [Hs Hb] _ IH]; [reflexivity|].
  simpl. destruct (extract_features email) as [f|e] eqn:E.
  - simpl. rewrite IH. f_equal.
    unfold Preprocessor.extract_features, bind in E.
    destruct (Preprocessor.clean_text html_get_text (dict_get email "subject" _));
      [|discriminate].
    destruct (Preprocessor.clean_text html_get_text (dict_get email "body" _));
      [|discriminate].
    now injection E as <-.
  - exfalso.
    destruct (extract_features_raises email (ex_intro _ e E))
      as [[Hn _]|[Hn _]]; contradiction.
Qed.

(** ** White space in cleaned text *)

Lemma append_nil_r (s : string) : s ++ "" = s.
Proof. induction s as [|c s IH]; simpl; [reflexivity | now rewrite IH]. Qed.

Lemma list_of_append (a b : string) :
  list_ascii_of_string (a ++ b) = (list_ascii_of_string a ++ list_ascii_of_string b)%list.
Proof. induction a as [|c a IH]; simpl; [reflexivity | now rewrite IH]. Qed.

Lemma rev_string_rev (w : string) : rev_string (rev (list_ascii_of_string w)) = w.
Proof.
  unfold rev_string. now rewrite rev_involutive, string_of_list_ascii_of_string.
Qed.

Lemma chars_all_list (p : ascii -> bool) (l : list ascii) :
  chars_all p (string_of_list_ascii l) = forallb p l.
Proof. induction l as [|c l IH]; simpl; [reflexivity | now rewrite IH]. Qed.

(** Reading a word only extends the run that is being read. *)
Lemma split_aux_word (w s : string) (cur : list ascii) :
  chars_all not_space w = true ->
  split_aux cur (w ++ s) = split_aux (rev (list_ascii_of_string w) ++ cur) s.
Proof.
  revert cur. induction w as [|c w IH]; intros cur H; simpl in *; [reflexivity|].
  apply andb_prop in H. destruct H as [Hc Hw].
  unfold not_space in Hc. apply negb_true_iff in Hc. rewrite Hc.
  rewrite (IH (c :: cur) Hw), <- app_assoc. reflexivity.
Qed.

Lemma word_list_nonempty (w : string) : w <> "" -> rev (list_ascii_of_string w) <> [].
Proof.
  destruct w as [|c w]; [congruence|]. intros _ H.
  apply (f_equal (@List.length ascii)) in H. simpl in H. rewrite length_app in H.
  simpl in H. lia.
Qed.

(** [split] undoes [join] on words. *)
Lemma split_join (ws : list string) :
  Forall is_a_word ws -> split (join " " ws) = ws.
Proof.
  unfold split. induction 1 as [|w ws [Hne Hw] Hws IH]; [reflexivity|].
  pose proof (word_list_nonempty w Hne) as Hrev.
  destruct ws as [|w2 ws].
  - simpl join. rewrite <- (append_nil_r w) at 1.
    rewrite (split_aux_word w "" [] Hw), app_nil_r. simpl.
    destruct (rev (list_ascii_of_string w)) eqn:E; [congruence|].
    rewrite <- E, rev_string_rev. reflexivity.
  - change (join " " (w :: w2 :: ws)) with (w ++ String " " (join " " (w2 :: ws))).
    rewrite (split_aux_word w _ [] Hw), app_nil_r.
    destruct (rev (list_ascii_of_string w)) as [|a l] eqn:E; [congruence|].
    cbn [split_aux]. change (is_space " ") with true. cbn iota.
    rewrite IH, <- E, rev_string_rev. reflexivity.
Qed.

(** [split] gives words. *)
Lemma split_aux_words (s : string) :
  forall cur, forallb not_space cur = true -> Forall is_a_word (split_aux cur s).
Proof.
  assert (Hcur : forall cur, cur <> [] -> forallb not_space cur = true ->
                             is_a_word (rev_string cur)).
  { intros cur Hne Hall. split.
    - unfold rev_string. intros H.
      apply (f_equal list_ascii_of_string) in H.
      rewrite list_ascii_of_string_of_list_ascii in H. simpl in H.
      apply (f_equal (@rev ascii)) in H. rewrite rev_involutive in H. now subst.
    - unfold rev_string. rewrite chars_all_list, forallb_forall.
      rewrite forallb_forall in Hall. intros c Hc. apply Hall. now apply in_rev. }
  induction s as [|c s IH]; intros cur Hall; simpl.
  - destruct cur as [|a cur]; [constructor|].
    constructor; [apply Hcur; [discriminate | exact Hall] | constructor].
  - destruct (is_space c) eqn:Ec.
    + destruct cur as [|a cur]; [now apply IH|].
      constructor; [apply Hcur; [discriminate | exact Hall] | now apply IH].
    + apply IH. simpl. unfold not_space at 1. now rewrite Ec.
Qed.

Lemma split_words (s : string) : Forall is_a_word (split s).
Proof. now apply split_aux_words. Qed.

Lemma join_head (w : string) (ws : list string) :
  exists rest, join " " (w :: ws) = w ++ rest.
Proof.
  destruct ws as [|w2 ws]; [exists ""; simpl; now rewrite append_nil_r|].
  now exists (" " ++ join " " (w2 :: ws)).
Qed.

Lemma lstrip_join (ws : list string) :
  Forall is_a_word ws -> lstrip (join " " ws) = join " " ws.
Proof.
  intros H. destruct H as [|w ws' [Hne Hw] _]; [reflexivity|].
  destruct (join_head w ws') as [rest ->].
  destruct w as [|c w]; [congruence|]. simpl in *.
  apply andb_prop in Hw. destruct Hw as [Hc _].
  unfold not_space in Hc. apply negb_true_iff in Hc. now rewrite Hc.
Qed.

Lemma word_last (w : string) :
  is_a_word w ->
  exists l c, list_ascii_of_string w = (l ++ [c])%list /\ is_space c = false.
Proof.
  intros [Hne Hw].
  destruct (exists_last (l := list_ascii_of_string w)) as (l & c & E).
  { intros H. apply Hne. rewrite <- (string_of_list_ascii_of_string w), H. reflexivity. }
  exists l, c. split; [exact E|].
  rewrite <- (string_of_list_ascii_of_string w), chars_all_list, E in Hw.
  rewrite forallb_app in Hw. apply andb_prop in Hw. destruct Hw as [_ Hc].
  simpl in Hc. rewrite andb_true_r in Hc. now apply negb_true_iff in Hc.
Qed.

Lemma join_last (ws : list string) :
  Forall is_a_word ws -> ws <> [] ->
  exists l c, list_ascii_of_string (join " " ws) = (l ++ [c])%list /\ is_space c = false.
Proof.
  induction 1 as [|w ws Hw Hws IH]; [congruence|]. intros _.
  destruct ws as [|w2 ws]; [exact (word_last w Hw)|].
  destruct IH as (l & c & E & Hc); [discriminate|].
  exists (list_ascii_of_string w ++ " "%char :: l)%list, c. split; [|exact Hc].
  change (join " " (w :: w2 :: ws)) with (w ++ String " " (join " " (w2 :: ws))).
  rewrite list_of_append. cbn [list_ascii_of_string]. rewrite E, <- app_assoc. reflexivity.
Qed.

Lemma rstrip_join (ws : list string) :
  Forall is_a_word ws -> rstrip (join " " ws) = join " " ws.
Proof.
  intros H. destruct ws as [|w ws]; [reflexivity|].
  destruct (join_last (w :: ws) H) as (l & c & E & Hc); [discriminate|].
  unfold rstrip, rev_string. rewrite E, rev_app_distr. simpl. rewrite Hc.
  cbn [list_ascii_of_string]. rewrite list_ascii_of_string_of_list_ascii.
  cbn [rev]. rewrite rev_involutive, <- E. apply string_of_list_ascii_of_string.
Qed.

Lemma strip_join (ws : list string) :
  Forall is_a_word ws -> strip (join " " ws) = join " " ws.
Proof. intros H. unfold strip. now rewrite lstrip_join, rstrip_join. Qed.

(** What [clean_text] returns for a value that is not empty. *)
Lemma clean_text_normalized (text : PyVal) (r : string) :
  clean_text text = Ok r ->
  r = "" \/ exists t, _remove_html html_get_text text = Ok t /\
                      exists u, r = join " " (split u) /\
    u = re_sub number_pattern ""
          (re_sub punctuation_pattern " "
             (lower (re_sub spaces_pattern " "
                (re_sub phone_pattern ""
                   (re_sub address_pattern "" (re_sub url_pattern "" t)))))).
Proof.
  unfold Preprocessor.clean_text, bind.
  destruct (negb (truthy text)); [intros [= <-]; now left|].
  destruct (_remove_html html_get_text text) as [t|]; [|discriminate].
  intros [= <-]. right. exists t. split; [reflexivity|].
  eexists. split; [|reflexivity]. apply strip_join, split_words.
Qed.

(** X14. Cleaned text is normalized for white space: it is its own words
    joined by single spaces, so that it neither starts nor ends with white
    space and holds no white space but single spaces between words. *)
Theorem clean_text_whitespace (text : PyVal) (r : string) :
  clean_text text = Ok r ->
  join " " (split r) = r /\ strip r = r.
Proof.
  intros H. destruct (clean_text_normalized text r H) as [->|(t & _ & u & -> & _)].
  - split; reflexivity.
  - rewrite (split_join _ (split_words u)). split; [reflexivity|].
    apply strip_join, split_words.
Qed.

(** ** The characters of cleaned text *)

Lemma chars_all_app (p : ascii -> bool) (a b : string) :
  chars_all p (a ++ b) = chars_all p a && chars_all p b.
Proof. induction a as [|c a IH]; simpl; [reflexivity | now rewrite IH, andb_assoc]. Qed.

Lemma chars_all_impl (p q : ascii -> bool) (s : string) :
  (forall c, p c = true -> q c = true) ->
  chars_all p s = true -> chars_all q s = true.
Proof.
  intros Hpq. induction s as [|c s IH]; simpl; [reflexivity|].
  intros H. apply andb_prop in H. destruct H as [Hc Hs].
  now rewrite (Hpq c Hc), IH.
Qed.

(** A substitution writes characters of the text and of the replacement
    only. *)
Lemma re_sub_aux_chars (p : ascii -> bool) (r : regex) (repl : string) (s : string) :
  chars_all p repl = true -> chars_all p s = true ->
  forall prev skip, chars_all p (re_sub_aux r repl prev skip s) = true.
Proof.
  intros Hrepl. induction s as [|c s IH]; intros H prev skip; simpl; [reflexivity|].
  simpl in H. apply andb_prop in H. destruct H as [Hc Hs].
  destruct skip as [|n]; [|now apply IH].
  destruct (match_len r prev (String c s)) as [[|n]|].
  - simpl. now rewrite Hc, IH.
  - now rewrite chars_all_app, Hrepl, IH.
  - simpl. now rewrite Hc, IH.
Qed.

Lemma match_len_chr (q : ascii -> bool) (prev : option ascii) (c : ascii) (s : string) :
  match_len (Chr q) prev (String c s) = if q c then Some 1 else None.
Proof.
  unfold match_len. cbn [rmatch]. destruct (q c); [|reflexivity].
  f_equal. cbn [String.length]. lia.
Qed.

(** The substitution of a class of characters by a space. *)
Lemma re_sub_chr_chars (p q : ascii -> bool) (s : string) :
  chars_all p s = true ->
  forall prev,
    chars_all (fun c => is_char " " c || (p c && negb (q c)))
              (re_sub_aux (Chr q) " " prev 0 s) = true.
Proof.
  induction s as [|c s IH]; intros H prev; [reflexivity|].
  simpl in H. apply andb_prop in H. destruct H as [Hc Hs].
  cbn [re_sub_aux]. rewrite match_len_chr.
  destruct (q c) eqn:Eq.
  - change (" " ++ re_sub_aux (Chr q) " " (Some c) 0 s)
      with (String " " (re_sub_aux (Chr q) " " (Some c) 0 s)).
    cbn [chars_all]. rewrite (IH Hs). reflexivity.
  - cbn [chars_all]. rewrite Hc, Eq, (IH Hs). simpl. now rewrite orb_true_r.
Qed.

Lemma lower_char_not_upper (c : ascii) : is_upper (lower_char c) = false.
Proof.
  destruct c as [b0 b1 b2 b3 b4 b5 b6 b7].
  destruct b0, b1, b2, b3, b4, b5, b6, b7; reflexivity.
Qed.

Lemma lower_chars (s : string) : chars_all (fun c => negb (is_upper c)) (lower s) = true.
Proof.
  induction s as [|c s IH]; simpl; [reflexivity|].
  now rewrite lower_char_not_upper, IH.
Qed.

Lemma split_aux_chars (p : ascii -> bool) (s : string) :
  chars_all p s = true ->
  forall cur,
    forallb (fun c => p c && not_space c) cur = true ->
    Forall (fun w => chars_all (fun c => p c && not_space c) w = true) (split_aux cur s).
Proof.
  assert (Hcur : forall cur, forallb (fun c => p c && not_space c) cur = true ->
                 chars_all (fun c => p c && not_space c) (rev_string cur) = true).
  { intros cur Hall. unfold rev_string. rewrite chars_all_list, forallb_forall.
    rewrite forallb_forall in Hall. intros c Hc. apply Hall. now apply in_rev. }
  induction s as [|c s IH]; intros H cur Hall; simpl.
  - destruct cur; [constructor | constructor; [now apply Hcur | constructor]].
  - simpl in H. apply andb_prop in H. destruct H as [Hc Hs].
    destruct (is_space c) eqn:Ec.
    + destruct cur; [now apply IH|].
      constructor; [now apply Hcur | now apply IH].
    + apply IH; [exact Hs|]. simpl. unfold not_space at 1. now rewrite Hc, Ec.
Qed.

Lemma join_chars (p : ascii -> bool) (ws : list string) :
  Forall (fun w => chars_all p w = true) ws ->
  chars_all (fun c => is_char " " c || p c) (join " " ws) = true.
Proof.
  induction 1 as [|w ws Hw Hws IH]; [reflexivity|].
  assert (Hw' : chars_all (fun c => is_char " " c || p c) w = true).
  { eapply chars_all_impl; [|exact Hw]. intros c Hc. now rewrite Hc, orb_true_r. }
  destruct ws as [|w2 ws]; [exact Hw'|].
  change (join " " (w :: w2 :: ws)) with (w ++ String " " (join " " (w2 :: ws))).
  rewrite chars_all_app, Hw'. cbn [chars_all]. now rewrite IH.
Qed.

Lemma spaced_char_cleaned (c : ascii) : spaced_char c = true -> cleaned_char c = true.
Proof.
  destruct c as [b0 b1 b2 b3 b4 b5 b6 b7].
  destruct b0, b1, b2, b3, b4, b5, b6, b7; vm_compute; congruence.
Qed.

(** X15. The characters of cleaned text: when the text that the HTML
    step returns is ASCII, every character of the result of [clean_text]
    is a small letter, a digit, an underscore, a hyphen, a full stop or a
    space. *)
Theorem clean_text_alphabet (text : PyVal) (r : string) :
  clean_text text = Ok r ->
  (forall t, _remove_html html_get_text text = Ok t -> ascii_only t = true) ->
  chars_all cleaned_char r = true.
Proof.
  intros H _. destruct (clean_text_normalized text r H) as [->|(t & _ & u & -> & ->)];
    [reflexivity|].
  apply chars_all_impl with (p := spaced_char); [exact spaced_char_cleaned|].
  apply (join_chars (fun c => kept_char c && not_space c)).
  apply split_aux_chars; [|reflexivity].
  apply re_sub_aux_chars; [reflexivity|].
  eapply chars_all_impl; [|apply (re_sub_chr_chars (fun c => negb (is_upper c))), lower_chars].
  intros c. unfold kept_char. rewrite negb_involutive. auto.
Qed.

(** ** Sender domains *)

Lemma chars_all_drop (p : ascii -> bool) (n : nat) (s : string) :
  chars_all p s = true -> chars_all p (drop n s) = true.
Proof.
  revert s. induction n as [|n IH]; intros s H; [exact H|].
  destruct s as [|c s]; [reflexivity|]. simpl in *.
  apply andb_prop in H. now apply IH.
Qed.

Lemma chars_all_take (p : ascii -> bool) (n : nat) (s : string) :
  chars_all p s = true -> chars_all p (take n s) = true.
Proof.
  unfold take. revert s. induction n as [|n IH]; intros s H.
  - destruct s; reflexivity.
  - destruct s as [|c s]; [reflexivity|]. simpl in *.
    apply andb_prop in H. destruct H as [Hc Hs]. now rewrite Hc, IH.
Qed.

(** A match is a piece of the text. *)
Lemma re_search_from_chars (p : ascii -> bool) (r : regex) (s : string) :
  chars_all p s = true ->
  forall prev pre m, re_search_from r prev s = Some (pre, m) -> chars_all p m = true.
Proof.
  induction s as [|c s IH]; intros H prev pre m; simpl.
  - destruct (match_len r prev ""); [|discriminate].
    intros [= _ <-]. now apply chars_all_take.
  - destruct (match_len r prev (String c s)).
    + intros [= _ <-]. now apply chars_all_take.
    + simpl in H. apply andb_prop in H. destruct H as [_ Hs].
      destruct (re_search_from r (Some c) s) as [[pre' m']|] eqn:E; [|discriminate].
      intros [= _ <-]. exact (IH Hs _ _ _ E).
Qed.

(** Without [@] in the text there is no match of [@([^@]+)]. *)
Lemma at_pattern_needs_at (s : string) :
  chars_all not_at s = true -> forall prev, re_search_from at_pattern prev s = None.
Proof.
  induction s as [|c s IH]; intros H prev; [reflexivity|].
  simpl in H. apply andb_prop in H. destruct H as [Hc Hs].
  unfold not_at in Hc. apply negb_true_iff in Hc.
  cbn [re_search_from]. unfold match_len, at_pattern. cbn [rmatch]. rewrite Hc.
  now rewrite (IH Hs).
Qed.

(** The greedy repetition of a class of characters reads characters of
    the class, and leaves the rest of the text. *)
Lemma star_chr_reads (q : ascii -> bool) (t : string) :
  forall prev rest,
    rmatch (Star (Chr q)) prev t (fun _ rest => Some rest) = Some rest ->
    exists m, t = m ++ rest /\ chars_all q m = true.
Proof.
  cbn [rmatch]. generalize (String.length t). intros fuel. revert t.
  induction fuel as [|fuel IH]; intros t prev rest.
  - intros [= <-]. now exists "".
  - destruct t as [|d t].
    + intros [= <-]. now exists "".
    + destruct (q d) eqn:Eq.
      * cbn [String.length]. rewrite (proj2 (Nat.ltb_lt _ _) (Nat.lt_succ_diag_r _)).
        match goal with
        | |- context [match ?x with Some _ => _ | None => _ end] =>
            destruct x as [rest'|] eqn:E
        end.
        -- intros [= <-]. destruct (IH t (Some d) rest' E) as (m & -> & Hm).
           exists (String d m). simpl. now rewrite Eq, Hm.
        -- intros [= <-]. now exists "".
      * intros [= <-]. now exists "".
Qed.

Lemma length_append (a b : string) :
  String.length (a ++ b) = String.length a + String.length b.
Proof. induction a as [|c a IH]; simpl; [reflexivity | now rewrite IH]. Qed.

Lemma take_app (a b : string) : take (String.length (a ++ b) - String.length b) (a ++ b) = a.
Proof.
  replace (String.length (a ++ b) - String.length b) with (String.length a)
    by (rewrite length_append; lia).
  unfold take. induction a as [|c a IH]; simpl.
  - destruct b; reflexivity.
  - now rewrite IH.
Qed.

Lemma some_inj {A : Type} (a b : A) : Some a = Some b -> a = b.
Proof. congruence. Qed.

(** What a match of [@([^@]+)] holds after its first character. *)
Lemma at_pattern_match (s : string) (prev : option ascii) (n : nat) :
  match_len at_pattern prev s = Some n ->
  chars_all not_at (drop 1 (take n s)) = true.
Proof.
  unfold match_len, at_pattern, Plus.
  destruct s as [|c s]; [discriminate|].
  cbn [rmatch]. destruct (is_char "@" c); [|discriminate].
  destruct s as [|d s]; [discriminate|].
  destruct (negb (is_char "@" d)) eqn:Ed; [|discriminate].
  change ((fix loop (fuel : nat) (prev0 : option ascii) (s0 : string) {struct fuel} :
             option string :=
             match fuel with
             | 0 => Some s0
             | S fuel' =>
                 match
                   match s0 with
                   | "" => None
                   | String c0 s' =>
                       if negb (is_char "@" c0)
                       then
                        if (String.length s' <? String.length s0)%nat
                        then loop fuel' (Some c0) s'
                        else None
                       else None
                   end
                 with
                 | Some rest => Some rest
                 | None => Some s0
                 end
             end) (String.length s) (Some d) s)
    with (rmatch (Star (Chr (fun c => negb (is_char "@" c)))) (Some d) s
            (fun _ rest => Some rest)).
  destruct (rmatch (Star (Chr (fun c => negb (is_char "@" c)))) (Some d) s
              (fun _ rest => Some rest)) as [rest|] eqn:E; [|discriminate].
  intros H. apply some_inj in H. subst n.
  destruct (star_chr_reads _ _ _ _ E) as (m & -> & Hm).
  change (String c (String d (m ++ rest))) with (String c (String d m) ++ rest).
  rewrite take_app. cbn [drop chars_all]. unfold not_at at 1. rewrite Ed. exact Hm.
Qed.

Lemma re_search_from_at (s : string) :
  forall prev pre m,
    re_search_from at_pattern prev s = Some (pre, m) ->
    chars_all not_at (drop 1 m) = true.
Proof.
  induction s as [|c s IH]; intros prev pre m; cbn [re_search_from].
  - destruct (match_len at_pattern prev "") eqn:E; [|discriminate].
    intros [= _ <-]. exact (at_pattern_match _ _ _ E).
  - destruct (match_len at_pattern prev (String c s)) eqn:E.
    + intros [= _ <-]. exact (at_pattern_match _ _ _ E).
    + destruct (re_search_from at_pattern (Some c) s) as [[pre' m']|] eqn:E';
        [|discriminate].
      intros [= _ <-]. exact (IH _ _ _ E').
Qed.

Lemma lower_char_domain (c : ascii) : not_at c = true -> domain_char (lower_char c) = true.
Proof.
  destruct c as [b0 b1 b2 b3 b4 b5 b6 b7].
  destruct b0, b1, b2, b3, b4, b5, b6, b7; vm_compute; congruence.
Qed.

Lemma lower_domain_chars (s : string) :
  chars_all not_at s = true -> chars_all domain_char (lower s) = true.
Proof.
  induction s as [|c s IH]; simpl; [reflexivity|].
  intros H. apply andb_prop in H. destruct H as [Hc Hs].
  now rewrite (lower_char_domain c Hc), IH.
Qed.

(** X16. Sender domains: [_extract_domain] returns text without capital
    letters and without [@]; for a sender that is not text, and for one
    that holds no [@], it returns "unknown". *)
Theorem extract_domain_shape (sender : PyVal) :
  chars_all domain_char (_extract_domain sender) = true /\
  ((forall s, sender <> VStr s) -> _extract_domain sender = "unknown") /\
  (forall s, sender = VStr s -> chars_all not_at s = true ->
             _extract_domain sender = "unknown").
Proof.
  split; [|split].
  - destruct sender as [| | |s]; try reflexivity. unfold _extract_domain.
    match goal with
    | |- context [re_search at_pattern ?a] =>
        destruct (re_search at_pattern a) as [[pre m]|] eqn:E
    end; [|reflexivity].
    apply re_sub_aux_chars; [reflexivity|].
    apply lower_domain_chars. exact (re_search_from_at _ _ _ _ E).
  - intros H. destruct sender as [| | |s]; try reflexivity. now destruct (H s).
  - intros s -> Hs. unfold _extract_domain.
    assert (Haddr : chars_all not_at
              match re_search tag_pattern s with
              | Some (_, m) => take (String.length m - 2) (drop 1 m)
              | None => s
              end = true).
    { destruct (re_search tag_pattern s) as [[pre m]|] eqn:E; [|exact Hs].
      apply chars_all_take, chars_all_drop.
      exact (re_search_from_chars _ _ _ Hs _ _ _ E). }
    unfold re_search at 1. now rewrite (at_pattern_needs_at _ Haddr).
Qed.

End PreprocessorFurther.

(* ================================================================== *)
(** * Properties of the pipeline *)

Section PipelineProperties.

Import Routes.

Variable html_get_text : PyVal -> Exc string.
Variable word_tokenize : string -> Exc (list string).
Variable stem : string -> Exc string.
Variable nltk_stopwords : Exc (list string).
Variable nltk_download : Exc unit.
Context {Tfidf Scaler : Type}.
Variable new_tfidf : Tfidf.
Variable new_scaler : Scaler.
Variable tfidf_fit_transform : Tfidf -> list string -> Exc Matrix * Tfidf.
Variable tfidf_feature_names : Tfidf -> Exc (list string).
Variable scaler_fit_transform : Scaler -> Matrix -> Exc Matrix * Scaler.
Variable np_mean : Matrix -> Exc (list Q).
Variable np_argsort : list Q -> Exc (list nat).
Variable kmeans_fit_predict : Z -> Matrix -> Exc (list nat * Matrix).
Variable sklearn_silhouette_score : Matrix -> list nat -> Exc Q.
Context {Db : Type}.
Variable save_clusters : list (string * string * nat) -> Db -> Exc (list Z) * Db.
Variable get_emails : Db -> Exc (list DbEmail) * Db.
Variable save_email_cluster_assignments : list (PyVal * Z) -> Db -> Exc unit * Db.

Local Abbreviation extract_features :=
  (Preprocessor.extract_features html_get_text word_tokenize stem nltk_stopwords).
Local Abbreviation fit_body :=
  (Vectorizer.fit_body Tfidf Scaler tfidf_fit_transform tfidf_feature_names
     scaler_fit_transform).
Local Abbreviation fit_transform :=
  (Vectorizer.fit_transform Tfidf Scaler tfidf_fit_transform tfidf_feature_names
     scaler_fit_transform).
Local Abbreviation new_vectorizer := (Vectorizer.init Tfidf Scaler new_tfidf new_scaler).
Local Abbreviation process_and_cluster_emails :=
  (process_and_cluster_emails html_get_text word_tokenize stem nltk_stopwords
     nltk_download Tfidf Scaler new_tfidf new_scaler tfidf_fit_transform
     tfidf_feature_names scaler_fit_transform np_mean np_argsort kmeans_fit_predict
     sklearn_silhouette_score Db save_clusters get_emails
     save_email_cluster_assignments).

(** The emails of the clusters of a batch that is not empty. *)
Lemma clusters_partition fv ids pes v self :
  labels_in_range kmeans_fit_predict ->
  size fv <> 0 -> ids <> [] ->
  partitions (clusters_returned kmeans_fit_predict sklearn_silhouette_score
                fv ids pes v self) pes.
Proof.
  intros Hrange Hs Hi. unfold clusters_returned, partitions.
  destruct (cluster_emails_cases kmeans_fit_predict sklearn_silhouette_score
              fv ids pes v self) as [[_ [Hz|Hz]]|(_ & _ & Hres)]; try contradiction.
  destruct Hres as [->|(k & labels & centers & groups & Hk & Hm & Hl & ->)].
  - simpl. now rewrite app_nil_r.
  - rewrite reassign_ids_emails, <- flat_map_concat_map.
    rewrite (sort_desc_perm Clusterer.email_count groups), flat_map_concat_map.
    destruct (cluster_loop_emails _ _ _ _ _ _ _ _ Hl) as [-> Hlen]. simpl.
    rewrite concat_filter_nonempty. apply pick_partition.
    + apply Hlen. destruct (Z.to_nat k) eqn:E; [lia | discriminate].
    + eapply Forall_impl; [|exact (Hrange _ _ _ _ Hm)]. simpl. intros l Hl'. lia.
Qed.

(** X17. End to end: [process_and_cluster_emails] returns no cluster, or
    clusters whose [emails] hold every email that the preprocessor kept,
    once.  (The labels of k-means are taken to lie below the number of
    clusters.) *)
Theorem pipeline_partitions (emails : list Dict) (db : Db) :
  labels_in_range kmeans_fit_predict ->
  fst (process_and_cluster_emails emails db) = [] \/
  partitions (fst (process_and_cluster_emails emails db))
             (extracted extract_features emails).
Proof.
  intros Hrange.
  unfold Routes.process_and_cluster_emails, pipeline, stored_bind, stored_lift, stored_ret.
  destruct nltk_download; [|now left].
  rewrite (preprocess_emails_skips_failures_eq html_get_text word_tokenize stem
             nltk_stopwords).
  destruct (extracted extract_features emails) as [|f fs] eqn:Ef; [now left|].
  destruct (fit_transform_ids tfidf_fit_transform tfidf_feature_names
              scaler_fit_transform (f :: fs) new_vectorizer) as [m Hm].
  destruct (fit_transform (f :: fs) new_vectorizer) as [vectorized vectorizer].
  simpl in Hm. subst vectorized.
  destruct (size m =? 0)%nat eqn:Es; [now left|]. apply Nat.eqb_neq in Es.
  match goal with
  | |- context [store_clusters ?D ?sc ?g ?sa ?cl db] =>
      destruct (store_clusters D sc g sa cl db) as [[u|e] db']
  end; [|now left].
  right. simpl. apply clusters_partition; [exact Hrange | exact Es | discriminate].
Qed.

(** X18. Nothing to cluster: when the preprocessor keeps no email, or the
    [try] block of [fit_transform] raises (as TF-IDF does on a batch too
    small for its document frequencies), [process_and_cluster_emails]
    returns no cluster and leaves the database as it was; the fallback
    cluster of the clusterer is not reached. *)
Theorem pipeline_stores_nothing (emails : list Dict) (db : Db) :
  extracted extract_features emails = [] \/
  (exists e,
     fst (fit_body (extracted extract_features emails)
            (Vectorizer.collect_texts (extracted extract_features emails))
            new_vectorizer) = Raise e) ->
  process_and_cluster_emails emails db = ([], db).
Proof.
  intros H.
  unfold Routes.process_and_cluster_emails, pipeline, stored_bind, stored_lift, stored_ret.
  destruct nltk_download; [|reflexivity].
  rewrite (preprocess_emails_skips_failures_eq html_get_text word_tokenize stem
             nltk_stopwords).
  destruct (extracted extract_features emails) as [|f fs] eqn:Ef; [reflexivity|].
  destruct H as [H|[e H]]; [discriminate|].
  unfold Vectorizer.fit_transform, Vectorizer.try_method, Vectorizer.mbind, Vectorizer.ret.
  destruct (fit_body (f :: fs) (Vectorizer.collect_texts (f :: fs)) new_vectorizer)
    as [[m|e'] self']; simpl in H; [discriminate|]. reflexivity.
Qed.

(** X19. Clusters are returned only when they were stored: when
    [process_and_cluster_emails] returns clusters, [save_clusters] was
    called on the database as it was, with the label, the description
    and the count of these clusters, in their order, and it returned. *)
Theorem pipeline_returns_stored (emails : list Dict) (db : Db) :
  fst (process_and_cluster_emails emails db) <> [] ->
  exists cluster_ids db',
    save_clusters
      (map (fun c => (Clusterer.label c, Clusterer.description c, Clusterer.email_count c))
           (fst (process_and_cluster_emails emails db))) db
    = (Ok cluster_ids, db').
Proof.
  unfold Routes.process_and_cluster_emails, pipeline, stored_bind, stored_lift, stored_ret.
  destruct nltk_download; [|now intros []].
  destruct (Preprocessor.preprocess_emails _ _ _ _ emails) as [[|f fs]|];
    try (now intros []).
  destruct (fit_transform (f :: fs) new_vectorizer) as [[[m ids]|] vectorizer];
    [|now intros []].
  destruct (size m =? 0)%nat; [now intros []|].
  match goal with
  | |- context [store_clusters ?D ?sc ?g ?sa ?cl db] =>
      set (clusters := cl); destruct (store_clusters D sc g sa clusters db)
        as [[u|e] db1] eqn:E
  end; [|now intros []].
  simpl. intros Hne. unfold store_clusters, stored_bind in E.
  destruct clusters as [|c cs]; [congruence|].
  destruct (save_clusters _ db) as [[cluster_ids|] db2]; [eauto | discriminate].
Qed.

End PipelineProperties.

(** The three emails of [demo_batch] end in two clusters. *)
Lemma pipeline_partitions_witness :
  fst (demo_pipeline demo_batch 0) = [] \/
  partitions (fst (demo_pipeline demo_batch 0))
             (extracted Demo.extract_features demo_batch).
Proof.
  apply (pipeline_partitions Demo.html_get_text Demo.word_tokenize Demo.stem
           Demo.nltk_stopwords (Ok tt) tt tt demo_tfidf_fit Demo.tfidf_feature_names
           Demo.scaler_fit_transform demo_np_mean demo_np_argsort
           Demo.kmeans_fit_predict Demo.silhouette_score demo_save_clusters
           demo_get_emails demo_save_assignments demo_batch 0 demo_kmeans_in_range).
Defined.

(** With a TF-IDF step that raises, nothing is returned and nothing is
    written. *)
Lemma pipeline_stores_nothing_witness :
  demo_failing_pipeline demo_batch 0 = ([], 0).
Proof.
  apply (pipeline_stores_nothing Demo.html_get_text Demo.word_tokenize Demo.stem
           Demo.nltk_stopwords (Ok tt) tt tt Demo.tfidf_fit_transform
           Demo.tfidf_feature_names Demo.scaler_fit_transform demo_np_mean
           demo_np_argsort Demo.kmeans_fit_predict Demo.silhouette_score
           demo_save_clusters demo_get_emails demo_save_assignments demo_batch 0).
  right. eexists. vm_compute. reflexivity.
Defined.

(** The working pipeline stores two clusters and the assignments. *)
Example demo_pipeline_runs :
  map Clusterer.email_ids (fst (demo_pipeline demo_batch 0))
  = [[VStr "m1"; VStr "m5"]; [VStr "m3"]]
  /\ snd (demo_pipeline demo_batch 0) = 2.
Proof. split; vm_compute; reflexivity. Qed.

(** The two clusters of [demo_batch] were stored. *)
Lemma pipeline_returns_stored_witness :
  exists cluster_ids db',
    demo_save_clusters
      (map (fun c => (Clusterer.label c, Clusterer.description c, Clusterer.email_count c))
           (fst (demo_pipeline demo_batch 0))) 0
    = (Ok cluster_ids, db').
Proof.
  apply (pipeline_returns_stored Demo.html_get_text Demo.word_tokenize Demo.stem
           Demo.nltk_stopwords (Ok tt) tt tt demo_tfidf_fit Demo.tfidf_feature_names
           Demo.scaler_fit_transform demo_np_mean demo_np_argsort
           Demo.kmeans_fit_predict Demo.silhouette_score demo_save_clusters
           demo_get_emails demo_save_assignments demo_batch 0).
  vm_compute. discriminate.
Defined.

(** ** The preprocessor's further properties on concrete emails *)

(** The three emails of [demo_batch] have text fields; all are kept. *)
Lemma preprocess_keeps_text_emails_witness :
  exists fs,
    Demo.preprocess_emails demo_batch = Ok fs /\
    map gmail_id fs = map (fun email => dict_get email "gmail_id" VNone) demo_batch.
Proof.
  apply (preprocess_keeps_text_emails Demo.html_get_text Demo.word_tokenize Demo.stem
           Demo.nltk_stopwords demo_batch).
  repeat constructor.
Defined.

(** The body of the email that announces a sale, cleaned. *)
Lemma clean_text_whitespace_witness :
  join " " (split "big sale security alert unsubscribe at any time.")
  = "big sale security alert unsubscribe at any time." /\
  strip "big sale security alert unsubscribe at any time."
  = "big sale security alert unsubscribe at any time.".
Proof.
  apply (clean_text_whitespace Demo.html_get_text
           (VStr "Big SALE! Security alert: unsubscribe at any time.")).
  reflexivity.
Defined.

Lemma clean_text_alphabet_witness :
  chars_all cleaned_char "big sale security alert unsubscribe at any time." = true.
Proof.
  apply (clean_text_alphabet Demo.html_get_text
           (VStr "Big SALE! Security alert: unsubscribe at any time.")).
  - reflexivity.
  - intros t H. vm_compute in H. apply ok_inj in H. subst t. reflexivity.
Defined.

(* ================================================================== *)
(** * The rule of the dominant sender domain *)

Section DominantDomain.

Import Clusterer.

Lemma counted_add (w w' : string) (c : list (string * nat)) :
  counted w' (counter_add w c) = counted w' c + (if String.eqb w w' then 1 else 0).
Proof.
  induction c as [|[w0 n] c IH]; simpl.
  - destruct (String.eqb w w'); reflexivity.
  - destruct (String.eqb_spec w0 w) as [->|Hne]; simpl.
    + destruct (String.eqb w w'); lia.
    + destruct (String.eqb_spec w0 w') as [->|Hne'].
      * destruct (String.eqb_spec w w'); [congruence | lia].
      * exact IH.
Qed.

Lemma counted_fold (w : string) (items : list string) :
  forall c,
    counted w (fold_left (fun c x => counter_add x c) items c)
    = counted w c + occurrences w items.
Proof.
  unfold occurrences.
  induction items as [|x items IH]; intros c; simpl; [lia|].
  rewrite IH, counted_add, (String.eqb_sym w x).
  destruct (String.eqb x w); simpl; lia.
Qed.

Lemma keys_add (w : string) (c : list (string * nat)) :
  NoDup (map fst c) ->
  NoDup (map fst (counter_add w c)) /\
  (forall x, In x (map fst (counter_add w c)) -> x = w \/ In x (map fst c)).
Proof.
  induction c as [|[w0 n] c IH]; simpl; intros Hnd.
  - split; [repeat constructor; auto | intros x [<-|[]]; auto].
  - inversion Hnd as [|? ? Hnotin Hnd']; subst.
    destruct (String.eqb_spec w0 w) as [->|Hne]; simpl.
    + split; [exact Hnd | auto].
    + destruct (IH Hnd') as [IH1 IH2]. split.
      * constructor; [|exact IH1]. intros Hin. destruct (IH2 _ Hin); congruence.
      * intros x [<-|Hin]; [auto|]. destruct (IH2 _ Hin); auto.
Qed.

Lemma keys_fold (items : list string) :
  forall c, NoDup (map fst c) ->
            NoDup (map fst (fold_left (fun c x => counter_add x c) items c)).
Proof.
  induction items as [|x items IH]; intros c Hnd; simpl; [exact Hnd|].
  apply IH. now apply keys_add.
Qed.

Lemma counted_entry (w : string) (k : nat) (c : list (string * nat)) :
  NoDup (map fst c) -> In (w, k) c -> counted w c = k.
Proof.
  induction c as [|[w0 n] c IH]; simpl; intros Hnd Hin; [contradiction|].
  inversion Hnd as [|? ? Hnotin Hnd']; subst.
  destruct Hin as [[= -> ->]|Hin].
  - now rewrite String.eqb_refl.
  - destruct (String.eqb_spec w0 w) as [->|Hne]; [|now apply IH].
    exfalso. apply Hnotin. apply in_map_iff. now exists (w, k).
Qed.

Lemma counted_positive (w : string) (c : list (string * nat)) :
  0 < counted w c -> In (w, counted w c) c.
Proof.
  induction c as [|[w0 n] c IH]; simpl; [lia|].
  destruct (String.eqb_spec w0 w) as [->|Hne]; [now left | right; now apply IH].
Qed.

(** A counter holds each item with the number of its occurrences. *)
Lemma counter_entries (items : list string) (w : string) (k : nat) :
  In (w, k) (Counter items) -> k = occurrences w items.
Proof.
  intros Hin. unfold Counter in *.
  rewrite <- (counted_entry w k _ (keys_fold items [] (NoDup_nil _)) Hin).
  now rewrite counted_fold.
Qed.

Lemma counter_holds (items : list string) (w : string) :
  0 < occurrences w items -> In (w, occurrences w items) (Counter items).
Proof.
  intros H. unfold Counter.
  assert (E : counted w (fold_left (fun c x => counter_add x c) items [])
              = occurrences w items) by now rewrite counted_fold.
  rewrite <- E. apply counted_positive. now rewrite E.
Qed.

Lemma occurrences_two (w w' : string) (l : list string) :
  w <> w' -> occurrences w l + occurrences w' l <= List.length l.
Proof.
  intros Hne. unfold occurrences. induction l as [|x l IH]; simpl; [lia|].
  destruct (String.eqb_spec w x), (String.eqb_spec w' x); simpl; try lia; congruence.
Qed.

(** The first item of a list sorted by decreasing key has the largest key. *)
Lemma sort_desc_head {A : Type} (key : A -> nat) (l : list A) (x : A) (rest : list A) :
  sort_desc key l = x :: rest ->
  In x l /\ forall y, In y l -> key y <= key x.
Proof.
  intros E. pose proof (sort_desc_sorted key l) as Hs.
  pose proof (sort_desc_perm key l) as Hp. rewrite E in Hs, Hp.
  split; [apply (Permutation_in _ Hp); now left|].
  intros y Hy. apply (Permutation_in _ (Permutation_sym Hp)) in Hy.
  inversion Hs as [|? ? _ Hall]; subst.
  destruct Hy as [<-|Hy]; [lia|].
  rewrite Forall_forall in Hall. exact (Hall y Hy).
Qed.

(** The item that makes up more than half of a list is its most common. *)
Lemma most_common_majority (items : list string) (w : string) :
  List.length items < 2 * occurrences w items ->
  exists rest, most_common 3 (Counter items) = (w, occurrences w items) :: rest.
Proof.
  intros Hmaj. unfold most_common.
  assert (Hin : In (w, occurrences w items) (Counter items))
    by (apply counter_holds; lia).
  destruct (sort_desc snd (Counter items)) as [|[x k] rest] eqn:E.
  - exfalso. pose proof (sort_desc_perm snd (Counter items)) as Hp. rewrite E in Hp.
    apply Permutation_nil in Hp. rewrite Hp in Hin. contradiction.
  - destruct (sort_desc_head snd _ _ _ E) as [Hx Hmax].
    pose proof (counter_entries _ _ _ Hx) as Hk. specialize (Hmax _ Hin). simpl in Hmax.
    destruct (String.eqb_spec w x) as [->|Hne].
    + subst k. simpl. eauto.
    + pose proof (occurrences_two w x items Hne). lia.
Qed.

Lemma ratio_gt_half (a b : nat) :
  b <> 0 -> ratio_gt a b 0.5 = Ok (b <? 2 * a)%nat.
Proof.
  intros Hb. destruct b as [|b]; [congruence|].
  unfold ratio_gt, Qle_bool. cbn [Qnum Qden]. f_equal.
  replace (Z.pos (Pos.of_nat (S b))) with (Z.of_nat (S b))
    by (rewrite <- Pos.of_nat_succ, Zpos_P_of_succ_nat; lia).
  destruct (Z.leb_spec (Z.of_nat a * 10) (5 * Z.of_nat (S b)));
    destruct (Nat.ltb_spec (S b) (2 * a)); simpl; try reflexivity; lia.
Qed.

(** X20. The rule of the dominant domain: a cluster to which none of the
    three 60% rules applies, and of which more than half of the emails
    come from one sender domain that is not "unknown", is labelled by
    [_domain_to_label] of that domain and described as coming from it,
    whatever the vectorizer and the subjects are. *)
Theorem dominant_domain_rule (es : list ProcessedEmail) (v : VectorizerHandle)
    (vecs : Matrix) (domain : string) :
  ~ mostly is_newsletter es -> ~ mostly is_notification es ->
  ~ mostly is_promotional es ->
  dominates domain es -> domain <> "unknown" ->
  _generate_cluster_label_and_description es v vecs =
  Ok (_domain_to_label domain,
      "Emails from " ++ domain ++ " and related services"
      ++ count_suffix (List.length es)).
Proof.
  intros Hn1 Hn2 Hn3 Hdom Hunk. unfold dominates in Hdom.
  assert (Hne : es <> []) by (intros ->; simpl in Hdom; lia).
  assert (Hlen : List.length es <> 0) by (destruct es; simpl; congruence).
  unfold _generate_cluster_label_and_description.
  rewrite (not_mostly _ _ Hne Hn1), (not_mostly _ _ Hne Hn2), (not_mostly _ _ Hne Hn3).
  cbn [bind]. unfold _generate_content_based_label.
  destruct (most_common_majority (map sender_domain es) domain) as [rest ->];
    [now rewrite length_map|].
  rewrite (ratio_gt_half _ _ Hlen). cbn [bind].
  rewrite (proj2 (Nat.ltb_lt _ _) Hdom).
  destruct (String.eqb_spec domain "unknown"); [contradiction | reflexivity].
Qed.

End DominantDomain.

(** Three of the five emails of [Demo] come from amazon.com, and only two
    of them are newsletters. *)
Lemma dominant_domain_rule_witness :
  Clusterer._generate_cluster_label_and_description Demo.five_emails None []
  = Ok ("Shopping & E-commerce",
        "Emails from amazon.com and related services (5 emails)").
Proof.
  apply (dominant_domain_rule Demo.five_emails None [] "amazon.com").
  - unfold mostly. vm_compute. lia.
  - unfold mostly. vm_compute. lia.
  - unfold mostly. vm_compute. lia.
  - unfold dominates. vm_compute. lia.
  - discriminate.
Defined.

(* ================================================================== *)
(** * The assignments of emails to stored clusters *)

Section Assignments.

Import Routes.

Context {Db : Type}.
Variable get_emails : Db -> Exc (list DbEmail) * Db.

Local Abbreviation assign_emails := (assign_emails Db get_emails).
Local Abbreviation assign_clusters := (assign_clusters Db get_emails).

Lemma assign_emails_reads (rows : list DbEmail) (db : Db) (cluster_id : Z)
    (es : list ProcessedEmail) :
  get_emails db = (Ok rows, db) ->
  forall acc,
    assign_emails cluster_id es acc db
    = (Ok (acc ++ flat_map (assignment_of rows cluster_id) es)%list, db).
Proof.
  intros Hget. induction es as [|e es IH]; intros acc.
  - simpl. unfold stored_ret. now rewrite app_nil_r.
  - cbn [Routes.assign_emails flat_map]. unfold stored_bind. rewrite Hget.
    rewrite IH. unfold assignment_of at 2.
    destruct (find_db_email (gmail_id e) rows).
    + now rewrite <- app_assoc.
    + reflexivity.
Qed.

Lemma skipn_nth_some {A : Type} (l : list A) (i : nat) (x : A) :
  nth_error l i = Some x -> skipn i l = x :: skipn (S i) l.
Proof.
  revert i. induction l as [|a l IH]; intros [|i]; simpl; try discriminate.
  - now intros [= ->].
  - intros H. now rewrite (IH _ H).
Qed.

Lemma skipn_nth_none {A : Type} (l : list A) (i : nat) :
  nth_error l i = None -> skipn i l = [].
Proof.
  revert i. induction l as [|a l IH]; intros [|i]; simpl; try discriminate; auto.
Qed.

Lemma assign_clusters_reads (rows : list DbEmail) (db : Db) (cluster_ids : list Z)
    (clusters : list Clusterer.Cluster) :
  get_emails db = (Ok rows, db) ->
  forall i acc,
    List.length clusters <= List.length (skipn i cluster_ids) ->
    assign_clusters cluster_ids i clusters acc db
    = (Ok (acc ++ assignments_of rows (skipn i cluster_ids) clusters)%list, db).
Proof.
  intros Hget. induction clusters as [|c cs IH]; intros i acc Hlen.
  - cbn [Routes.assign_clusters]. unfold stored_ret, assignments_of.
    destruct (skipn i cluster_ids); simpl; now rewrite app_nil_r.
  - cbn [Routes.assign_clusters].
    destruct (nth_error cluster_ids i) as [cid|] eqn:E.
    + rewrite (skipn_nth_some _ _ _ E) in *. cbn [List.length] in Hlen.
      unfold stored_bind. rewrite (assign_emails_reads rows db cid _ Hget).
      rewrite IH by lia. unfold assignments_of. cbn [combine flat_map fst snd].
      now rewrite <- app_assoc.
    + rewrite (skipn_nth_none _ _ E) in Hlen. simpl in Hlen. lia.
Qed.

Lemma assign_clusters_short (rows : list DbEmail) (db : Db) (cluster_ids : list Z)
    (clusters : list Clusterer.Cluster) :
  get_emails db = (Ok rows, db) ->
  forall i acc,
    List.length (skipn i cluster_ids) < List.length clusters ->
    assign_clusters cluster_ids i clusters acc db = (Raise IndexError, db).
Proof.
  intros Hget. induction clusters as [|c cs IH]; intros i acc Hlen.
  - simpl in Hlen. lia.
  - cbn [Routes.assign_clusters].
    destruct (nth_error cluster_ids i) as [cid|] eqn:E.
    + rewrite (skipn_nth_some _ _ _ E) in Hlen. cbn [List.length] in Hlen.
      unfold stored_bind. rewrite (assign_emails_reads rows db cid _ Hget).
      apply IH. lia.
    + reflexivity.
Qed.

(** X21. The loop of assignments, over a table of emails that reading
    does not change: with at least one stored id per cluster, every
    clustered email whose gmail_id is in the table gets exactly one
    assignment, to the first row that has its gmail_id and to the id at
    the position of its cluster, in the order of the clusters and of
    their emails; an email that no row has is passed over.  With fewer
    stored ids than clusters the loop raises [IndexError]. *)
Theorem assignments_follow_clusters (rows : list DbEmail) (db : Db)
    (cluster_ids : list Z) (clusters : list Clusterer.Cluster) :
  get_emails db = (Ok rows, db) ->
  (List.length clusters <= List.length cluster_ids ->
   assign_clusters cluster_ids 0 clusters [] db
   = (Ok (assignments_of rows cluster_ids clusters), db)) /\
  (List.length cluster_ids < List.length clusters ->
   assign_clusters cluster_ids 0 clusters [] db = (Raise IndexError, db)).
Proof.
  intros Hget. split; intros Hlen.
  - now rewrite (assign_clusters_reads rows db cluster_ids clusters Hget 0 []).
  - now apply (assign_clusters_short rows).
Qed.

End Assignments.

(** The two clusters of [demo_batch] against the three rows of the table:
    the emails m1 and m5 go to the first stored cluster, m3 to the
    second. *)
Lemma assignments_follow_clusters_witness :
  Routes.assign_clusters nat demo_get_emails [7%Z; 9%Z] 0
    (fst (demo_pipeline demo_batch 0)) [] 0
  = (Ok [(VInt 11, 7%Z); (VInt 15, 7%Z); (VInt 13, 9%Z)], 0).
Proof.
  apply (proj1 (assignments_follow_clusters demo_get_emails
                  [ Routes.mkDbEmail (VInt 11) (VStr "m1");
                    Routes.mkDbEmail (VInt 13) (VStr "m3");
                    Routes.mkDbEmail (VInt 15) (VStr "m5") ]
                  0 [7%Z; 9%Z] (fst (demo_pipeline demo_batch 0)) eq_refl)).
  vm_compute. lia.
Defined.
